(** * persona-gpt: the quota and extension-request lifecycle

  A shallow embedding of [email_detector.py], [extension_manager.py] and the
  quota, chat and administrator handlers of [app.py], followed by the
  properties of the quota-and-extension protocol.

  Modelling conventions.
  - Python [str] values are [string]s; the model covers ASCII text, on
    which code points and bytes coincide.  The character classes of [Text]
    ([\w], [\s], [str.isspace]) are Python's classes cut down to ASCII, so
    the statements about what [extract_email] and [is_valid_email] find
    carry the hypothesis that the text is ASCII.  Python [int]s are [Z].
  - The handlers are modelled on the decoded JSON body; module [Request]
    models what [request.get_json()] delivers to [chat], with the calls
    that Flask aborts and the Python exceptions raised on a body of another
    type.
  - A Flask session is a record of optional entries (a missing dictionary
    key is [None]).
  - The two ledger files are explicit state: the request ledger is the
    list of its parsed NDJSON lines (or absent), the approval ledger is
    absent, unusable, or a finite map from session ids to grants.
  - Everything the handlers obtain from outside (the clock, a fresh uuid,
    the classifier, the model call) is an explicit argument. *)

From Stdlib Require Import ZArith Lia Bool Ascii String List.
From Stdlib Require Import Sorting.Sorted Sorting.Permutation.
From Stdlib Require Import Floats.SpecFloat.
From stdpp Require Import base option list strings pretty gmap.

Local Open Scope string_scope.
Local Open Scope Z_scope.

(** ** Text primitives *)

Module Text.

Definition code (c : ascii) : N := N_of_ascii c.

Definition in_range (lo hi : N) (c : ascii) : bool :=
  ((lo <=? code c) && (code c <=? hi))%N.

Definition is_upper : ascii -> bool := in_range 65 90.
Definition is_lower : ascii -> bool := in_range 97 122.
Definition is_digit : ascii -> bool := in_range 48 57.
Definition is_alpha (c : ascii) : bool := is_upper c || is_lower c.
Definition is_alnum (c : ascii) : bool := is_alpha c || is_digit c.

(** [str.isspace] on one ASCII character, which is also what [\s] matches
    in a [str] pattern: TAB..CR, FS..US and the space. Beyond ASCII Python
    counts further characters as whitespace (U+0085, U+00A0, ...), which
    this class leaves out. *)
Definition py_isspace (c : ascii) : bool :=
  in_range 9 13 c || in_range 28 32 c.

(** [\w] on ASCII: letters, digits and the underscore. In a [str] pattern
    Python also counts the letters and digits beyond ASCII as word
    characters, which this class leaves out. *)
Definition is_word (c : ascii) : bool :=
  is_alnum c || Ascii.eqb c "_".

Definition one_of (cs : string) (c : ascii) : bool :=
  existsb (Ascii.eqb c) (list_ascii_of_string cs).

Definition lower (c : ascii) : ascii :=
  if is_upper c then ascii_of_N (code c + 32) else c.

(** [s[:n]] for a Python slice bound [n], negative bounds counting from
    the end. *)
Definition take (n : nat) (s : string) : string := String.substring 0 n s.

Definition py_slice_to (n : Z) (s : string) : string :=
  if 0 <=? n then take (Z.to_nat n) s
  else take (String.length s - Z.to_nat (- n)) s.

Fixpoint lstrip (s : string) : string :=
  match s with
  | String c s' => if py_isspace c then lstrip s' else s
  | EmptyString => EmptyString
  end.

Definition rstrip (s : string) : string := String.rev (lstrip (String.rev s)).

(** [s.strip()] *)
Definition strip (s : string) : string := rstrip (lstrip s).

(** Python truthiness of a [str]. *)
Definition nonempty (s : string) : bool :=
  match s with EmptyString => false | _ => true end.

Fixpoint repeat_char (c : ascii) (n : nat) : string :=
  match n with O => EmptyString | S n' => String c (repeat_char c n') end.

End Text.

(** ** A backtracking matcher for the regular expressions of the source

  Only the constructs that occur in [EMAIL_REGEX] and in the patterns of
  [sanitize_input] are present.  The matcher is written in
  continuation-passing style so that alternatives are tried in the order
  of Python's [re]: greedy repetition first tries to take one more
  character, an optional group is first tried present, the left branch of
  an alternation goes first. *)

Module Regex.
Import Text.

Inductive regex : Type :=
| REps
| RLit (c : ascii)
| RSet (p : ascii -> bool)
| RWordBoundary
| RSeq (r1 r2 : regex)
| RAlt (r1 r2 : regex)
| ROpt (r : regex)
| RMany (p : ascii -> bool) (least : nat).

Fixpoint rx_str (s : string) : regex :=
  match s with
  | EmptyString => REps
  | String c s' => RSeq (RLit c) (rx_str s')
  end.

Fixpoint rx_cat (rs : list regex) : regex :=
  match rs with
  | [] => REps
  | r :: rs' => RSeq r (rx_cat rs')
  end.

Definition cont : Type := option ascii -> string -> option string.

(** The two sides of [\b], over the word characters of ASCII. *)
Definition word_before (prev : option ascii) : bool :=
  match prev with Some c => is_word c | None => false end.

Definition word_after (s : string) : bool :=
  match s with String c _ => is_word c | EmptyString => false end.

Definition lit_eq (ci : bool) (c x : ascii) : bool :=
  if ci then Ascii.eqb (lower c) (lower x) else Ascii.eqb c x.

(** [p{least,}], greedy. *)
Fixpoint many (p : ascii -> bool) (least : nat) (k : cont)
         (prev : option ascii) (s : string) : option string :=
  let stop := match least with O => k prev s | S _ => None end in
  match s with
  | String x s' =>
      if p x then
        match many p (Nat.pred least) k (Some x) s' with
        | Some rest => Some rest
        | None => stop
        end
      else stop
  | EmptyString => stop
  end.

(** [rx_match ci r prev s k]: match [r] at the head of [s], [prev] being
    the character just before it, then continue with [k]; the result is
    the text left after the whole match. [ci] is the [(?i)] flag. *)
Fixpoint rx_match (ci : bool) (r : regex) (prev : option ascii) (s : string)
         (k : cont) : option string :=
  match r with
  | REps => k prev s
  | RLit c =>
      match s with
      | String x s' => if lit_eq ci c x then k (Some x) s' else None
      | EmptyString => None
      end
  | RSet p =>
      match s with
      | String x s' => if p x then k (Some x) s' else None
      | EmptyString => None
      end
  | RWordBoundary =>
      if xorb (word_before prev) (word_after s) then k prev s else None
  | RSeq r1 r2 =>
      rx_match ci r1 prev s (fun prev' s' => rx_match ci r2 prev' s' k)
  | RAlt r1 r2 =>
      match rx_match ci r1 prev s k with
      | Some rest => Some rest
      | None => rx_match ci r2 prev s k
      end
  | ROpt r1 =>
      match rx_match ci r1 prev s k with
      | Some rest => Some rest
      | None => k prev s
      end
  | RMany p least => many p least k prev s
  end.

(** Length of the match of [r] that starts exactly here, if any. *)
Definition match_here (ci : bool) (r : regex) (prev : option ascii)
           (s : string) : option nat :=
  match rx_match ci r prev s (fun _ rest => Some rest) with
  | Some rest => Some (String.length s - String.length rest)%nat
  | None => None
  end.

(** The leftmost match, as [re.search] / the first item of [re.findall]
    for a pattern without groups. *)
Fixpoint first_match (ci : bool) (r : regex) (prev : option ascii)
         (s : string) : option string :=
  match match_here ci r prev s with
  | Some n => Some (take n s)
  | None =>
      match s with
      | String c s' => first_match ci r (Some c) s'
      | EmptyString => None
      end
  end.

(** [re.sub(r, '', s)]: every non-overlapping match, scanning from the
    left, is deleted. [skip] counts the characters of the current match
    still to be dropped. *)
Fixpoint sub_go (ci : bool) (r : regex) (prev : option ascii) (s : string)
         (skip : nat) : string :=
  match s with
  | EmptyString => EmptyString
  | String c s' =>
      match skip with
      | S n => sub_go ci r (Some c) s' n
      | O =>
          match match_here ci r prev s with
          | Some (S n) => sub_go ci r (Some c) s' n
          | _ => String c (sub_go ci r (Some c) s' 0)
          end
      end
  end.

Definition re_sub_empty (ci : bool) (r : regex) (s : string) : string :=
  sub_go ci r None s 0.

End Regex.

(** ** email_detector.py *)

Module EmailDetector.
Import Text Regex.

Definition local_char (c : ascii) : bool := is_alnum c || one_of "._%+-" c.
Definition domain_char (c : ascii) : bool := is_alnum c || one_of ".-" c.
(** The class [[A-Z|a-z]] also admits the bar. *)
Definition tld_char (c : ascii) : bool := is_alpha c || one_of "|" c.

(** [\b[A-Za-z0-9._%+-]+@[A-Za-z0-9.-]+\.[A-Z|a-z]{2,}\b] *)
Definition EMAIL_REGEX : regex :=
  rx_cat [ RWordBoundary; RMany local_char 1; RLit "@";
           RMany domain_char 1; RLit "."; RMany tld_char 2;
           RWordBoundary ].

Definition extract_email (text : string) : option string :=
  first_match false EMAIL_REGEX None text.

(** [bool(re.match(EMAIL_REGEX, email))]: [re.match] anchors the pattern
    at the first character only. *)
Definition is_valid_email (email : string) : bool :=
  match match_here false EMAIL_REGEX None email with
  | Some _ => true
  | None => false
  end.

End EmailDetector.

(** ** extension_manager.py *)

Module ExtensionManager.

(** The dataclass [ExtensionRequest]; one parsed line of
    [extension_requests.ndjson]. *)
Record ExtensionRequest : Type := mkExtensionRequest {
  session_id : string;
  email : string;
  timestamp : string;
  status : string;
  queries_granted : Z;
  approved_at : option string;
  request_id : string
}.

(** The ledger file [extension_requests.ndjson]: [None] when the file does
    not exist, otherwise its non-blank lines in file order. *)
Definition ledger : Type := option (list ExtensionRequest).

Definition lines (f : ledger) : list ExtensionRequest :=
  match f with Some l => l | None => [] end.

(** [create_request]. The two readings of the clock are arguments:
    [now] is [datetime.now().isoformat()] and [epoch] is
    [int(datetime.now().timestamp())]. Opening the file in append mode
    creates it when it is missing. *)
Definition create_request (f : ledger) (session_id email : string)
           (now : string) (epoch : Z) : ledger * ExtensionRequest :=
  let request :=
    {| session_id := session_id;
       email := email;
       timestamp := now;
       status := "pending";
       queries_granted := 0;
       approved_at := None;
       request_id := session_id +:+ "_" +:+ pretty epoch |} in
  (Some (lines f ++ [request])%list, request).

(** [requests.sort(key=lambda r: r.timestamp, reverse=True)]: a stable
    sort, larger timestamps first, records with equal timestamps staying
    in their original order. *)
Fixpoint insert_newest (x : ExtensionRequest) (l : list ExtensionRequest)
  : list ExtensionRequest :=
  match l with
  | [] => [x]
  | y :: l' =>
      if String.ltb (timestamp x) (timestamp y)
      then y :: insert_newest x l'
      else x :: l
  end.

Definition sort_newest_first (l : list ExtensionRequest)
  : list ExtensionRequest :=
  fold_right insert_newest [] l.

Definition get_pending_requests (f : ledger) : list ExtensionRequest :=
  match f with
  | None => []
  | Some l =>
      sort_newest_first
        (List.filter (fun data => String.eqb (status data) "pending") l)
  end.

Definition get_all_requests (f : ledger) (status_filter : string)
  : list ExtensionRequest :=
  match f with
  | None => []
  | Some l =>
      sort_newest_first
        (List.filter
           (fun data => String.eqb status_filter "all"
                        || String.eqb (status data) status_filter) l)
  end.

Definition get_request_by_id (f : ledger) (request_id' : string)
  : option ExtensionRequest :=
  match f with
  | None => None
  | Some l => List.find (fun data => String.eqb (request_id data) request_id') l
  end.

(** The loop [for req in requests: if ...: <update>; break]. *)
Fixpoint update_first (test : ExtensionRequest -> bool)
         (upd : ExtensionRequest -> ExtensionRequest)
         (l : list ExtensionRequest) : list ExtensionRequest :=
  match l with
  | [] => []
  | req :: l' =>
      if test req then upd req :: l' else req :: update_first test upd l'
  end.

Definition mark_approved (granted : Z) (now : string)
           (req : ExtensionRequest) : ExtensionRequest :=
  {| session_id := session_id req;
     email := email req;
     timestamp := timestamp req;
     status := "approved";
     queries_granted := granted;
     approved_at := Some now;
     request_id := request_id req |}.

Definition mark_denied (now : string) (req : ExtensionRequest)
  : ExtensionRequest :=
  {| session_id := session_id req;
     email := email req;
     timestamp := timestamp req;
     status := "denied";
     queries_granted := queries_granted req;
     approved_at := Some now;
     request_id := request_id req |}.

Definition approve_request (f : ledger) (request_id' : string)
           (granted : Z) (now : string) : ledger :=
  match f with
  | None => None
  | Some l =>
      Some (update_first
              (fun req => String.eqb (request_id req) request_id')
              (mark_approved granted now) l)
  end.

Definition deny_request (f : ledger) (request_id' : string) (now : string)
  : ledger :=
  match f with
  | None => None
  | Some l =>
      Some (update_first
              (fun req => String.eqb (request_id req) request_id')
              (mark_denied now) l)
  end.

Definition has_pending_request (f : ledger) (session_id' : string) : bool :=
  match f with
  | None => false
  | Some l =>
      existsb (fun data => String.eqb (session_id data) session_id'
                           && String.eqb (status data) "pending") l
  end.

End ExtensionManager.

(** ** app.py *)

Module App.
Import Text Regex EmailDetector ExtensionManager.

(** *** Configuration and stores *)

(** The process-wide constants read from the environment when the module
    is loaded. [ADMIN_RESET_KEY] is [None] when no secret is set. *)
Record Config : Type := mkConfig {
  MAX_QUERIES_PER_SESSION : Z;
  MAX_QUERY_LENGTH : Z;
  ADMIN_RESET_KEY : option string
}.

(** One value of [approved_extensions.json]. *)
Record ApprovalGrant : Type := mkApprovalGrant {
  grant_queries_granted : Z;
  grant_approved_at : string;
  grant_request_id : string;
  grant_email : string
}.

(** What reading [approved_extensions.json] gives: [Unreadable] when
    opening or [json.load] raises, otherwise the JSON object. *)
Inductive ApprovalsContent : Type :=
| Unreadable
| Approvals (m : gmap string ApprovalGrant).

(** The directory [QUERY_LOG_PATH]; a file that does not exist is
    [None]. *)
Record Files : Type := mkFiles {
  requests_file : ledger;
  approvals_file : option ApprovalsContent
}.

(** The keys of the Flask session that the handlers use. *)
Record Session : Type := mkSession {
  sess_query_count : option Z;
  sess_conversation : option (list (string * string));
  sess_session_id : option string;
  sess_extension_requested : option bool;
  sess_extension_request_id : option string
}.

Definition empty_session : Session :=
  mkSession None None None None None.

Definition set_query_count (v : Z) (s : Session) : Session :=
  mkSession (Some v) (sess_conversation s) (sess_session_id s)
            (sess_extension_requested s) (sess_extension_request_id s).

Definition set_conversation (v : list (string * string)) (s : Session)
  : Session :=
  mkSession (sess_query_count s) (Some v) (sess_session_id s)
            (sess_extension_requested s) (sess_extension_request_id s).

Definition set_session_id (v : string) (s : Session) : Session :=
  mkSession (sess_query_count s) (sess_conversation s) (Some v)
            (sess_extension_requested s) (sess_extension_request_id s).

Definition set_extension_requested (v : bool) (s : Session) : Session :=
  mkSession (sess_query_count s) (sess_conversation s) (sess_session_id s)
            (Some v) (sess_extension_request_id s).

Definition set_extension_request_id (v : string) (s : Session) : Session :=
  mkSession (sess_query_count s) (sess_conversation s) (sess_session_id s)
            (sess_extension_requested s) (Some v).

(** *** sanitize_input *)

Definition ws1 : regex := RMany py_isspace 1.
Definition ws0 : regex := RMany py_isspace 0.

Definition previous_instructions (verb : string) : regex :=
  rx_cat [ rx_str verb; ws1; ROpt (RSeq (rx_str "all") ws1);
           RAlt (rx_str "previous") (RAlt (rx_str "above") (rx_str "prior"));
           ws1; rx_str "instruction"; ROpt (RLit "s") ].

(** All nine patterns carry the [(?i)] flag. *)
Definition patterns_to_remove : list regex :=
  [ previous_instructions "ignore";
    previous_instructions "forget";
    previous_instructions "disregard";
    rx_cat [ rx_str "you"; ws1; rx_str "are"; ws1; rx_str "now"; ws1 ];
    rx_cat [ rx_str "act"; ws1; rx_str "as"; ws1;
             ROpt (rx_cat [ rx_str "if"; ws1; rx_str "you"; ws1;
                            rx_str "are"; ws1 ]) ];
    rx_cat [ rx_str "pretend"; ws1;
             RAlt (rx_cat [ rx_str "to"; ws1; rx_str "be" ])
                  (rx_cat [ rx_str "you"; ws1; rx_str "are" ]);
             ws1 ];
    rx_cat [ rx_str "system"; ws0; RLit ":"; ws0 ];
    rx_cat [ rx_str "assistant"; ws0; RLit ":"; ws0 ];
    rx_cat [ rx_str "user"; ws0; RLit ":"; ws0 ] ].

Definition sanitize_input (cfg : Config) (user_input : string) : string :=
  if negb (nonempty user_input) then ""
  else
    let user_input := py_slice_to (MAX_QUERY_LENGTH cfg) user_input in
    let user_input :=
      fold_left (fun s pattern => re_sub_empty true pattern s)
                patterns_to_remove user_input in
    strip user_input.

(** *** Session helpers *)

Definition get_query_count (s : Session) : Z :=
  default 0 (sess_query_count s).

Definition increment_query_count (s : Session) : Z * Session :=
  let count := get_query_count s + 1 in
  (count, set_query_count count s).

Definition get_conversation_history (s : Session) : list (string * string) :=
  default [] (sess_conversation s).

(** [conversation[-20:]] *)
Definition last_20 {A} (l : list A) : list A :=
  drop (length l - 20)%nat l.

Definition add_to_conversation (role content : string) (s : Session)
  : Session :=
  let conversation := (get_conversation_history s ++ [(role, content)])%list in
  set_conversation (last_20 conversation) s.

(** [uuid] stands for [str(uuid.uuid4())[:8]], drawn only when the session
    has no id yet. *)
Definition get_session_id (uuid : string) (s : Session) : string * Session :=
  match sess_session_id s with
  | Some sid => (sid, s)
  | None => (uuid, set_session_id uuid s)
  end.

(** *** The quota engine *)

(** The limit that [get_max_queries_for_session] computes once the
    session id is known. *)
Definition max_queries_for (cfg : Config) (fs : Files) (session_id : string)
  : Z :=
  let base_max := MAX_QUERIES_PER_SESSION cfg in
  match approvals_file fs with
  | Some (Approvals approvals) =>
      match approvals !! session_id with
      | Some grant => base_max + grant_queries_granted grant
      | None => base_max
      end
  | Some Unreadable => base_max
  | None => base_max
  end.

Definition get_max_queries_for_session (cfg : Config) (fs : Files)
           (uuid : string) (s : Session) : Z * Session :=
  let '(session_id, s) := get_session_id uuid s in
  (max_queries_for cfg fs session_id, s).

(** The quota gate of [chat]: the call goes on to validation and to the
    model unless [current_count >= max_queries]. *)
Definition admitted (current_count max_queries : Z) : bool :=
  negb (max_queries <=? current_count).

(** *** The conversational call *)

(** The value of [request.get_json()] as [chat] uses it, once decoded: a
    JSON object of which only the textual [message] entry is read. A
    missing entry is [None]; the handler receives [None] instead of a body
    when [get_json] returns a value that counts as false. The calls in
    which [get_json] aborts, or in which the value has another type, are
    those of [Request.chat_request]. *)
Record ChatBody : Type := mkChatBody {
  message : option string
}.

(** What the intent classifier did: any exception raised while the client,
    the company names or the classification are obtained, or the scope it
    returned. *)
Inductive ClassifyOutcome : Type :=
| ClassifyRaises
| ClassifyScope (scope : string).

(** What the main conversation did: [load_persona] raised; the API call or
    the interaction log raised after the user message was recorded; or an
    answer came back and was logged. *)
Inductive LlmOutcome : Type :=
| PersonaRaises
| CompletionRaises
| Completion (assistant_message : string).

(** Everything one call of [chat] takes from outside the session and the
    two ledgers. [env_refusal] is the canned refusal when
    [get_refusal_response] and the log of the filtered interaction
    succeed, [None] when one of them raises. *)
Record ChatEnv : Type := mkChatEnv {
  env_uuid : string;
  env_now : string;
  env_epoch : Z;
  env_classify : ClassifyOutcome;
  env_refusal : option string;
  env_llm : LlmOutcome
}.

Inductive ChatResponse : Type :=
| ExtensionRequested (msg : string) (query_count max_queries : Z)
| LimitReached (msg : string) (query_count max_queries : Z)
| BadRequest (error : string)
| MessageTooLong (max_length : Z)
| Filtered (response : string)
           (query_count max_queries queries_remaining : Z)
| Answer (response : string)
         (query_count max_queries queries_remaining : Z)
| FailedToGetResponse.

Definition http_status (r : ChatResponse) : Z :=
  match r with
  | ExtensionRequested _ _ _ | LimitReached _ _ _ => 429
  | BadRequest _ | MessageTooLong _ => 400
  | Filtered _ _ _ _ | Answer _ _ _ _ => 200
  | FailedToGetResponse => 500
  end.

Definition EXTENSION_RECEIVED : string :=
  "Extension request received! We'll review your request and may extend your session. Check back shortly.".

Definition PENDING_REVIEW : string :=
  "Your extension request is pending review. Please check back later.".

Definition SEND_EMAIL (max_queries : Z) : string :=
  "You have reached the maximum of " +:+ pretty max_queries +:+
  " questions for this session. To request more questions, send a message with your email address.".

Definition truthy (flag : option bool) : bool := default false flag.

(** The address for which the limit branch files a request: the body has
    a message, an address is found in it, and the session has no pending
    request. *)
Definition extension_email (fs : Files) (session_id : string)
           (data : option ChatBody) : option string :=
  match data with
  | Some {| message := Some m |} =>
      let user_message := strip m in
      match extract_email user_message with
      | Some email =>
          if nonempty email
             && negb (has_pending_request (requests_file fs) session_id)
          then Some email
          else None
      | None => None
      end
  | _ => None
  end.

(** The branch [current_count >= max_queries]. Sending the notification
    is best effort and touches neither the session nor the ledgers, so it
    leaves no trace here. *)
Definition limit_reached (fs : Files) (env : ChatEnv)
           (data : option ChatBody) (session_id : string)
           (current_count max_queries : Z) (s : Session)
  : ChatResponse * Session * Files :=
  match extension_email fs session_id data with
  | Some email =>
      let '(ledger', ext_request) :=
        create_request (requests_file fs) session_id email
                       (env_now env) (env_epoch env) in
      let s := set_extension_requested true s in
      let s := set_extension_request_id (request_id ext_request) s in
      (ExtensionRequested EXTENSION_RECEIVED current_count max_queries,
       s, mkFiles ledger' (approvals_file fs))
  | None =>
      let msg :=
        if truthy (sess_extension_requested s) then PENDING_REVIEW
        else SEND_EMAIL max_queries in
      (LimitReached msg current_count max_queries, s, fs)
  end.

(** The main conversation, after classification. *)
Definition converse (cfg : Config) (fs : Files) (env : ChatEnv)
           (user_message : string) (s : Session)
  : ChatResponse * Session * Files :=
  match env_llm env with
  | PersonaRaises => (FailedToGetResponse, s, fs)
  | CompletionRaises =>
      (FailedToGetResponse, add_to_conversation "user" user_message s, fs)
  | Completion assistant_message =>
      let s := add_to_conversation "user" user_message s in
      let s := add_to_conversation "assistant" assistant_message s in
      let '(new_count, s) := increment_query_count s in
      let '(max_queries, s) :=
        get_max_queries_for_session cfg fs (env_uuid env) s in
      (Answer assistant_message new_count max_queries
              (max_queries - new_count), s, fs)
  end.

(** The part of [chat] below the quota check: validation, classification
    and the conversation. *)
Definition answer_call (cfg : Config) (fs : Files) (env : ChatEnv)
           (data : option ChatBody) (s : Session)
  : ChatResponse * Session * Files :=
  match data with
  | Some {| message := Some m |} =>
      let user_message := strip m in
      if negb (nonempty user_message) then
        (BadRequest "Empty message", s, fs)
      else
        let user_message := sanitize_input cfg user_message in
        if negb (nonempty user_message) then
          (BadRequest "Invalid message", s, fs)
        else if MAX_QUERY_LENGTH cfg <? Z.of_nat (String.length user_message)
        then (MessageTooLong (MAX_QUERY_LENGTH cfg), s, fs)
        else
          match env_classify env, env_refusal env with
          | ClassifyScope scope, Some refusal_message =>
              if String.eqb scope "OUT_OF_SCOPE" then
                let '(new_count, s) := increment_query_count s in
                let '(max_queries, s) :=
                  get_max_queries_for_session cfg fs (env_uuid env) s in
                (Filtered refusal_message new_count max_queries
                          (max_queries - new_count), s, fs)
              else converse cfg fs env user_message s
          | _, _ => converse cfg fs env user_message s
          end
  | _ => (BadRequest "No message provided", s, fs)
  end.

Definition chat (cfg : Config) (env : ChatEnv) (data : option ChatBody)
           (s : Session) (fs : Files) : ChatResponse * Session * Files :=
  let current_count := get_query_count s in
  let '(max_queries, s) :=
    get_max_queries_for_session cfg fs (env_uuid env) s in
  if max_queries <=? current_count then
    (* the session now holds its id: get_session_id() returns it *)
    let '(session_id, s) := get_session_id (env_uuid env) s in
    limit_reached fs env data session_id current_count max_queries s
  else
    answer_call cfg fs env data s.

(** *** The administrator calls *)

(** The JSON body of the approval and denial calls, with the types the
    interface documents. *)
Record AdminBody : Type := mkAdminBody {
  body_key : option string;
  body_request_id : option string;
  body_queries_granted : option Z
}.

Inductive AdminResponse : Type :=
| AdminError (http : Z) (error : string)
| AdminSuccess (msg : string) (session_id : string)
| AdminUnhandled.

(** [not ADMIN_RESET_KEY] *)
Definition key_configured (cfg : Config) : bool :=
  match ADMIN_RESET_KEY cfg with
  | Some k => nonempty k
  | None => false
  end.

(** [key != ADMIN_RESET_KEY], for a configured key. *)
Definition key_matches (cfg : Config) (key : string) : bool :=
  match ADMIN_RESET_KEY cfg with
  | Some k => String.eqb key k
  | None => false
  end.

(** [get_request_by_id(QUERY_LOG_PATH, data.get('request_id'))]: a body
    without [request_id] passes [None], which equals no stored id. *)
Definition lookup_request (fs : Files) (request_id : option string)
  : option ExtensionRequest :=
  match request_id with
  | Some rid => get_request_by_id (requests_file fs) rid
  | None => None
  end.

(** [now_ledger] is the clock read inside [approve_request], [now_grant]
    the one read for the approval entry. *)
Definition approve_extension (cfg : Config) (data : option AdminBody)
           (now_ledger now_grant : string) (fs : Files)
  : AdminResponse * Files :=
  if negb (key_configured cfg) then
    (AdminError 403 "Extension approval not configured", fs)
  else
    match data with
    | None => (AdminUnhandled, fs)
    | Some data =>
        let key := default "" (body_key data) in
        if negb (key_matches cfg key) then
          (AdminError 403 "Invalid key", fs)
        else
          let queries_granted := default 10 (body_queries_granted data) in
          match body_request_id data, lookup_request fs (body_request_id data) with
          | Some request_id, Some ext_request =>
              let ledger' :=
                approve_request (requests_file fs) request_id
                                queries_granted now_ledger in
              let approvals :=
                match approvals_file fs with
                | Some (Approvals m) => m
                | Some Unreadable => ∅
                | None => ∅
                end in
              let approvals :=
                <[ session_id ext_request :=
                     {| grant_queries_granted := queries_granted;
                        grant_approved_at := now_grant;
                        grant_request_id := request_id;
                        grant_email := email ext_request |} ]> approvals in
              (AdminSuccess
                 ("Extension approved: " +:+ pretty queries_granted +:+
                  " additional queries granted")
                 (session_id ext_request),
               mkFiles ledger' (Some (Approvals approvals)))
          | _, _ => (AdminError 404 "Request not found", fs)
          end
    end.

Definition deny_extension (cfg : Config) (data : option AdminBody)
           (now : string) (fs : Files) : AdminResponse * Files :=
  if negb (key_configured cfg) then
    (AdminError 403 "Extension denial not configured", fs)
  else
    match data with
    | None => (AdminUnhandled, fs)
    | Some data =>
        let key := default "" (body_key data) in
        if negb (key_matches cfg key) then
          (AdminError 403 "Invalid key", fs)
        else
          match body_request_id data, lookup_request fs (body_request_id data) with
          | Some request_id, Some ext_request =>
              (AdminSuccess "Extension request denied"
                            (session_id ext_request),
               mkFiles (deny_request (requests_file fs) request_id now)
                       (approvals_file fs))
          | _, _ => (AdminError 404 "Request not found", fs)
          end
    end.

End App.

(** * Notions used to state the properties *)

Module Notions.
Import Text Regex EmailDetector ExtensionManager App.

(** ** Matching *)

(** The least number of characters a match of [r] spans. *)
Fixpoint min_len (r : regex) : nat :=
  match r with
  | REps | RWordBoundary | ROpt _ => 0
  | RLit _ | RSet _ => 1
  | RSeq r1 r2 => min_len r1 + min_len r2
  | RAlt r1 r2 => Nat.min (min_len r1) (min_len r2)
  | RMany _ least => least
  end.

(** [k] was resumed on a text at least [n] characters shorter than [s]
    and produced [rest]. *)
Definition resumed (k : cont) (n : nat) (s rest : string) : Prop :=
  exists prev' s',
    k prev' s' = Some rest
    /\ (String.length s' + n <= String.length s)%nat.

(** ** The request ledger *)

Definition is_pending_for (sid : string) (r : ExtensionRequest) : bool :=
  String.eqb (session_id r) sid && String.eqb (status r) "pending".

(** Number of records of [sid] whose status is pending. *)
Definition pending_count (f : ledger) (sid : string) : nat :=
  length (List.filter (is_pending_for sid) (lines f)).

Definition at_most_one_pending (f : ledger) : Prop :=
  forall sid, (pending_count f sid <= 1)%nat.

(** [a] may stand before [b] in a newest-first listing. *)
Definition not_older (a b : ExtensionRequest) : Prop :=
  String.le (timestamp b) (timestamp a).

(** One call of [create_request] per item [(session_id, email, now, epoch)],
    in order; the records returned are collected. *)
Fixpoint create_all (f : ledger) (items : list (string * string * string * Z))
  : ledger * list ExtensionRequest :=
  match items with
  | [] => (f, [])
  | (sid, mail, now, epoch) :: items' =>
      let '(f1, request) := create_request f sid mail now epoch in
      let '(f2, requests) := create_all f1 items' in
      (f2, request :: requests)
  end.

(** The record that [create_request] is expected to write for an item. *)
Definition written_record (item : string * string * string * Z)
  : ExtensionRequest :=
  let '(sid, mail, now, epoch) := item in
  {| session_id := sid; email := mail; timestamp := now;
     status := "pending"; queries_granted := 0; approved_at := None;
     request_id := sid +:+ "_" +:+ pretty epoch |}.

(** ** The quota engine, in the words of the specification *)

Definition get_grant (fs : Files) (sid : string) : option ApprovalGrant :=
  match approvals_file fs with
  | Some (Approvals m) => m !! sid
  | _ => None
  end.

Definition effective_limit (cfg : Config) (fs : Files) (sid : string) : Z :=
  MAX_QUERIES_PER_SESSION cfg
  + match get_grant fs sid with
    | Some grant => grant_queries_granted grant
    | None => 0
    end.

(** The approvals that [approve_extension] starts from: the stored object,
    or the empty one when the file is missing or cannot be loaded. *)
Definition current_approvals (fs : Files) : gmap string ApprovalGrant :=
  match approvals_file fs with
  | Some (Approvals m) => m
  | _ => ∅
  end.

(** The key sent with an administrator call: [data.get('key', '')]. *)
Definition sent_key (d : AdminBody) : string := default "" (body_key d).

(** The grant of an approval call: [int(data.get('queries_granted', 10))]. *)
Definition sent_grant (d : AdminBody) : Z := default 10 (body_queries_granted d).

(** ** Reading a call of [chat] *)

(** The session id a call works with, and the limit it computes. *)
Definition session_of (env : ChatEnv) (s : Session) : string :=
  (get_session_id (env_uuid env) s).1.

Definition limit_of (cfg : Config) (env : ChatEnv) (s : Session) (fs : Files)
  : Z :=
  (get_max_queries_for_session cfg fs (env_uuid env) s).1.

Definition response_of (r : ChatResponse * Session * Files) : ChatResponse :=
  r.1.1.

Definition session_after (r : ChatResponse * Session * Files) : Session :=
  r.1.2.

Definition files_after (r : ChatResponse * Session * Files) : Files := r.2.

Definition is_limit_response (r : ChatResponse) : bool :=
  match r with
  | ExtensionRequested _ _ _ | LimitReached _ _ _ => true
  | _ => false
  end.

(** ** Sequential executions

    One step is one call of a handler that writes to the ledgers, made by
    any client with any session cookie and any body. *)
Inductive step (cfg : Config) : Files -> Files -> Prop :=
| step_chat env data s fs :
    step cfg fs (files_after (chat cfg env data s fs))
| step_approve data now_ledger now_grant fs :
    step cfg fs (approve_extension cfg data now_ledger now_grant fs).2
| step_deny data now fs :
    step cfg fs (deny_extension cfg data now fs).2.

(** The states a deployment goes through from an empty log directory. *)
Inductive reachable (cfg : Config) : Files -> Prop :=
| reachable_start : reachable cfg (mkFiles None None)
| reachable_step fs fs' :
    reachable cfg fs -> step cfg fs fs' -> reachable cfg fs'.

(** ** Proof steps shared by the lemmas on [answer_call] *)

(** Go through the validation of the body; every rejection is closed by
    [done], the goal left is the classification of the sanitized text. *)
Ltac validation_cases data :=
  unfold answer_call;
  destruct data as [[[?m|]]|]; [|done|done];
  destruct (nonempty (strip _)); [|done]; cbn [negb];
  match goal with
  | |- context [sanitize_input ?c ?t] => generalize (sanitize_input c t)
  end; intros ?msg;
  destruct (nonempty _); [|done]; cbn [negb];
  destruct (MAX_QUERY_LENGTH _ <? _); [done|].

(** Go through the classifier outcomes; [Hconv] settles the branches that
    end in the conversation, the goal left is the filtered branch. *)
Ltac classification_cases env Hconv :=
  destruct (env_classify env) as [|?scope]; [apply Hconv|];
  destruct (env_refusal env) as [?refusal|]; [|apply Hconv];
  destruct (String.eqb _ "OUT_OF_SCOPE"); [|apply Hconv].

End Notions.

(** * Concrete data for the examples *)

Module Samples.
Import Text ExtensionManager App Notions.

(** The default configuration, with an administrator secret. *)
Definition cfg : Config := mkConfig 20 500 (Some "s3cret").

(** The same configuration without a secret. *)
Definition cfg_no_key : Config := mkConfig 20 500 None.

Definition env : ChatEnv :=
  mkChatEnv "0f1e2d3c" "2026-01-05T10:00:00.250000" 1767607200
            (ClassifyScope "IN_SCOPE")
            (Some "I only discuss Eric's professional life.")
            (Completion "Eric has led infrastructure teams.").

(** The same environment with a classifier that filters the message. *)
Definition env_filtered : ChatEnv :=
  mkChatEnv "0f1e2d3c" "2026-01-05T10:00:00.250000" 1767607200
            (ClassifyScope "OUT_OF_SCOPE")
            (Some "I only discuss Eric's professional life.")
            (Completion "Eric has led infrastructure teams.").

(** A session that has used its twenty questions. *)
Definition session_at_limit : Session :=
  mkSession (Some 20) None (Some "abc12345") None None.

(** A session that has asked three questions. *)
Definition session_fresh : Session :=
  mkSession (Some 3) None (Some "abc12345") None None.

(** An empty log directory. *)
Definition no_files : Files := mkFiles None None.

Definition body (m : string) : option ChatBody := Some (mkChatBody (Some m)).

Definition admin_body (rid : string) (granted : option Z) : option AdminBody :=
  Some (mkAdminBody (Some "s3cret") (Some rid) granted).

(** The ledger after the session at its limit sent its address. *)
Definition files_requested : Files :=
  files_after (chat cfg env (body "contact me at a@b.com")
                    session_at_limit no_files).

Definition session_requested : Session :=
  session_after (chat cfg env (body "contact me at a@b.com")
                      session_at_limit no_files).

(** ... and after the administrator denied that request. *)
Definition files_denied : Files :=
  (deny_extension cfg (admin_body "abc12345_1767607200" None)
                  "2026-01-05T11:00:00.000000" files_requested).2.

End Samples.

(** * The remaining routes of app.py *)

Module Routes.
Import Text ExtensionManager App.

Inductive ResetResponse : Type :=
| ResetError (http : Z) (error : string)
| ResetSuccess (previous_query_count : Z).

(** [reset]. [key] is the query parameter, [None] when it is missing;
    [session.clear()] leaves a session without entries. *)
Definition reset (cfg : Config) (key : option string) (s : Session)
  : ResetResponse * Session :=
  if negb (key_configured cfg) then
    (ResetError 403 "Reset endpoint not configured", s)
  else
    let key := default "" key in
    if negb (key_matches cfg key) then (ResetError 403 "Invalid key", s)
    else
      let old_count := get_query_count s in
      (ResetSuccess old_count, empty_session).

(** The JSON of [status], without the constant version text. *)
Record StatusResponse : Type := mkStatusResponse {
  status_query_count : Z;
  status_max_queries : Z;
  status_queries_remaining : Z
}.

Definition status (cfg : Config) (fs : Files) (uuid : string) (s : Session)
  : StatusResponse * Session :=
  let '(max_queries, s) := get_max_queries_for_session cfg fs uuid s in
  let query_count := get_query_count s in
  (mkStatusResponse query_count max_queries (max_queries - query_count), s).

(** What [extension_requests] hands to its template. *)
Inductive ListingResponse : Type :=
| ListingError (http : Z) (error : string)
| ListingPage (requests : list ExtensionRequest) (key : string)
              (status_filter : string).

(** [extension_requests]. [key] and [status_arg] are the query parameters,
    [None] when missing. *)
Definition extension_requests (cfg : Config) (fs : Files)
           (key status_arg : option string) : ListingResponse :=
  if negb (key_configured cfg) then
    ListingError 403 "Extension requests endpoint not configured"
  else
    let key := default "" key in
    if negb (key_matches cfg key) then ListingError 403 "Invalid key"
    else
      let status_filter := default "pending" status_arg in
      let requests :=
        if String.eqb status_filter "pending"
        then get_pending_requests (requests_file fs)
        else get_all_requests (requests_file fs) status_filter in
      ListingPage requests key status_filter.

End Routes.

(** * What a pattern matches *)

Module MatchSemantics.
Import Text Regex.

(** The character just before the text that follows [s], [prev] being the
    one just before [s]. *)
Fixpoint last_char (prev : option ascii) (s : string) : option ascii :=
  match s with
  | EmptyString => prev
  | String c s' => last_char (Some c) s'
  end.

Fixpoint all_chars (p : ascii -> bool) (s : string) : bool :=
  match s with
  | EmptyString => true
  | String c s' => p c && all_chars p s'
  end.

Fixpoint occurs (c : ascii) (s : string) : bool :=
  match s with
  | EmptyString => false
  | String x s' => Ascii.eqb x c || occurs c s'
  end.

(** [matches ci r prev pre post]: the pattern [r] spans exactly the text
    [pre] when [prev] is the character before it and [post] the text after
    it. Which of several possible spans the matcher takes is not said
    here. *)
Inductive matches (ci : bool)
  : regex -> option ascii -> string -> string -> Prop :=
| matches_eps prev post :
    matches ci REps prev "" post
| matches_lit c x prev post :
    lit_eq ci c x = true ->
    matches ci (RLit c) prev (String x "") post
| matches_set p x prev post :
    p x = true ->
    matches ci (RSet p) prev (String x "") post
| matches_boundary prev post :
    xorb (word_before prev) (word_after post) = true ->
    matches ci RWordBoundary prev "" post
| matches_seq r1 r2 prev pre1 pre2 post :
    matches ci r1 prev pre1 (pre2 +:+ post) ->
    matches ci r2 (last_char prev pre1) pre2 post ->
    matches ci (RSeq r1 r2) prev (pre1 +:+ pre2) post
| matches_alt_left r1 r2 prev pre post :
    matches ci r1 prev pre post ->
    matches ci (RAlt r1 r2) prev pre post
| matches_alt_right r1 r2 prev pre post :
    matches ci r2 prev pre post ->
    matches ci (RAlt r1 r2) prev pre post
| matches_opt_present r prev pre post :
    matches ci r prev pre post ->
    matches ci (ROpt r) prev pre post
| matches_opt_absent r prev post :
    matches ci (ROpt r) prev "" post
| matches_many p least prev pre post :
    all_chars p pre = true ->
    (least <= String.length pre)%nat ->
    matches ci (RMany p least) prev pre post.

(** A word boundary between the character [left] and the text [right]. *)
Definition word_boundary (left : option ascii) (right : string) : bool :=
  xorb (word_before left) (word_after right).

(** The text [e] stands in [text] between [before] and [after]. *)
Definition stands_in (text before e after : string) : Prop :=
  text = before +:+ e +:+ after.

(** Proof step: take a derivation for a concatenation of simple patterns
    apart. *)
Ltac invert_matches :=
  repeat match goal with
  | H : matches _ (RSeq _ _) _ _ _ |- _ => inversion H; subst; clear H
  | H : matches _ RWordBoundary _ _ _ |- _ => inversion H; subst; clear H
  | H : matches _ (RLit _) _ _ _ |- _ => inversion H; subst; clear H
  | H : matches _ (RMany _ _) _ _ _ |- _ => inversion H; subst; clear H
  | H : matches _ REps _ _ _ |- _ => inversion H; subst; clear H
  end.

(** The shape of an address: a local part, an at sign, a domain, a dot and
    a top-level part of two or more characters, each over its class. *)
Definition address_shape (e : string) : Prop :=
  exists local domain tld,
    e = local +:+ "@" +:+ domain +:+ "." +:+ tld
    /\ all_chars EmailDetector.local_char local = true
    /\ (1 <= String.length local)%nat
    /\ all_chars EmailDetector.domain_char domain = true
    /\ (1 <= String.length domain)%nat
    /\ all_chars EmailDetector.tld_char tld = true
    /\ (2 <= String.length tld)%nat.

End MatchSemantics.

(** * Notions about cleaned text *)

Module TextNotions.
Import Text.

(** The text does not begin with whitespace. *)
Definition starts_clean (s : string) : Prop :=
  match s with
  | String c _ => py_isspace c = false
  | EmptyString => True
  end.

(** The text does not end with whitespace. *)
Definition ends_clean (s : string) : Prop :=
  match MatchSemantics.last_char None s with
  | Some c => py_isspace c = false
  | None => True
  end.

(** The characters of a text, in order. *)
Definition chars (s : string) : list ascii := list_ascii_of_string s.

(** [s.isascii()]: every character of the text is below 128. *)
Definition isascii (s : string) : bool :=
  MatchSemantics.all_chars (fun c => (code c <? 128)%N) s.

End TextNotions.

(** * Notions about sessions and histories *)

Module MoreNotions.
Import Text ExtensionManager App Notions.

(** The same environment with a classifier that lets the message pass. *)
Definition passing (env : ChatEnv) : ChatEnv :=
  mkChatEnv (env_uuid env) (env_now env) (env_epoch env)
            (ClassifyScope "IN_SCOPE") (env_refusal env) (env_llm env).

(** The classifier did not filter the message: it raised, it returned a
    scope other than OUT_OF_SCOPE, or the refusal could not be produced. *)
Definition not_filtered (env : ChatEnv) : Prop :=
  env_classify env = ClassifyRaises
  \/ env_refusal env = None
  \/ exists scope,
       env_classify env = ClassifyScope scope /\ scope <> "OUT_OF_SCOPE".

(** The body carries a message that survives stripping and sanitizing. *)
Definition usable_message (cfg : Config) (data : option ChatBody)
           (text : string) : Prop :=
  exists m,
    data = Some (mkChatBody (Some m))
    /\ nonempty (strip m) = true
    /\ text = sanitize_input cfg (strip m)
    /\ nonempty text = true.

(** What identifies a request for good: the fields no operation rewrites. *)
Definition identity (r : ExtensionRequest)
  : string * string * string * string :=
  (session_id r, email r, timestamp r, request_id r).

(** The states of a record that the operations produce. *)
Definition well_formed (r : ExtensionRequest) : Prop :=
  (status r = "pending" /\ approved_at r = None /\ queries_granted r = 0)
  \/ ((status r = "approved" \/ status r = "denied")
      /\ approved_at r <> None).

(** The approval entry [grant] of session [sid] is backed by the ledger:
    the record found under the entry's request id belongs to that session,
    carries the entry's address, and is no longer pending. *)
Definition backed_by (f : ledger) (sid : string) (grant : ApprovalGrant)
  : Prop :=
  exists r,
    get_request_by_id f (grant_request_id grant) = Some r
    /\ session_id r = sid
    /\ email r = grant_email grant
    /\ status r <> "pending".

Definition approvals_backed (fs : Files) : Prop :=
  match approvals_file fs with
  | None => True
  | Some Unreadable => False
  | Some (Approvals m) =>
      forall sid grant, m !! sid = Some grant ->
                        backed_by (requests_file fs) sid grant
  end.

(** The record at position [i] stands behind an earlier record with the
    same request id. *)
Definition shadowed (l : list ExtensionRequest) (i : nat) : Prop :=
  exists j r0 r,
    (j < i)%nat /\ l !! j = Some r0 /\ l !! i = Some r
    /\ request_id r0 = request_id r.

(** The request id is the session id, an underscore and a number. *)
Definition derived_id (r : ExtensionRequest) : Prop :=
  exists epoch : Z, request_id r = session_id r +:+ "_" +:+ pretty epoch.

(** The ledger after [approve_request] or [deny_request] found its file. *)
Definition has_id (rid : string) (r : ExtensionRequest) : bool :=
  String.eqb (request_id r) rid.

End MoreNotions.

(** * More concrete data *)

Module MoreSamples.
Import Text ExtensionManager App Notions.

(** The session whose request was denied sends its address again within
    the same second: the new request gets the id of the denied one. *)
Definition files_collision : Files :=
  files_after (chat Samples.cfg Samples.env
                    (Samples.body "please: a@b.com")
                    Samples.session_requested Samples.files_denied).

(** ... and the administrator then approves that id. *)
Definition files_collision_approved : Files :=
  (approve_extension
     Samples.cfg (Samples.admin_body "abc12345_1767607200" (Some 5))
     "2026-01-05T12:00:00.000000" "2026-01-05T12:00:00.000050"
     files_collision).2.

End MoreSamples.

(** * The request body of the chat call

  [chat] reads its body with [request.get_json()] and then treats the
  value as a dictionary with a textual [message]. This module models the
  value that arrives and the three ways in which reading it ends the call
  early. *)

Module Request.
Import Text Regex EmailDetector ExtensionManager App Notions.

(** A value as Python's [json] module builds it: [None], [bool], [int],
    [float], [str], [list] or [dict]. *)
#[warnings="-register-all"]
Inductive Json : Type :=
| JNull
| JBool (b : bool)
| JInt (n : Z)
| JFloat (x : spec_float)
| JStr (s : string)
| JList (l : list Json)
| JDict (d : gmap string Json).

(** [request.get_json()]: Flask either aborts the call with an HTTP error
    of its own (415 when the request does not announce JSON, 400 when the
    body does not parse) or returns the parsed value. *)
Inductive GetJson : Type :=
| Aborts (code : Z)
| Returns (data : Json).

(** The exceptions that reading the body can raise. *)
Inductive PyError : Type :=
| TypeError
| AttributeError.

Inductive Result (A : Type) : Type :=
| Ok (a : A)
| Raise (e : PyError).

Arguments Ok {A} a.
Arguments Raise {A} e.

(** The first exception raised ends the computation. *)
#[global] Instance Result_bind : MBind Result :=
  fun A B f r =>
    match r with
    | Ok a => f a
    | Raise e => Raise e
    end.

(** [needle in s] for two strings. *)
Fixpoint str_contains (needle s : string) : bool :=
  String.prefix needle s
  || match s with
     | String _ s' => str_contains needle s'
     | EmptyString => false
     end.

(** The truth value of a JSON value: [None], [False], zero, and the empty
    string, list and dictionary count as false. *)
Definition py_bool (v : Json) : bool :=
  match v with
  | JNull => false
  | JBool b => b
  | JInt n => negb (n =? 0)
  | JFloat x => match x with S754_zero _ => false | _ => true end
  | JStr s => nonempty s
  | JList l => match l with [] => false | _ :: _ => true end
  | JDict d => negb (Nat.eqb (size d) 0)
  end.

(** ['message' in v]: a key of a dictionary, an item of a list, a piece of
    a string; a [TypeError] on a value that is no container. *)
Definition contains_message (v : Json) : Result bool :=
  match v with
  | JDict d => Ok (match d !! "message" with Some _ => true | None => false end)
  | JList l =>
      Ok (existsb (fun item => match item with
                               | JStr s => String.eqb s "message"
                               | _ => false
                               end) l)
  | JStr s => Ok (str_contains "message" s)
  | JNull | JBool _ | JInt _ | JFloat _ => Raise TypeError
  end.

(** [v.get('message', '')]: only a dictionary has [get]. *)
Definition get_message (v : Json) : Result Json :=
  match v with
  | JDict d => Ok (default (JStr "") (d !! "message"))
  | _ => Raise AttributeError
  end.

(** The receiver of [.strip()]: only a string has [strip]. *)
Definition as_text (v : Json) : Result string :=
  match v with
  | JStr s => Ok s
  | _ => Raise AttributeError
  end.

(** What both branches of [chat] do with the value of [get_json()] before
    anything else: [data and 'message' in data], then
    [data.get('message', '')] and the call of [.strip()] on it. The result
    is the body as the rest of the handler uses it: [None] for a value
    that counts as false, no message when ['message' in data] is false,
    otherwise the text of the message. *)
Definition read_body (data : Json) : Result (option ChatBody) :=
  if negb (py_bool data) then Ok None
  else
    present ← contains_message data;
    if negb present then Ok (Some (mkChatBody None))
    else
      v ← get_message data;
      m ← as_text v;
      Ok (Some (mkChatBody (Some m))).

(** How the call ends: Flask answers an aborted call with the error's own
    status, and a call in which an exception escapes the handler with
    status 500. *)
Inductive RouteResponse : Type :=
| Aborted (code : Z)
| Unhandled (e : PyError)
| Returned (r : ChatResponse).

Definition route_status (r : RouteResponse) : Z :=
  match r with
  | Aborted code => code
  | Unhandled _ => 500
  | Returned r => http_status r
  end.

Definition returned (r : ChatResponse * Session * Files)
  : RouteResponse * Session * Files :=
  let '(resp, s, fs) := r in (Returned resp, s, fs).

(** [chat], from the outcome of [request.get_json()]. Each branch of the
    quota check reads the body first; the session returned with an aborted
    or failed call is the session object as the handler left it. *)
Definition chat_request (cfg : Config) (env : ChatEnv) (body : GetJson)
           (s : Session) (fs : Files) : RouteResponse * Session * Files :=
  let current_count := get_query_count s in
  let '(max_queries, s) :=
    get_max_queries_for_session cfg fs (env_uuid env) s in
  if max_queries <=? current_count then
    match body with
    | Aborts code => (Aborted code, s, fs)
    | Returns data =>
        match read_body data with
        | Raise e => (Unhandled e, s, fs)
        | Ok data =>
            let '(session_id, s) := get_session_id (env_uuid env) s in
            returned (limit_reached fs env data session_id
                                    current_count max_queries s)
        end
    end
  else
    match body with
    | Aborts code => (Aborted code, s, fs)
    | Returns data =>
        match read_body data with
        | Raise e => (Unhandled e, s, fs)
        | Ok data => returned (answer_call cfg fs env data s)
        end
    end.

Definition route_response (r : RouteResponse * Session * Files)
  : RouteResponse := r.1.1.

Definition route_session (r : RouteResponse * Session * Files) : Session :=
  r.1.2.

Definition route_files (r : RouteResponse * Session * Files) : Files := r.2.

(** The object [{"message": v}]. *)
Definition message_object (v : Json) : Json :=
  JDict (<["message" := v]> ∅).

(** The three bodies of a call without a question: [get_json()] gives
    [None], an object without a [message] entry, or an object whose
    message is blank. *)
Inductive no_question : Json -> Prop :=
| no_question_null : no_question JNull
| no_question_no_entry d :
    d !! "message" = None -> no_question (JDict d)
| no_question_blank d m :
    d !! "message" = Some (JStr m) -> strip m = "" -> no_question (JDict d).

End Request.

(** * Concrete requests *)

Module RequestSamples.
Import App Request.

(** The session at its limit sends its address. *)
Definition first_call : RouteResponse * Session * Files :=
  chat_request Samples.cfg Samples.env
               (Returns (message_object (JStr "contact me at a@b.com")))
               Samples.session_at_limit Samples.no_files.

End RequestSamples.

(** * Properties *)

(** ** Lengths of processed text *)

Module TextFacts.
Import Text Regex Notions.

Lemma length_take_le n s : (String.length (take n s) <= n)%nat.
Proof.
  unfold take. revert s.
  induction n as [|n IH]; intros [|c s]; simpl; try lia.
  specialize (IH s). lia.
Qed.

Lemma length_take_le_length n s :
  (String.length (take n s) <= String.length s)%nat.
Proof.
  unfold take. revert s.
  induction n as [|n IH]; intros [|c s]; simpl; try lia.
  specialize (IH s). lia.
Qed.

Lemma take_nonempty n c s : nonempty (take (S n) (String c s)) = true.
Proof. reflexivity. Qed.

Lemma length_rev_app s1 s2 :
  String.length (String.rev_app s1 s2)
  = (String.length s1 + String.length s2)%nat.
Proof.
  revert s2. induction s1 as [|c s1 IH]; intros s2; simpl; [done|].
  rewrite IH. simpl. lia.
Qed.

Lemma length_rev s : String.length (String.rev s) = String.length s.
Proof. unfold String.rev. rewrite length_rev_app. simpl. lia. Qed.

Lemma length_lstrip s : (String.length (lstrip s) <= String.length s)%nat.
Proof.
  induction s as [|c s IH]; simpl; [lia|].
  destruct (py_isspace c); simpl; lia.
Qed.

Lemma length_strip s : (String.length (strip s) <= String.length s)%nat.
Proof.
  unfold strip, rstrip. rewrite length_rev.
  etransitivity; [apply length_lstrip|].
  rewrite length_rev. apply length_lstrip.
Qed.

Lemma length_py_slice_to n s :
  0 <= n -> Z.of_nat (String.length (py_slice_to n s)) <= n.
Proof.
  intros Hn. unfold py_slice_to.
  destruct (Z.leb_spec 0 n); [|lia].
  pose proof (length_take_le (Z.to_nat n) s). lia.
Qed.

(** Deleting matches never makes a text longer. *)
Lemma length_sub_go ci r s : forall prev skip,
  (String.length (sub_go ci r prev s skip) <= String.length s)%nat.
Proof.
  induction s as [|c s IH]; intros prev skip; simpl; [lia|].
  destruct skip as [|n].
  - destruct (match_here ci r prev (String c s)) as [[|n]|]; simpl;
      first [ specialize (IH (Some c) 0%nat); lia
            | specialize (IH (Some c) n); lia ].
  - specialize (IH (Some c) n). lia.
Qed.

Lemma length_re_sub_empty ci r s :
  (String.length (re_sub_empty ci r s) <= String.length s)%nat.
Proof. apply length_sub_go. Qed.

Lemma length_remove_all ci rs : forall s,
  (String.length
     (fold_left (fun s pattern => re_sub_empty ci pattern s) rs s)
   <= String.length s)%nat.
Proof.
  induction rs as [|r rs IH]; intros s; simpl; [lia|].
  etransitivity; [apply IH|]. apply length_re_sub_empty.
Qed.


Lemma many_resumed p k rest : forall s least prev,
  many p least k prev s = Some rest -> resumed k least s rest.
Proof.
  induction s as [|x s IH]; intros least prev; simpl.
  - destruct least; [|discriminate].
    intros Hk. exists prev, EmptyString. split; [done|simpl; lia].
  - assert (Hstop :
      match least with O => k prev (String x s) | S _ => None end = Some rest
      -> resumed k least (String x s) rest).
    { destruct least; [|discriminate].
      intros Hk. exists prev, (String x s). split; [done|lia]. }
    destruct (p x); [|exact Hstop].
    destruct (many p (Nat.pred least) k (Some x) s) as [rest'|] eqn:Hm;
      [|exact Hstop].
    intros [= ->]. apply IH in Hm as (prev' & s' & Hk & Hlen).
    exists prev', s'. split; [done|]. simpl. lia.
Qed.

Lemma rx_match_resumed ci r : forall prev s k rest,
  rx_match ci r prev s k = Some rest -> resumed k (min_len r) s rest.
Proof.
  induction r as [|c|p| |r1 IH1 r2 IH2|r1 IH1 r2 IH2|r1 IH1|p least];
    intros prev s k rest; simpl.
  - intros Hk. exists prev, s. split; [done|lia].
  - destruct s as [|x s]; [discriminate|].
    destruct (lit_eq ci c x); [|discriminate].
    intros Hk. exists (Some x), s. split; [done|simpl; lia].
  - destruct s as [|x s]; [discriminate|].
    destruct (p x); [|discriminate].
    intros Hk. exists (Some x), s. split; [done|simpl; lia].
  - destruct (xorb _ _); [|discriminate].
    intros Hk. exists prev, s. split; [done|lia].
  - intros H1. apply IH1 in H1 as (prev1 & s1 & H2 & Hlen1).
    apply IH2 in H2 as (prev2 & s2 & Hk & Hlen2).
    exists prev2, s2. split; [done|lia].
  - destruct (rx_match ci r1 prev s k) as [rest'|] eqn:H1.
    + intros [= ->]. apply IH1 in H1 as (prev1 & s1 & Hk & Hlen).
      exists prev1, s1. split; [done|lia].
    + intros H2. apply IH2 in H2 as (prev2 & s2 & Hk & Hlen).
      exists prev2, s2. split; [done|lia].
  - destruct (rx_match ci r1 prev s k) as [rest'|] eqn:H1.
    + intros [= ->]. apply IH1 in H1 as (prev1 & s1 & Hk & Hlen).
      exists prev1, s1. split; [done|lia].
    + intros Hk. exists prev, s. split; [done|lia].
  - apply many_resumed.
Qed.

Lemma match_here_min ci r prev s n :
  match_here ci r prev s = Some n ->
  (min_len r <= n /\ n <= String.length s)%nat.
Proof.
  unfold match_here.
  destruct (rx_match ci r prev s _) as [rest|] eqn:Hm; [|discriminate].
  intros [= <-].
  apply rx_match_resumed in Hm as (prev' & s' & [= ->] & Hlen). lia.
Qed.

Lemma first_match_nonempty ci r : forall s prev e,
  (1 <= min_len r)%nat ->
  first_match ci r prev s = Some e -> nonempty e = true.
Proof.
  induction s as [|c s IH]; intros prev e Hmin; simpl.
  - destruct (match_here ci r prev EmptyString) as [n|] eqn:Hm;
      [|discriminate].
    apply match_here_min in Hm. simpl in Hm. lia.
  - destruct (match_here ci r prev (String c s)) as [n|] eqn:Hm.
    + apply match_here_min in Hm. intros [= <-].
      destruct n as [|n]; [lia|]. apply take_nonempty.
    + apply IH. exact Hmin.
Qed.

Lemma extract_email_nonempty text e :
  EmailDetector.extract_email text = Some e -> nonempty e = true.
Proof.
  apply first_match_nonempty. simpl. lia.
Qed.

End TextFacts.

(** ** The request ledger *)

Module LedgerFacts.
Import ExtensionManager Notions.


Lemma has_pending_request_true f sid :
  has_pending_request f sid = true <->
  exists r, In r (lines f) /\ session_id r = sid /\ status r = "pending".
Proof.
  destruct f as [l|]; simpl.
  - rewrite existsb_exists. split.
    + intros (r & Hin & Hr). apply andb_true_iff in Hr as [H1 H2].
      apply String.eqb_eq in H1, H2. eauto.
    + intros (r & Hin & H1 & H2). exists r. split; [done|].
      apply andb_true_iff. by rewrite !String.eqb_eq.
  - split; [discriminate|]. intros (r & [] & _).
Qed.

Lemma has_pending_request_false f sid :
  has_pending_request f sid = false <->
  forall r, In r (lines f) -> session_id r = sid -> status r <> "pending".
Proof.
  rewrite <- not_true_iff_false, has_pending_request_true. split.
  - intros Hno r Hin Hsid Hst. apply Hno. eauto.
  - intros Hall (r & Hin & Hsid & Hst). by apply (Hall r).
Qed.

Lemma has_pending_request_count f sid :
  has_pending_request f sid = false <-> pending_count f sid = 0%nat.
Proof.
  unfold pending_count, has_pending_request.
  destruct f as [l|]; simpl; [|done].
  induction l as [|r l IH]; simpl; [done|].
  fold (is_pending_for sid r).
  destruct (is_pending_for sid r); simpl; [split; discriminate|exact IH].
Qed.

Lemma pending_count_app l1 l2 sid :
  pending_count (Some (l1 ++ l2)%list) sid
  = (pending_count (Some l1) sid + pending_count (Some l2) sid)%nat.
Proof.
  unfold pending_count. simpl.
  by rewrite List.filter_app, List.length_app.
Qed.

Lemma pending_count_lines f sid :
  pending_count (Some (lines f)) sid = pending_count f sid.
Proof. by destruct f. Qed.

(** *** The first record with a given id *)

Lemma find_first (test : ExtensionRequest -> bool) l r :
  List.find test l = Some r ->
  exists l1 l2,
    l = (l1 ++ r :: l2)%list /\ test r = true
    /\ Forall (fun x => test x = false) l1.
Proof.
  induction l as [|x l IH]; simpl; [discriminate|].
  destruct (test x) eqn:Hx.
  - intros [= ->]. exists [], l. by repeat split.
  - intros Hf. apply IH in Hf as (l1 & l2 & -> & Hr & Hl1).
    exists (x :: l1), l2. repeat split; [done|]. by constructor.
Qed.

Lemma update_first_split test upd l1 r l2 :
  Forall (fun x => test x = false) l1 -> test r = true ->
  update_first test upd (l1 ++ r :: l2) = (l1 ++ upd r :: l2)%list.
Proof.
  intros Hl1 Hr. induction Hl1 as [|x l1 Hx _ IH]; simpl.
  - by rewrite Hr.
  - by rewrite Hx, IH.
Qed.

Lemma find_split (test : ExtensionRequest -> bool) l1 r l2 :
  Forall (fun x => test x = false) l1 -> test r = true ->
  List.find test (l1 ++ r :: l2)%list = Some r.
Proof.
  intros Hl1 Hr. induction Hl1 as [|x l1 Hx _ IH]; simpl.
  - by rewrite Hr.
  - by rewrite Hx, IH.
Qed.

(** An update that takes a record out of the pending state never adds a
    pending record to any session. *)
Lemma pending_count_update_first test upd l sid :
  (forall r, is_pending_for sid (upd r) = false) ->
  (pending_count (Some (update_first test upd l)) sid
   <= pending_count (Some l) sid)%nat.
Proof.
  intros Hupd. unfold pending_count. simpl.
  induction l as [|x l IH]; simpl; [lia|].
  destruct (test x); simpl.
  - rewrite Hupd. destruct (is_pending_for sid x); simpl; lia.
  - destruct (is_pending_for sid x); simpl; lia.
Qed.

Lemma mark_approved_not_pending sid g now r :
  is_pending_for sid (mark_approved g now r) = false.
Proof. unfold is_pending_for. simpl. apply andb_false_r. Qed.

Lemma mark_denied_not_pending sid now r :
  is_pending_for sid (mark_denied now r) = false.
Proof. unfold is_pending_for. simpl. apply andb_false_r. Qed.

(** *** Listing: newest first *)


Lemma ltb_false_le s1 s2 : String.ltb s1 s2 = false -> String.le s2 s1.
Proof.
  unfold String.ltb, String.le, String.leb. intros H.
  rewrite String.compare_antisym.
  destruct (String.compare s1 s2); simpl; done.
Qed.

Lemma ltb_true_le s1 s2 : String.ltb s1 s2 = true -> String.le s1 s2.
Proof.
  unfold String.ltb, String.le, String.leb.
  destruct (String.compare s1 s2); done.
Qed.

Lemma insert_newest_perm x l : insert_newest x l ≡ₚ x :: l.
Proof.
  induction l as [|y l IH]; simpl; [done|].
  destruct (String.ltb _ _); [|done].
  rewrite IH. apply perm_swap.
Qed.

Lemma sort_newest_first_perm l : sort_newest_first l ≡ₚ l.
Proof.
  induction l as [|x l IH]; simpl; [done|].
  by rewrite insert_newest_perm, IH.
Qed.

Lemma insert_newest_hd x l a :
  not_older a x -> HdRel not_older a l ->
  HdRel not_older a (insert_newest x l).
Proof.
  intros Hax Hal. destruct l as [|y l]; simpl; [by constructor|].
  destruct (String.ltb _ _); constructor; [|done].
  by inversion Hal.
Qed.

Lemma insert_newest_sorted x l :
  Sorted not_older l -> Sorted not_older (insert_newest x l).
Proof.
  induction 1 as [|y l Hl IH Hhd]; simpl; [by repeat constructor|].
  destruct (String.ltb (timestamp x) (timestamp y)) eqn:Hlt.
  - constructor; [done|].
    apply insert_newest_hd; [|done]. by apply ltb_true_le.
  - constructor; [by constructor|]. constructor. by apply ltb_false_le.
Qed.

Lemma sort_newest_first_sorted l : Sorted not_older (sort_newest_first l).
Proof.
  induction l as [|x l IH]; simpl; [constructor|].
  by apply insert_newest_sorted.
Qed.

Lemma not_older_trans : Transitive not_older.
Proof.
  intros a b c Hab Hbc. unfold not_older in *. by etransitivity.
Qed.

(** Every record of the listing is at least as recent as every record
    after it. *)
Lemma sort_newest_first_strongly_sorted l :
  StronglySorted not_older (sort_newest_first l).
Proof.
  apply Sorted_StronglySorted; [apply not_older_trans|].
  apply sort_newest_first_sorted.
Qed.

(** Records with the same timestamp keep their file order. *)
Lemma insert_newest_filter ts x l :
  List.filter (fun r => String.eqb (timestamp r) ts) (insert_newest x l)
  = List.filter (fun r => String.eqb (timestamp r) ts) (x :: l).
Proof.
  induction l as [|y l IH]; [done|].
  cbn [insert_newest].
  destruct (String.ltb (timestamp x) (timestamp y)) eqn:Hlt; [|done].
  cbn [List.filter] in *. rewrite IH.
  destruct (String.eqb (timestamp x) ts) eqn:Hx; [|done].
  destruct (String.eqb (timestamp y) ts) eqn:Hy; [|done].
  apply String.eqb_eq in Hx, Hy. subst ts. rewrite <- Hy in Hlt.
  unfold String.ltb in Hlt.
  pose proof (String.compare_antisym (timestamp y) (timestamp y)) as Ha.
  destruct (String.compare (timestamp y) (timestamp y)); discriminate.
Qed.

Lemma sort_newest_first_stable ts l :
  List.filter (fun r => String.eqb (timestamp r) ts) (sort_newest_first l)
  = List.filter (fun r => String.eqb (timestamp r) ts) l.
Proof.
  induction l as [|x l IH]; [done|].
  cbn [sort_newest_first fold_right].
  fold (sort_newest_first l).
  rewrite insert_newest_filter. cbn [List.filter]. by rewrite IH.
Qed.

End LedgerFacts.

(** ** The session and the quota gate *)

Module QuotaFacts.
Import Text Regex EmailDetector ExtensionManager App Notions.
Import TextFacts LedgerFacts.

Lemma get_session_id_again uuid uuid' s :
  get_session_id uuid' (get_session_id uuid s).2
  = ((get_session_id uuid s).1, (get_session_id uuid s).2).
Proof.
  unfold get_session_id.
  destruct (sess_session_id s) eqn:E; simpl; [by rewrite E|done].
Qed.

Lemma get_session_id_known uuid s sid :
  sess_session_id s = Some sid -> get_session_id uuid s = (sid, s).
Proof. unfold get_session_id. by intros ->. Qed.

Lemma get_query_count_session_id uuid s :
  get_query_count (get_session_id uuid s).2 = get_query_count s.
Proof. unfold get_session_id. by destruct (sess_session_id s). Qed.

Lemma extension_flag_session_id uuid s :
  sess_extension_requested (get_session_id uuid s).2
  = sess_extension_requested s.
Proof. unfold get_session_id. by destruct (sess_session_id s). Qed.

Lemma limit_of_eq cfg env s fs :
  limit_of cfg env s fs = max_queries_for cfg fs (session_of env s).
Proof.
  unfold limit_of, get_max_queries_for_session, session_of.
  by destruct (get_session_id _ _).
Qed.

Lemma max_queries_for_spec cfg fs sid :
  max_queries_for cfg fs sid = effective_limit cfg fs sid.
Proof.
  unfold max_queries_for, effective_limit, get_grant.
  destruct (approvals_file fs) as [[|m]|]; simpl; try lia.
  destruct (m !! sid); lia.
Qed.

Lemma max_queries_session_known cfg fs uuid s sid :
  sess_session_id s = Some sid ->
  (get_max_queries_for_session cfg fs uuid s).1 = max_queries_for cfg fs sid.
Proof.
  intros Hs. unfold get_max_queries_for_session.
  by rewrite (get_session_id_known _ _ _ Hs).
Qed.

(** At the limit the call is exactly the limit branch. *)
Lemma chat_at_limit cfg env data s fs :
  limit_of cfg env s fs <= get_query_count s ->
  chat cfg env data s fs
  = limit_reached fs env data (session_of env s) (get_query_count s)
                  (limit_of cfg env s fs)
                  (get_session_id (env_uuid env) s).2.
Proof.
  unfold limit_of, session_of, chat, get_max_queries_for_session.
  pose proof (get_session_id_again (env_uuid env) (env_uuid env) s) as Hagain.
  destruct (get_session_id (env_uuid env) s) as [sid s1]. simpl in *.
  intros Hle. apply Z.leb_le in Hle. rewrite Hle. by rewrite Hagain.
Qed.

Lemma limit_reached_is_limit fs env data sid count limit s :
  is_limit_response
    (response_of (limit_reached fs env data sid count limit s)) = true.
Proof.
  unfold limit_reached, response_of.
  destruct (extension_email fs sid data); [|done].
  by destruct (create_request _ _ _ _ _).
Qed.

(** Below the limit the call is exactly the rest of the handler. *)
Lemma chat_under_limit cfg env data s fs :
  get_query_count s < limit_of cfg env s fs ->
  chat cfg env data s fs
  = answer_call cfg fs env data (get_session_id (env_uuid env) s).2.
Proof.
  unfold limit_of, chat, get_max_queries_for_session.
  destruct (get_session_id (env_uuid env) s) as [sid s1]. simpl.
  intros Hgt. apply Z.leb_gt in Hgt. by rewrite Hgt.
Qed.

Lemma increment_then_limit cfg fs uuid s :
  get_query_count
    (get_max_queries_for_session cfg fs uuid (increment_query_count s).2).2
  = get_query_count s + 1.
Proof.
  unfold get_max_queries_for_session, increment_query_count.
  pose proof (get_query_count_session_id uuid
                (set_query_count (get_query_count s + 1) s)) as Hq.
  destruct (get_session_id _ _) as [sid' s']. simpl in *. by rewrite Hq.
Qed.

Lemma add_to_conversation_count role content s :
  get_query_count (add_to_conversation role content s) = get_query_count s.
Proof. done. Qed.

(** The conversation counts the call exactly when it answers. *)
Lemma converse_query_count cfg fs env msg s :
  get_query_count (session_after (converse cfg fs env msg s))
  = match response_of (converse cfg fs env msg s) with
    | Answer _ _ _ _ => get_query_count s + 1
    | _ => get_query_count s
    end.
Proof.
  unfold converse, response_of, session_after.
  destruct (env_llm env) as [| |reply]; [done|done|].
  pose proof (increment_then_limit cfg fs (env_uuid env)
    (add_to_conversation "assistant" reply
       (add_to_conversation "user" msg s))) as Hq.
  unfold increment_query_count in *. simpl in *.
  destruct (get_max_queries_for_session _ _ _ _) as [limit s']. simpl in *.
  rewrite Hq. by rewrite !add_to_conversation_count.
Qed.

Lemma converse_response cfg fs env msg s :
  match response_of (converse cfg fs env msg s) with
  | Answer _ _ _ _ | FailedToGetResponse => True
  | _ => False
  end.
Proof.
  unfold converse, response_of.
  destruct (env_llm env); [done|done|].
  unfold increment_query_count. simpl.
  by destruct (get_max_queries_for_session _ _ _ _).
Qed.

Lemma answer_call_query_count cfg fs env data s :
  get_query_count (session_after (answer_call cfg fs env data s))
  = match response_of (answer_call cfg fs env data s) with
    | Filtered _ _ _ _ | Answer _ _ _ _ => get_query_count s + 1
    | _ => get_query_count s
    end.
Proof.
  assert (Hconv : forall msg,
    get_query_count (session_after (converse cfg fs env msg s))
    = match response_of (converse cfg fs env msg s) with
      | Filtered _ _ _ _ | Answer _ _ _ _ => get_query_count s + 1
      | _ => get_query_count s
      end).
  { intros msg. rewrite converse_query_count.
    pose proof (converse_response cfg fs env msg s) as Hr.
    by destruct (response_of (converse cfg fs env msg s)). }
  validation_cases data; classification_cases env Hconv.
  pose proof (increment_then_limit cfg fs (env_uuid env) s) as Hq.
  unfold increment_query_count, response_of, session_after in *. simpl in *.
  by destruct (get_max_queries_for_session _ _ _ _).
Qed.

Lemma answer_call_not_limit cfg fs env data s :
  is_limit_response (response_of (answer_call cfg fs env data s)) = false.
Proof.
  assert (Hconv : forall msg,
    is_limit_response (response_of (converse cfg fs env msg s)) = false).
  { intros msg. pose proof (converse_response cfg fs env msg s) as Hr.
    by destruct (response_of (converse cfg fs env msg s)). }
  validation_cases data; classification_cases env Hconv.
  unfold increment_query_count, response_of. simpl.
  by destruct (get_max_queries_for_session _ _ _ _).
Qed.

Lemma answer_call_files cfg fs env data s :
  files_after (answer_call cfg fs env data s) = fs.
Proof.
  assert (Hconv : forall msg,
    files_after (converse cfg fs env msg s) = fs).
  { intros msg. unfold converse, files_after.
    destruct (env_llm env); [done|done|].
    unfold increment_query_count. simpl.
    by destruct (get_max_queries_for_session _ _ _ _). }
  validation_cases data; classification_cases env Hconv.
  unfold increment_query_count, files_after. simpl.
  by destruct (get_max_queries_for_session _ _ _ _).
Qed.

(** What the call does to [query_count], read off the response: only an
    answer or a filtered refusal counts. *)
Lemma chat_query_count cfg env data s fs :
  get_query_count (session_after (chat cfg env data s fs))
  = match response_of (chat cfg env data s fs) with
    | Filtered _ _ _ _ | Answer _ _ _ _ => get_query_count s + 1
    | _ => get_query_count s
    end.
Proof.
  destruct (Z.le_gt_cases (limit_of cfg env s fs) (get_query_count s))
    as [Hle|Hgt].
  - rewrite chat_at_limit by done.
    unfold limit_reached, response_of, session_after.
    destruct (extension_email _ _ _); simpl;
      by rewrite <- (get_query_count_session_id (env_uuid env) s).
  - rewrite chat_under_limit by lia.
    rewrite answer_call_query_count.
    by rewrite get_query_count_session_id.
Qed.

(** The quota gate: a limit response exactly at or above the limit. *)
Lemma chat_limit_response cfg env data s fs :
  is_limit_response (response_of (chat cfg env data s fs))
  = negb (admitted (get_query_count s) (limit_of cfg env s fs)).
Proof.
  unfold admitted. rewrite negb_involutive.
  destruct (Z.leb_spec (limit_of cfg env s fs) (get_query_count s)).
  - rewrite chat_at_limit by done. apply limit_reached_is_limit.
  - rewrite chat_under_limit by done. apply answer_call_not_limit.
Qed.

End QuotaFacts.

(** ** Claims about requesting an extension *)

Module RequestFacts.
Import Text Regex EmailDetector ExtensionManager App Notions.
Import TextFacts LedgerFacts QuotaFacts.

Lemma extension_email_message fs sid m e :
  extract_email (strip m) = Some e ->
  extension_email fs sid (Some (mkChatBody (Some m)))
  = if has_pending_request (requests_file fs) sid then None else Some e.
Proof.
  intros He. unfold extension_email. rewrite He.
  rewrite (extract_email_nonempty _ _ He). simpl.
  by destruct (has_pending_request _ _).
Qed.

Lemma extension_email_some fs sid data e :
  extension_email fs sid data = Some e ->
  has_pending_request (requests_file fs) sid = false.
Proof.
  unfold extension_email.
  destruct data as [[[m|]]|]; [|done|done].
  destruct (extract_email (strip m)) as [e'|]; [|done].
  destruct (has_pending_request _ _); [|done].
  by rewrite andb_false_r.
Qed.

(** The ledgers after a call of [chat]. *)
Lemma chat_files cfg env data s fs :
  files_after (chat cfg env data s fs)
  = if admitted (get_query_count s) (limit_of cfg env s fs) then fs
    else
      match extension_email fs (session_of env s) data with
      | Some e =>
          mkFiles
            (Some (lines (requests_file fs)
                   ++ [written_record
                         (session_of env s, e, env_now env, env_epoch env)])%list)
            (approvals_file fs)
      | None => fs
      end.
Proof.
  unfold admitted.
  destruct (Z.leb_spec (limit_of cfg env s fs) (get_query_count s)); simpl.
  - rewrite chat_at_limit by done. unfold limit_reached, files_after.
    by destruct (extension_email _ _ _).
  - rewrite chat_under_limit by done. apply answer_call_files.
Qed.

Lemma pending_count_written f sid e now epoch sid' :
  pending_count
    (Some (lines f ++ [written_record (sid, e, now, epoch)])%list) sid'
  = (pending_count f sid' + if String.eqb sid sid' then 1 else 0)%nat.
Proof.
  rewrite pending_count_app, pending_count_lines.
  unfold pending_count at 2. simpl. unfold is_pending_for. simpl.
  by destruct (String.eqb sid sid').
Qed.

Lemma chat_keeps_invariant cfg env data s fs :
  at_most_one_pending (requests_file fs) ->
  at_most_one_pending (requests_file (files_after (chat cfg env data s fs))).
Proof.
  intros Hinv. rewrite chat_files.
  destruct (admitted _ _); [done|].
  destruct (extension_email _ _ _) as [e|] eqn:He; [|done].
  apply extension_email_some in He.
  apply has_pending_request_count in He.
  intros sid'. cbn [requests_file]. rewrite pending_count_written.
  destruct (String.eqb_spec (session_of env s) sid') as [<-|_].
  - rewrite He. lia.
  - specialize (Hinv sid'). lia.
Qed.

Lemma approve_request_pending f rid g now sid :
  (pending_count (approve_request f rid g now) sid <= pending_count f sid)%nat.
Proof.
  destruct f as [l|]; simpl; [|done].
  apply pending_count_update_first. intros r.
  apply mark_approved_not_pending.
Qed.

Lemma deny_request_pending f rid now sid :
  (pending_count (deny_request f rid now) sid <= pending_count f sid)%nat.
Proof.
  destruct f as [l|]; simpl; [|done].
  apply pending_count_update_first. intros r.
  apply mark_denied_not_pending.
Qed.

Lemma approve_extension_ledger cfg data n1 n2 fs :
  requests_file (approve_extension cfg data n1 n2 fs).2 = requests_file fs
  \/ exists rid g,
       requests_file (approve_extension cfg data n1 n2 fs).2
       = approve_request (requests_file fs) rid g n1.
Proof.
  unfold approve_extension.
  destruct (key_configured cfg); [|by left]. simpl.
  destruct data as [d|]; [|by left].
  destruct (key_matches cfg _); [|by left]. simpl.
  destruct (body_request_id d) as [rid|]; [|by left].
  destruct (lookup_request fs (Some rid)); [|by left].
  right. by eexists _, _.
Qed.

Lemma deny_extension_ledger cfg data now fs :
  requests_file (deny_extension cfg data now fs).2 = requests_file fs
  \/ exists rid,
       requests_file (deny_extension cfg data now fs).2
       = deny_request (requests_file fs) rid now.
Proof.
  unfold deny_extension.
  destruct (key_configured cfg); [|by left]. simpl.
  destruct data as [d|]; [|by left].
  destruct (key_matches cfg _); [|by left]. simpl.
  destruct (body_request_id d) as [rid|]; [|by left].
  destruct (lookup_request fs (Some rid)); [|by left].
  right. by eexists.
Qed.

Lemma step_keeps_invariant cfg fs fs' :
  step cfg fs fs' ->
  at_most_one_pending (requests_file fs) ->
  at_most_one_pending (requests_file fs').
Proof.
  intros Hstep Hinv. destruct Hstep as [env data s fs|data n1 n2 fs|data now fs].
  - by apply chat_keeps_invariant.
  - destruct (approve_extension_ledger cfg data n1 n2 fs)
      as [->|(rid & g & ->)]; [done|].
    intros sid. etransitivity; [apply approve_request_pending|apply Hinv].
  - destruct (deny_extension_ledger cfg data now fs)
      as [->|(rid & ->)]; [done|].
    intros sid. etransitivity; [apply deny_request_pending|apply Hinv].
Qed.

Lemma reachable_invariant cfg fs :
  reachable cfg fs -> at_most_one_pending (requests_file fs).
Proof.
  induction 1 as [|fs fs' _ IH Hstep].
  - intros sid. unfold pending_count. simpl. lia.
  - by apply (step_keeps_invariant cfg fs fs').
Qed.

(** C1. For a session at its limit, a chat message that contains an email
    address appends one new pending record for that session exactly when
    the ledger holds no pending record of that session, and leaves both
    ledgers alone otherwise; records of the session with another status
    (denied, approved) do not count as pending; and in every state reached
    by a sequence of chat, approval and denial calls from an empty log
    directory, each session id has at most one pending record. *)
Theorem C1_one_pending_request_per_session (cfg : Config) :
  (forall env m e s fs,
      limit_of cfg env s fs <= get_query_count s ->
      extract_email (strip m) = Some e ->
      files_after (chat cfg env (Some (mkChatBody (Some m))) s fs)
      = if has_pending_request (requests_file fs) (session_of env s)
        then fs
        else mkFiles
               (Some (lines (requests_file fs)
                      ++ [ {| session_id := session_of env s;
                              email := e;
                              timestamp := env_now env;
                              status := "pending";
                              queries_granted := 0;
                              approved_at := None;
                              request_id :=
                                session_of env s +:+ "_"
                                +:+ pretty (env_epoch env) |} ])%list)
               (approvals_file fs))
  /\ (forall f sid,
         has_pending_request f sid = false <->
         (forall r, In r (lines f) -> session_id r = sid ->
                    status r <> "pending"))
  /\ (forall fs, reachable cfg fs ->
                 forall sid, (pending_count (requests_file fs) sid <= 1)%nat).
Proof.
  split; [|split].
  - intros env m e s fs Hlimit He. rewrite chat_files.
    unfold admitted. apply Z.leb_le in Hlimit. rewrite Hlimit. cbn [negb].
    rewrite (extension_email_message _ _ _ _ He).
    by destruct (has_pending_request _ _).
  - apply has_pending_request_false.
  - apply reachable_invariant.
Qed.

(** The session at its limit sends its address to an empty ledger: one
    pending record is written. *)
Lemma C1_first_request_is_recorded :
  files_after (chat Samples.cfg Samples.env
                    (Samples.body "contact me at a@b.com")
                    Samples.session_at_limit Samples.no_files)
  = mkFiles
      (Some [ {| session_id := "abc12345";
                 email := "a@b.com";
                 timestamp := "2026-01-05T10:00:00.250000";
                 status := "pending";
                 queries_granted := 0;
                 approved_at := None;
                 request_id := "abc12345_1767607200" |} ])
      None.
Proof.
  refine (proj1 (C1_one_pending_request_per_session Samples.cfg)
            Samples.env "contact me at a@b.com" "a@b.com"
            Samples.session_at_limit Samples.no_files _ _).
  - vm_compute. discriminate.
  - vm_compute. reflexivity.
Defined.

End RequestFacts.

(** ** Claims about the conversational call *)

Module ChatFacts.
Import Text Regex EmailDetector ExtensionManager App Notions.
Import TextFacts LedgerFacts QuotaFacts RequestFacts.

(** C2. The limit computed for a session is the base limit plus the
    granted queries of the approval entry stored under its session id, and
    the base limit when there is no such entry; without an approvals file,
    or with one that cannot be read or parsed, it is the base limit; and
    the call passes the quota check (its response is not a limit response)
    exactly when the session's query count is below that limit. *)
Theorem C2_effective_limit_and_admission
        (cfg : Config) (env : ChatEnv) (data : option ChatBody)
        (s : Session) (fs : Files) :
  limit_of cfg env s fs = effective_limit cfg fs (session_of env s)
  /\ (forall requests uuid,
         (get_max_queries_for_session cfg (mkFiles requests None) uuid s).1
         = MAX_QUERIES_PER_SESSION cfg)
  /\ (forall requests uuid,
         (get_max_queries_for_session
            cfg (mkFiles requests (Some Unreadable)) uuid s).1
         = MAX_QUERIES_PER_SESSION cfg)
  /\ (forall requests uuid (m : gmap string ApprovalGrant),
         (get_max_queries_for_session
            cfg (mkFiles requests (Some (Approvals m))) uuid s).1
         = match m !! (get_session_id uuid s).1 with
           | Some grant =>
               MAX_QUERIES_PER_SESSION cfg + grant_queries_granted grant
           | None => MAX_QUERIES_PER_SESSION cfg
           end)
  /\ (is_limit_response (response_of (chat cfg env data s fs)) = false
      <-> get_query_count s < limit_of cfg env s fs).
Proof.
  split; [|split; [|split; [|split]]].
  - rewrite limit_of_eq. apply max_queries_for_spec.
  - intros requests uuid. unfold get_max_queries_for_session.
    by destruct (get_session_id uuid s).
  - intros requests uuid. unfold get_max_queries_for_session.
    by destruct (get_session_id uuid s).
  - intros requests uuid m. unfold get_max_queries_for_session.
    by destruct (get_session_id uuid s).
  - rewrite chat_limit_response. unfold admitted.
    rewrite negb_involutive, Z.leb_gt. done.
Qed.

Lemma limit_reached_without_request fs env data sid count limit s :
  extension_email fs sid data = None ->
  limit_reached fs env data sid count limit s
  = (LimitReached
       (if truthy (sess_extension_requested s) then PENDING_REVIEW
        else SEND_EMAIL limit) count limit, s, fs).
Proof. unfold limit_reached. by intros ->. Qed.

Lemma extract_email_empty : extract_email "" = None.
Proof. reflexivity. Qed.

Lemma extension_email_no_text fs sid data :
  data = None \/ data = Some (mkChatBody None)
  \/ (exists m, data = Some (mkChatBody (Some m)) /\ strip m = "") ->
  extension_email fs sid data = None.
Proof.
  intros [->|[->|(m & -> & Hm)]]; [done|done|].
  unfold extension_email. by rewrite Hm, extract_email_empty.
Qed.

(** The quota check comes before validation, on decoded bodies: for a
    session whose query count has reached its limit every decoded body is
    answered with status 429, and no body, no message entry or a blank
    message gets the plain limit-reached response; the same three bodies
    sent by a session below its limit get the validation errors
    'No message provided' and 'Empty message'. *)
Lemma decoded_body_at_the_limit
        (cfg : Config) (env : ChatEnv) (s : Session) (fs : Files) :
  (limit_of cfg env s fs <= get_query_count s ->
   (forall data, http_status (response_of (chat cfg env data s fs)) = 429)
   /\ (forall data,
          data = None \/ data = Some (mkChatBody None)
          \/ (exists m, data = Some (mkChatBody (Some m)) /\ strip m = "") ->
          response_of (chat cfg env data s fs)
          = LimitReached
              (if truthy (sess_extension_requested s) then PENDING_REVIEW
               else SEND_EMAIL (limit_of cfg env s fs))
              (get_query_count s) (limit_of cfg env s fs)))
  /\ (get_query_count s < limit_of cfg env s fs ->
      response_of (chat cfg env None s fs) = BadRequest "No message provided"
      /\ response_of (chat cfg env (Some (mkChatBody None)) s fs)
         = BadRequest "No message provided"
      /\ (forall m, strip m = "" ->
                    response_of (chat cfg env (Some (mkChatBody (Some m))) s fs)
                    = BadRequest "Empty message")).
Proof.
  split.
  - intros Hlimit. split.
    + intros data.
      pose proof (chat_limit_response cfg env data s fs) as Hr.
      unfold admitted in Hr. apply Z.leb_le in Hlimit.
      rewrite Hlimit in Hr. simpl in Hr.
      by destruct (response_of (chat cfg env data s fs)).
    + intros data Hdata. rewrite chat_at_limit by done.
      rewrite limit_reached_without_request
        by (by apply extension_email_no_text).
      unfold response_of. simpl. by rewrite extension_flag_session_id.
  - intros Hunder. rewrite !chat_under_limit by done.
    split; [done|split; [done|]].
    intros m Hm. rewrite chat_under_limit by done.
    unfold answer_call, response_of. by rewrite Hm.
Qed.

(** *** The wording of the limit-reached message *)

Lemma send_email_is_not_pending_review limit :
  SEND_EMAIL limit <> PENDING_REVIEW.
Proof.
  unfold SEND_EMAIL, PENDING_REVIEW. intros H.
  cbn [String.append] in H. injection H; intros; discriminate.
Qed.

Lemma limit_reached_new_request fs env data sid count limit s e :
  extension_email fs sid data = Some e ->
  lines (requests_file (files_after
                          (limit_reached fs env data sid count limit s)))
  = (lines (requests_file fs)
     ++ [written_record (sid, e, env_now env, env_epoch env)])%list.
Proof. unfold limit_reached. by intros ->. Qed.

(** At the limit, a ledger left as it was means no request was filed. *)
Lemma ledger_kept_no_request cfg env data s fs :
  limit_of cfg env s fs <= get_query_count s ->
  requests_file (files_after (chat cfg env data s fs)) = requests_file fs ->
  extension_email fs (session_of env s) data = None.
Proof.
  intros Hlimit Hkept.
  destruct (extension_email fs (session_of env s) data) as [e|] eqn:He;
    [|done].
  rewrite chat_at_limit in Hkept by done.
  pose proof (limit_reached_new_request fs env data (session_of env s)
                (get_query_count s) (limit_of cfg env s fs)
                (get_session_id (env_uuid env) s).2 e He) as Hnew.
  rewrite Hkept in Hnew. apply (f_equal (@length _)) in Hnew.
  rewrite List.length_app in Hnew. simpl in Hnew. lia.
Qed.

(** C4, as the code has it. For an at-limit chat call that files no new
    extension request, the limit-reached message is the 'pending review'
    wording exactly when the session's own [extension_requested] marker is
    set, and otherwise the wording that invites the user to send an email
    address; the request ledger is not consulted for the wording. *)
Theorem C4_wording_follows_the_session_marker
        (cfg : Config) (env : ChatEnv) (data : option ChatBody)
        (s : Session) (fs : Files) :
  limit_of cfg env s fs <= get_query_count s ->
  requests_file (files_after (chat cfg env data s fs)) = requests_file fs ->
  exists msg,
    response_of (chat cfg env data s fs)
    = LimitReached msg (get_query_count s) (limit_of cfg env s fs)
    /\ (msg = PENDING_REVIEW <-> truthy (sess_extension_requested s) = true)
    /\ (msg <> PENDING_REVIEW -> msg = SEND_EMAIL (limit_of cfg env s fs)).
Proof.
  intros Hlimit Hkept.
  pose proof (ledger_kept_no_request cfg env data s fs Hlimit Hkept) as Hnone.
  rewrite chat_at_limit by done.
  rewrite (limit_reached_without_request _ _ _ _ _ _ _ Hnone).
  unfold response_of. simpl. rewrite extension_flag_session_id.
  eexists. split; [reflexivity|].
  destruct (truthy (sess_extension_requested s)).
  - split; [done|]. intros Hne. by destruct Hne.
  - split; [|done]. split; [|done].
    intros Heq. by apply send_email_is_not_pending_review in Heq.
Qed.

(** The session whose request was denied asks again without an address:
    its marker is still set, so the wording is 'pending review'. *)
Lemma C4_marked_session_is_told_pending :
  exists msg,
    response_of (chat Samples.cfg Samples.env (Samples.body "any news?")
                      Samples.session_requested Samples.files_denied)
    = LimitReached msg 20 20
    /\ (msg = PENDING_REVIEW <-> true = true)
    /\ (msg <> PENDING_REVIEW -> msg = SEND_EMAIL 20).
Proof.
  refine (C4_wording_follows_the_session_marker
            Samples.cfg Samples.env (Samples.body "any news?")
            Samples.session_requested Samples.files_denied _ _).
  - vm_compute. discriminate.
  - vm_compute. reflexivity.
Defined.

(** C4 as stated fails: the session at its limit files a request, the
    administrator denies it, and the session asks again. The call is at the
    limit and files nothing, no pending request of the session is in the
    ledger, and yet the message is the 'pending review' wording. *)
Lemma C4_pending_wording_without_pending_request :
  get_query_count Samples.session_requested = 20
  /\ limit_of Samples.cfg Samples.env Samples.session_requested
              Samples.files_denied = 20
  /\ files_after (chat Samples.cfg Samples.env (Samples.body "any news?")
                       Samples.session_requested Samples.files_denied)
     = Samples.files_denied
  /\ has_pending_request (requests_file Samples.files_denied) "abc12345"
     = false
  /\ response_of (chat Samples.cfg Samples.env (Samples.body "any news?")
                       Samples.session_requested Samples.files_denied)
     = LimitReached PENDING_REVIEW 20 20.
Proof. vm_compute. repeat split. Qed.

(** *** What counts as a question *)

Lemma sanitize_input_length cfg m :
  0 <= MAX_QUERY_LENGTH cfg ->
  Z.of_nat (String.length (sanitize_input cfg m)) <= MAX_QUERY_LENGTH cfg.
Proof.
  intros Hmax. unfold sanitize_input.
  destruct (nonempty m); cbn [negb]; [|simpl; lia].
  pose proof (length_strip
    (fold_left (fun s pattern => re_sub_empty true pattern s)
               patterns_to_remove (py_slice_to (MAX_QUERY_LENGTH cfg) m))).
  pose proof (length_remove_all true patterns_to_remove
                (py_slice_to (MAX_QUERY_LENGTH cfg) m)).
  pose proof (length_py_slice_to (MAX_QUERY_LENGTH cfg) m Hmax).
  lia.
Qed.

(** The length check of [chat] comes after [sanitize_input] has cut the
    message to [MAX_QUERY_LENGTH]: with a limit that is not negative it
    never rejects anything. *)
Lemma message_too_long_is_unreachable cfg env data s fs :
  0 <= MAX_QUERY_LENGTH cfg ->
  forall n, response_of (chat cfg env data s fs) <> MessageTooLong n.
Proof.
  intros Hmax n.
  destruct (Z.le_gt_cases (limit_of cfg env s fs) (get_query_count s)).
  - pose proof (chat_limit_response cfg env data s fs) as Hr.
    unfold admitted in Hr. rewrite (proj2 (Z.leb_le _ _)) in Hr by done.
    intros Heq. by rewrite Heq in Hr.
  - rewrite chat_under_limit by lia.
    generalize (get_session_id (env_uuid env) s).2. intros s1.
    assert (Hconv : forall msg,
      response_of (converse cfg fs env msg s1) <> MessageTooLong n).
    { intros msg Heq. pose proof (converse_response cfg fs env msg s1) as Hr.
      by rewrite Heq in Hr. }
    unfold answer_call.
    destruct data as [[[m|]]|]; [|done|done].
    destruct (nonempty (strip m)); [|done]. cbn [negb].
    pose proof (sanitize_input_length cfg (strip m) Hmax) as Hlen.
    revert Hlen. generalize (sanitize_input cfg (strip m)). intros msg Hlen.
    destruct (nonempty msg); [|done]. cbn [negb].
    rewrite (proj2 (Z.ltb_ge _ _)) by done.
    classification_cases env Hconv.
    unfold increment_query_count, response_of. simpl.
    by destruct (get_max_queries_for_session _ _ _ _).
Qed.

(** An admitted call that the classifier filters is counted once. *)
Lemma filtered_call_is_counted cfg env data s fs :
  (exists refusal count limit remaining,
      response_of (chat cfg env data s fs)
      = Filtered refusal count limit remaining) ->
  get_query_count (session_after (chat cfg env data s fs))
  = get_query_count s + 1.
Proof.
  intros (refusal & count & limit & remaining & Hr).
  by rewrite chat_query_count, Hr.
Qed.

(** So is an admitted call that is answered. *)
Lemma answered_call_is_counted cfg env data s fs :
  (exists reply count limit remaining,
      response_of (chat cfg env data s fs)
      = Answer reply count limit remaining) ->
  get_query_count (session_after (chat cfg env data s fs))
  = get_query_count s + 1.
Proof.
  intros (reply & count & limit & remaining & Hr).
  by rewrite chat_query_count, Hr.
Qed.

(** A call rejected with status 400 is not counted. *)
Lemma rejected_call_is_not_counted cfg env data s fs :
  http_status (response_of (chat cfg env data s fs)) = 400 ->
  get_query_count (session_after (chat cfg env data s fs))
  = get_query_count s.
Proof.
  intros Hr. rewrite chat_query_count.
  by destruct (response_of (chat cfg env data s fs)).
Qed.

(** A filtered call, step by step. *)
Lemma out_of_scope_call_is_filtered cfg env m s fs refusal :
  get_query_count s < limit_of cfg env s fs ->
  nonempty (strip m) = true ->
  nonempty (sanitize_input cfg (strip m)) = true ->
  0 <= MAX_QUERY_LENGTH cfg ->
  env_classify env = ClassifyScope "OUT_OF_SCOPE" ->
  env_refusal env = Some refusal ->
  exists limit,
    response_of (chat cfg env (Some (mkChatBody (Some m))) s fs)
    = Filtered refusal (get_query_count s + 1) limit
               (limit - (get_query_count s + 1)).
Proof.
  intros Hunder Hm Hmsg Hmax Hscope Hrefusal.
  rewrite chat_under_limit by done.
  unfold answer_call. rewrite Hm, Hmsg. cbn [negb].
  rewrite (proj2 (Z.ltb_ge _ _)) by (by apply sanitize_input_length).
  rewrite Hscope, Hrefusal. cbn [String.eqb Ascii.eqb Bool.eqb].
  unfold increment_query_count, response_of.
  rewrite get_query_count_session_id.
  destruct (get_max_queries_for_session _ _ _ _) as [limit s']. simpl.
  by exists limit.
Qed.

(** The rejections of [answer_call], by the body that causes them. *)
Lemma rejections_by_body cfg env s fs :
  get_query_count s < limit_of cfg env s fs ->
  response_of (chat cfg env None s fs) = BadRequest "No message provided"
  /\ response_of (chat cfg env (Some (mkChatBody None)) s fs)
     = BadRequest "No message provided"
  /\ (forall m,
         strip m = "" ->
         response_of (chat cfg env (Some (mkChatBody (Some m))) s fs)
         = BadRequest "Empty message")
  /\ (forall m,
         nonempty (strip m) = true ->
         sanitize_input cfg (strip m) = "" ->
         response_of (chat cfg env (Some (mkChatBody (Some m))) s fs)
         = BadRequest "Invalid message")
  /\ (forall m,
         nonempty (strip m) = true ->
         nonempty (sanitize_input cfg (strip m)) = true ->
         MAX_QUERY_LENGTH cfg
         < Z.of_nat (String.length (sanitize_input cfg (strip m))) ->
         response_of (chat cfg env (Some (mkChatBody (Some m))) s fs)
         = MessageTooLong (MAX_QUERY_LENGTH cfg)).
Proof.
  intros Hunder. rewrite !chat_under_limit by done.
  split; [done|]. split; [done|]. split; [|split].
  - intros m Hm. rewrite chat_under_limit by done.
    unfold answer_call, response_of. by rewrite Hm.
  - intros m Hm Hs. rewrite chat_under_limit by done.
    unfold answer_call, response_of. by rewrite Hm, Hs.
  - intros m Hm Hs Hlong. rewrite chat_under_limit by done.
    unfold answer_call, response_of. rewrite Hm, Hs. cbn [negb].
    by rewrite (proj2 (Z.ltb_lt _ _) Hlong).
Qed.

(** C7. An admitted call that the classifier filters as out of scope adds
    exactly one to [query_count], just as an admitted call that is
    answered does; a call rejected for having no message entry, an empty
    message, a message that sanitizing empties, or a message over the
    length limit leaves [query_count] as it was. The first two conjuncts
    count the filtered and the answered call, the third says when a call
    is filtered, the fourth that no rejection is counted, the last which
    body gets which rejection. *)
Theorem C7_filtered_calls_count_rejected_calls_do_not
        (cfg : Config) (env : ChatEnv) (data : option ChatBody)
        (s : Session) (fs : Files) :
  (forall refusal count limit remaining,
      response_of (chat cfg env data s fs)
      = Filtered refusal count limit remaining ->
      get_query_count (session_after (chat cfg env data s fs))
      = get_query_count s + 1)
  /\ (forall reply count limit remaining,
         response_of (chat cfg env data s fs)
         = Answer reply count limit remaining ->
         get_query_count (session_after (chat cfg env data s fs))
         = get_query_count s + 1)
  /\ (forall m refusal,
         data = Some (mkChatBody (Some m)) ->
         get_query_count s < limit_of cfg env s fs ->
         nonempty (strip m) = true ->
         nonempty (sanitize_input cfg (strip m)) = true ->
         0 <= MAX_QUERY_LENGTH cfg ->
         env_classify env = ClassifyScope "OUT_OF_SCOPE" ->
         env_refusal env = Some refusal ->
         exists limit,
           response_of (chat cfg env data s fs)
           = Filtered refusal (get_query_count s + 1) limit
                      (limit - (get_query_count s + 1)))
  /\ ((exists error,
          response_of (chat cfg env data s fs) = BadRequest error)
      \/ (exists max_length,
             response_of (chat cfg env data s fs)
             = MessageTooLong max_length) ->
      get_query_count (session_after (chat cfg env data s fs))
      = get_query_count s)
  /\ (get_query_count s < limit_of cfg env s fs ->
      (data = None \/ data = Some (mkChatBody None) ->
       response_of (chat cfg env data s fs)
       = BadRequest "No message provided")
      /\ (forall m,
             data = Some (mkChatBody (Some m)) ->
             (strip m = "" ->
              response_of (chat cfg env data s fs)
              = BadRequest "Empty message")
             /\ (nonempty (strip m) = true ->
                 sanitize_input cfg (strip m) = "" ->
                 response_of (chat cfg env data s fs)
                 = BadRequest "Invalid message")
             /\ (nonempty (strip m) = true ->
                 nonempty (sanitize_input cfg (strip m)) = true ->
                 MAX_QUERY_LENGTH cfg
                 < Z.of_nat (String.length (sanitize_input cfg (strip m))) ->
                 response_of (chat cfg env data s fs)
                 = MessageTooLong (MAX_QUERY_LENGTH cfg)))).
Proof.
  split; [|split; [|split; [|split]]].
  - intros refusal count limit remaining Hr.
    apply filtered_call_is_counted. by eexists _, _, _, _.
  - intros reply count limit remaining Hr.
    apply answered_call_is_counted. by eexists _, _, _, _.
  - intros m refusal -> Hunder Hm Hs Hmax Hscope Hrefusal.
    by apply out_of_scope_call_is_filtered.
  - intros [[error Hr]|[n Hr]];
      apply rejected_call_is_not_counted; by rewrite Hr.
  - intros Hunder.
    destruct (rejections_by_body cfg env s fs Hunder)
      as (Hnone & Hnomsg & Hempty & Hinvalid & Hlong).
    split.
    + by intros [->| ->].
    + intros m ->. split; [apply Hempty|]. split; [apply Hinvalid|apply Hlong].
Qed.

(** A question that the classifier filters, from a session that has asked
    three: the count becomes four. *)
Lemma C7_filtered_question_is_counted :
  get_query_count
    (session_after (chat Samples.cfg Samples.env_filtered
                         (Samples.body "What is the weather today?")
                         Samples.session_fresh Samples.no_files))
  = get_query_count Samples.session_fresh + 1.
Proof.
  refine (proj1 (C7_filtered_calls_count_rejected_calls_do_not
                   Samples.cfg Samples.env_filtered
                   (Samples.body "What is the weather today?")
                   Samples.session_fresh Samples.no_files)
                "I only discuss Eric's professional life." 4 20 16 _).
  vm_compute. reflexivity.
Defined.

(** The length check itself is behind the cut of [sanitize_input]. With
    the default limit of 500 characters a message of 501 characters from a
    session that has asked three questions is cut to 500 characters and
    answered, and the query count goes from 3 to 4. *)
Example overlong_message_is_cut_and_answered :
  let m := repeat_char "a" 501 in
  let r := chat Samples.cfg Samples.env (Samples.body m)
                Samples.session_fresh Samples.no_files in
  MAX_QUERY_LENGTH Samples.cfg = 500
  /\ String.length (strip m) = 501%nat
  /\ get_query_count Samples.session_fresh = 3
  /\ response_of r = Answer "Eric has led infrastructure teams." 4 20 16
  /\ get_query_count (session_after r) = 4.
Proof. vm_compute. repeat split. Qed.

(** *** The scenario of the specification

    Base limit 20 and twenty questions asked: the next call is refused;
    with an address in the message a request is filed; the administrator
    grants five more questions; the limit becomes 25, the session is
    answered again, and at 25 it is refused again. *)
Example scenario_grant_of_five :
  let fs1 := Samples.files_requested in
  let s1 := Samples.session_requested in
  let fs2 :=
    (approve_extension
       Samples.cfg (Samples.admin_body "abc12345_1767607200" (Some 5))
       "2026-01-05T11:00:00.000000" "2026-01-05T11:00:00.000050" fs1).2 in
  response_of (chat Samples.cfg Samples.env (Samples.body "one more?")
                    Samples.session_at_limit Samples.no_files)
  = LimitReached (SEND_EMAIL 20) 20 20
  /\ response_of (chat Samples.cfg Samples.env
                       (Samples.body "contact me at a@b.com")
                       Samples.session_at_limit Samples.no_files)
     = ExtensionRequested EXTENSION_RECEIVED 20 20
  /\ has_pending_request (requests_file fs1) "abc12345" = true
  /\ limit_of Samples.cfg Samples.env s1 fs2 = 25
  /\ response_of (chat Samples.cfg Samples.env (Samples.body "one more?")
                       s1 fs2)
     = Answer "Eric has led infrastructure teams." 21 25 4
  /\ response_of (chat Samples.cfg Samples.env (Samples.body "one more?")
                       (set_query_count 25 s1) fs2)
     = LimitReached PENDING_REVIEW 25 25.
Proof. vm_compute. repeat split. Qed.

End ChatFacts.

(** ** Claims about the administrator calls *)

Module AdminFacts.
Import Text ExtensionManager App Notions.
Import LedgerFacts QuotaFacts.

Lemma key_matches_iff cfg key :
  key_matches cfg key = true <-> ADMIN_RESET_KEY cfg = Some key.
Proof.
  unfold key_matches. destruct (ADMIN_RESET_KEY cfg) as [k|]; [|done].
  rewrite String.eqb_eq. split; [by intros ->|by intros [= ->]].
Qed.

Lemma key_mismatch cfg key :
  ADMIN_RESET_KEY cfg <> Some key -> key_matches cfg key = false.
Proof.
  intros Hne. apply not_true_iff_false. by rewrite key_matches_iff.
Qed.

Lemma get_request_by_id_has_id f rid r :
  get_request_by_id f rid = Some r -> request_id r = rid.
Proof.
  destruct f as [l|]; simpl; [|done].
  intros Hf. apply List.find_some in Hf as [_ Hid].
  by apply String.eqb_eq in Hid.
Qed.

(** The ledger around the record that a lookup by id returns. *)
Lemma get_request_by_id_split f rid r :
  get_request_by_id f rid = Some r ->
  exists before after,
    lines f = (before ++ r :: after)%list
    /\ Forall (fun x => request_id x <> rid) before
    /\ request_id r = rid.
Proof.
  destruct f as [l|]; simpl; [|done].
  intros Hf. apply find_first in Hf as (l1 & l2 & -> & Hr & Hl1).
  exists l1, l2. repeat split; [|by apply String.eqb_eq].
  eapply Forall_impl; [exact Hl1|]. intros x Hx.
  by apply String.eqb_neq.
Qed.

Lemma rewrite_record f rid upd r before after :
  (forall x, request_id (upd x) = request_id x) ->
  lines f = (before ++ r :: after)%list ->
  Forall (fun x => request_id x <> rid) before ->
  request_id r = rid ->
  get_request_by_id f rid = Some r
  /\ (forall f',
         f' = match f with
              | Some l =>
                  Some (update_first
                          (fun req => String.eqb (request_id req) rid) upd l)
              | None => None
              end ->
         lines f' = (before ++ upd r :: after)%list
         /\ get_request_by_id f' rid = Some (upd r)).
Proof.
  intros Hupd Hl Hbefore Hr.
  assert (Hb : Forall (fun x => String.eqb (request_id x) rid = false) before).
  { eapply Forall_impl; [exact Hbefore|]. intros x Hx.
    by apply String.eqb_neq. }
  destruct f as [l|]; simpl in Hl; [|by destruct before].
  subst l. split.
  { simpl. apply find_split; [done|]. by apply String.eqb_eq. }
  intros f' ->.
  rewrite update_first_split; [|done|by apply String.eqb_eq].
  split; [done|]. simpl.
  apply find_split; [done|]. rewrite Hupd. by apply String.eqb_eq.
Qed.

(** A successful approval, in full. *)
Lemma approve_extension_ok cfg d n1 n2 fs rid r :
  key_configured cfg = true ->
  ADMIN_RESET_KEY cfg = Some (sent_key d) ->
  body_request_id d = Some rid ->
  get_request_by_id (requests_file fs) rid = Some r ->
  approve_extension cfg (Some d) n1 n2 fs
  = (AdminSuccess
       ("Extension approved: " +:+ pretty (sent_grant d) +:+
        " additional queries granted")
       (session_id r),
     mkFiles
       (approve_request (requests_file fs) rid (sent_grant d) n1)
       (Some (Approvals
                (<[ session_id r :=
                      mkApprovalGrant (sent_grant d) n2 rid (email r) ]>
                   (current_approvals fs))))).
Proof.
  intros Hcfg Hkey Hrid Hfound. unfold approve_extension.
  rewrite Hcfg. cbn [negb].
  apply key_matches_iff in Hkey. unfold sent_key in Hkey. rewrite Hkey.
  cbn [negb]. rewrite Hrid. cbn [lookup_request]. rewrite Hfound.
  unfold current_approvals, sent_grant.
  by destruct (approvals_file fs) as [[|m]|].
Qed.

(** A successful denial, in full. *)
Lemma deny_extension_ok cfg d now fs rid r :
  key_configured cfg = true ->
  ADMIN_RESET_KEY cfg = Some (sent_key d) ->
  body_request_id d = Some rid ->
  get_request_by_id (requests_file fs) rid = Some r ->
  deny_extension cfg (Some d) now fs
  = (AdminSuccess "Extension request denied" (session_id r),
     mkFiles (deny_request (requests_file fs) rid now) (approvals_file fs)).
Proof.
  intros Hcfg Hkey Hrid Hfound. unfold deny_extension.
  rewrite Hcfg. cbn [negb].
  apply key_matches_iff in Hkey. unfold sent_key in Hkey. rewrite Hkey.
  cbn [negb]. rewrite Hrid. cbn [lookup_request]. by rewrite Hfound.
Qed.

Lemma approve_request_found f rid g now r :
  get_request_by_id f rid = Some r ->
  get_request_by_id (approve_request f rid g now) rid
  = Some (mark_approved g now r).
Proof.
  intros Hfound.
  destruct (get_request_by_id_split f rid r Hfound)
    as (before & after & Hl & Hbefore & Hr).
  destruct (rewrite_record f rid (mark_approved g now) r before after)
    as [_ Hupd]; [done|done|done|done|].
  destruct (Hupd (approve_request f rid g now)) as [_ Hget]; [|done].
  by destruct f.
Qed.

Lemma limit_after_grant cfg requests m sid grant :
  effective_limit cfg (mkFiles requests (Some (Approvals (<[sid := grant]> m))))
                  sid
  = MAX_QUERIES_PER_SESSION cfg + grant_queries_granted grant.
Proof.
  unfold effective_limit, get_grant. simpl. by rewrite lookup_insert_eq.
Qed.

(** C3. After the administrator approves request [rid], found in the
    ledger as record [r] of session [session_id r], with [g] granted
    queries: the call succeeds and names the session; the ledger's record
    for [rid] has status approved, [g] granted queries and its approval
    time set, its other fields unchanged; the approval ledger maps the
    session to the grant; the limit of every session with that id is the
    base limit plus [g], whatever its query count; and a later approval for
    a request of the same session makes the limit the base limit plus the
    later grant, with nothing added up. *)
Theorem C3_approval_sets_the_limit
        (cfg : Config) (d : AdminBody) (n1 n2 : string) (fs : Files)
        (rid : string) (r : ExtensionRequest) :
  key_configured cfg = true ->
  ADMIN_RESET_KEY cfg = Some (sent_key d) ->
  body_request_id d = Some rid ->
  get_request_by_id (requests_file fs) rid = Some r ->
  let g := sent_grant d in
  let fs' := (approve_extension cfg (Some d) n1 n2 fs).2 in
  (exists msg,
      (approve_extension cfg (Some d) n1 n2 fs).1
      = AdminSuccess msg (session_id r))
  /\ get_request_by_id (requests_file fs') rid
     = Some {| session_id := session_id r;
               email := email r;
               timestamp := timestamp r;
               status := "approved";
               queries_granted := g;
               approved_at := Some n1;
               request_id := request_id r |}
  /\ get_grant fs' (session_id r)
     = Some {| grant_queries_granted := g;
               grant_approved_at := n2;
               grant_request_id := rid;
               grant_email := email r |}
  /\ (forall uuid s,
         sess_session_id s = Some (session_id r) ->
         (get_max_queries_for_session cfg fs' uuid s).1
         = MAX_QUERIES_PER_SESSION cfg + g)
  /\ (forall d2 n3 n4 rid2 r2,
         ADMIN_RESET_KEY cfg = Some (sent_key d2) ->
         body_request_id d2 = Some rid2 ->
         get_request_by_id (requests_file fs') rid2 = Some r2 ->
         session_id r2 = session_id r ->
         forall uuid s,
           sess_session_id s = Some (session_id r) ->
           (get_max_queries_for_session
              cfg (approve_extension cfg (Some d2) n3 n4 fs').2 uuid s).1
           = MAX_QUERIES_PER_SESSION cfg + sent_grant d2).
Proof.
  intros Hcfg Hkey Hrid Hfound g fs'.
  assert (Hlimit : forall d0 n0 n0' fs0 rid0 r0,
    ADMIN_RESET_KEY cfg = Some (sent_key d0) ->
    body_request_id d0 = Some rid0 ->
    get_request_by_id (requests_file fs0) rid0 = Some r0 ->
    forall uuid s,
      sess_session_id s = Some (session_id r0) ->
      (get_max_queries_for_session
         cfg (approve_extension cfg (Some d0) n0 n0' fs0).2 uuid s).1
      = MAX_QUERIES_PER_SESSION cfg + sent_grant d0).
  { intros d0 n0 n0' fs0 rid0 r0 Hkey0 Hrid0 Hfound0 uuid s Hs.
    rewrite (approve_extension_ok cfg d0 n0 n0' fs0 rid0 r0) by done.
    rewrite (max_queries_session_known _ _ _ _ _ Hs).
    rewrite max_queries_for_spec. cbn [snd]. by rewrite limit_after_grant. }
  assert (Hfs :
    fs' = mkFiles
            (approve_request (requests_file fs) rid g n1)
            (Some (Approvals
                     (<[ session_id r := mkApprovalGrant g n2 rid (email r) ]>
                        (current_approvals fs))))).
  { unfold fs'. by rewrite (approve_extension_ok cfg d n1 n2 fs rid r). }
  split; [|split; [|split; [|split]]].
  - rewrite (approve_extension_ok cfg d n1 n2 fs rid r) by done.
    by eexists.
  - rewrite Hfs. cbn [requests_file]. by apply approve_request_found.
  - rewrite Hfs. unfold get_grant. simpl. by rewrite lookup_insert_eq.
  - exact (Hlimit d n1 n2 fs rid r Hkey Hrid Hfound).
  - intros d2 n3 n4 rid2 r2 Hkey2 Hrid2 Hfound2 Hsame uuid s Hs.
    rewrite <- Hsame in Hs.
    exact (Hlimit d2 n3 n4 fs' rid2 r2 Hkey2 Hrid2 Hfound2 uuid s Hs).
Qed.

(** The administrator grants five more questions to the session that
    asked: although its count stays at 20, its limit is now 25. *)
Lemma C3_five_more_questions :
  (get_max_queries_for_session
     Samples.cfg
     (approve_extension
        Samples.cfg (Samples.admin_body "abc12345_1767607200" (Some 5))
        "2026-01-05T11:00:00.000000" "2026-01-05T11:00:00.000050"
        Samples.files_requested).2
     "0f1e2d3c" Samples.session_requested).1
  = 25.
Proof.
  refine (proj1 (proj2 (proj2 (proj2
    (C3_approval_sets_the_limit
       Samples.cfg
       (mkAdminBody (Some "s3cret") (Some "abc12345_1767607200") (Some 5))
       "2026-01-05T11:00:00.000000" "2026-01-05T11:00:00.000050"
       Samples.files_requested "abc12345_1767607200"
       (written_record
          ("abc12345", "a@b.com", "2026-01-05T10:00:00.250000", 1767607200))
       _ _ _ _)))) "0f1e2d3c" Samples.session_requested _).
  - reflexivity.
  - reflexivity.
  - reflexivity.
  - vm_compute. reflexivity.
  - vm_compute. reflexivity.
Defined.

Lemma deny_request_split f rid now r before after :
  lines f = (before ++ r :: after)%list ->
  Forall (fun x => request_id x <> rid) before ->
  request_id r = rid ->
  lines (deny_request f rid now) = (before ++ mark_denied now r :: after)%list.
Proof.
  intros Hl Hbefore Hr.
  destruct (rewrite_record f rid (mark_denied now) r before after)
    as [_ Hupd]; [done|done|done|done|].
  destruct (Hupd (deny_request f rid now)) as [Hlines _]; [|done].
  by destruct f.
Qed.

(** C5. Denying request [rid], found in the ledger as record [r]: the call
    succeeds and names the session; in the ledger exactly that record (the
    first with this id) is rewritten, with status denied and its approval
    time set and every other field as before, all other records staying in
    place; the approvals file is untouched, so no approval entry appears
    and the limit of every session is what it was. *)
Theorem C5_denial_touches_one_record
        (cfg : Config) (d : AdminBody) (now : string) (fs : Files)
        (rid : string) (r : ExtensionRequest) :
  key_configured cfg = true ->
  ADMIN_RESET_KEY cfg = Some (sent_key d) ->
  body_request_id d = Some rid ->
  get_request_by_id (requests_file fs) rid = Some r ->
  let fs' := (deny_extension cfg (Some d) now fs).2 in
  (deny_extension cfg (Some d) now fs).1
  = AdminSuccess "Extension request denied" (session_id r)
  /\ (exists before after,
         lines (requests_file fs) = (before ++ r :: after)%list
         /\ Forall (fun x => request_id x <> rid) before
         /\ lines (requests_file fs')
            = (before
               ++ {| session_id := session_id r;
                     email := email r;
                     timestamp := timestamp r;
                     status := "denied";
                     queries_granted := queries_granted r;
                     approved_at := Some now;
                     request_id := request_id r |} :: after)%list)
  /\ approvals_file fs' = approvals_file fs
  /\ (forall sid, get_grant fs' sid = get_grant fs sid)
  /\ (forall sid, effective_limit cfg fs' sid = effective_limit cfg fs sid)
  /\ (forall uuid s,
         get_max_queries_for_session cfg fs' uuid s
         = get_max_queries_for_session cfg fs uuid s).
Proof.
  intros Hcfg Hkey Hrid Hfound fs'.
  assert (Hfs :
    fs' = mkFiles (deny_request (requests_file fs) rid now)
                  (approvals_file fs)).
  { unfold fs'. by rewrite (deny_extension_ok cfg d now fs rid r). }
  split; [|split; [|split; [|split; [|split]]]].
  - by rewrite (deny_extension_ok cfg d now fs rid r).
  - destruct (get_request_by_id_split _ _ _ Hfound)
      as (before & after & Hl & Hbefore & Hr).
    exists before, after. split; [done|]. split; [done|].
    rewrite Hfs. cbn [requests_file].
    by apply deny_request_split.
  - by rewrite Hfs.
  - intros sid. by rewrite Hfs.
  - intros sid. by rewrite Hfs.
  - intros uuid s. rewrite Hfs.
    unfold get_max_queries_for_session.
    by destruct (get_session_id uuid s).
Qed.

(** Denying the request of the session at its limit leaves that session's
    limit at the base value of 20. *)
Lemma C5_denied_session_keeps_its_limit :
  effective_limit Samples.cfg Samples.files_denied "abc12345"
  = effective_limit Samples.cfg Samples.files_requested "abc12345".
Proof.
  refine (proj1 (proj2 (proj2 (proj2 (proj2
    (C5_denial_touches_one_record
       Samples.cfg
       (mkAdminBody (Some "s3cret") (Some "abc12345_1767607200") None)
       "2026-01-05T11:00:00.000000"
       Samples.files_requested "abc12345_1767607200"
       (written_record
          ("abc12345", "a@b.com", "2026-01-05T10:00:00.250000", 1767607200))
       _ _ _ _))))) "abc12345").
  - reflexivity.
  - reflexivity.
  - reflexivity.
  - vm_compute. reflexivity.
Defined.

(** C8. For the approval and the denial call alike: without a configured
    secret the call is refused as not configured whatever body is sent; with
    a secret, the key of the body passes exactly when it is the same string,
    and any other key is refused as invalid; with the right key, a request
    id that the ledger does not hold is refused as not found; and in each of
    these cases the two ledgers are returned as they were. *)
Theorem C8_admin_errors_change_nothing
        (cfg : Config) (fs : Files) (n1 n2 : string) :
  (key_configured cfg = false ->
   forall data,
     approve_extension cfg data n1 n2 fs
     = (AdminError 403 "Extension approval not configured", fs)
     /\ deny_extension cfg data n1 fs
        = (AdminError 403 "Extension denial not configured", fs))
  /\ (key_configured cfg = true ->
      forall d,
        ADMIN_RESET_KEY cfg <> Some (sent_key d) ->
        approve_extension cfg (Some d) n1 n2 fs
        = (AdminError 403 "Invalid key", fs)
        /\ deny_extension cfg (Some d) n1 fs
           = (AdminError 403 "Invalid key", fs))
  /\ (key_configured cfg = true ->
      forall d,
        ADMIN_RESET_KEY cfg = Some (sent_key d) ->
        lookup_request fs (body_request_id d) = None ->
        approve_extension cfg (Some d) n1 n2 fs
        = (AdminError 404 "Request not found", fs)
        /\ deny_extension cfg (Some d) n1 fs
           = (AdminError 404 "Request not found", fs))
  /\ (forall key, key_matches cfg key = true <-> ADMIN_RESET_KEY cfg = Some key).
Proof.
  split; [|split; [|split]].
  - intros Hcfg data. unfold approve_extension, deny_extension.
    by rewrite Hcfg.
  - intros Hcfg d Hkey. apply key_mismatch in Hkey.
    unfold sent_key in Hkey.
    unfold approve_extension, deny_extension. by rewrite Hcfg, Hkey.
  - intros Hcfg d Hkey Hmissing. apply key_matches_iff in Hkey.
    unfold sent_key in Hkey.
    unfold approve_extension, deny_extension.
    rewrite Hcfg, Hkey, Hmissing. cbn [negb].
    by destruct (body_request_id d).
  - apply key_matches_iff.
Qed.

(** A call with a wrong key against the ledger that holds one pending
    request: refused, ledgers unchanged. *)
Lemma C8_wrong_key_is_refused :
  approve_extension
    Samples.cfg
    (Some (mkAdminBody (Some "S3cret") (Some "abc12345_1767607200") (Some 5)))
    "2026-01-05T11:00:00.000000" "2026-01-05T11:00:00.000050"
    Samples.files_requested
  = (AdminError 403 "Invalid key", Samples.files_requested)
  /\ deny_extension
       Samples.cfg
       (Some (mkAdminBody (Some "S3cret") (Some "abc12345_1767607200") (Some 5)))
       "2026-01-05T11:00:00.000000" Samples.files_requested
     = (AdminError 403 "Invalid key", Samples.files_requested).
Proof.
  refine (proj1 (proj2
    (C8_admin_errors_change_nothing
       Samples.cfg Samples.files_requested
       "2026-01-05T11:00:00.000000" "2026-01-05T11:00:00.000050")) _
    (mkAdminBody (Some "S3cret") (Some "abc12345_1767607200") (Some 5)) _).
  - reflexivity.
  - vm_compute. discriminate.
Defined.

(** C9. An approval whose body has no [queries_granted] entry is the same
    call as one that asks for 10: same response, same ledgers; when it
    succeeds, the ledger record and the approval entry both carry 10. *)
Theorem C9_default_grant_is_ten
        (cfg : Config) (key rid : option string) (n1 n2 : string)
        (fs : Files) :
  approve_extension cfg (Some (mkAdminBody key rid None)) n1 n2 fs
  = approve_extension cfg (Some (mkAdminBody key rid (Some 10))) n1 n2 fs
  /\ (forall rid' r,
         key_configured cfg = true ->
         ADMIN_RESET_KEY cfg = Some (default "" key) ->
         rid = Some rid' ->
         get_request_by_id (requests_file fs) rid' = Some r ->
         let fs' :=
           (approve_extension cfg (Some (mkAdminBody key rid None)) n1 n2 fs).2
         in
         (exists r', get_request_by_id (requests_file fs') rid' = Some r'
                     /\ status r' = "approved" /\ queries_granted r' = 10)
         /\ (exists grant, get_grant fs' (session_id r) = Some grant
                           /\ grant_queries_granted grant = 10)).
Proof.
  split; [done|].
  intros rid' r Hcfg Hkey -> Hfound fs'.
  assert (Hfs :
    fs' = mkFiles
            (approve_request (requests_file fs) rid' 10 n1)
            (Some (Approvals
                     (<[ session_id r := mkApprovalGrant 10 n2 rid' (email r) ]>
                        (current_approvals fs))))).
  { unfold fs'.
    by rewrite (approve_extension_ok cfg _ n1 n2 fs rid' r). }
  rewrite Hfs. split.
  - eexists. split; [by apply approve_request_found|done].
  - eexists. split.
    + unfold get_grant. simpl. apply lookup_insert_eq.
    + reflexivity.
Qed.

(** The administrator approves without saying how many: the session's
    approval entry carries 10. *)
Lemma C9_silent_approval_grants_ten :
  exists grant,
    get_grant
      (approve_extension
         Samples.cfg (Samples.admin_body "abc12345_1767607200" None)
         "2026-01-05T11:00:00.000000" "2026-01-05T11:00:00.000050"
         Samples.files_requested).2
      "abc12345"
    = Some grant
    /\ grant_queries_granted grant = 10.
Proof.
  refine (proj2 (proj2
    (C9_default_grant_is_ten
       Samples.cfg (Some "s3cret") (Some "abc12345_1767607200")
       "2026-01-05T11:00:00.000000" "2026-01-05T11:00:00.000050"
       Samples.files_requested)
    "abc12345_1767607200"
    (written_record
       ("abc12345", "a@b.com", "2026-01-05T10:00:00.250000", 1767607200))
    _ _ _ _)).
  - reflexivity.
  - reflexivity.
  - reflexivity.
  - vm_compute. reflexivity.
Defined.

End AdminFacts.

(** ** Claims about listing the ledger *)

Module ListingFacts.
Import Text ExtensionManager App Notions.
Import LedgerFacts.

Lemma create_all_spec items : forall f,
  (create_all f items).2 = map written_record items
  /\ lines (create_all f items).1
     = (lines f ++ map written_record items)%list.
Proof.
  induction items as [|[[[sid mail] now] epoch] items IH]; intros f.
  - simpl. by rewrite List.app_nil_r.
  - cbn [create_all map]. unfold create_request, written_record at 1 3.
    match goal with
    | |- context [create_all ?f1 items] =>
        specialize (IH f1); destruct (create_all f1 items) as [f2 requests]
    end.
    cbn [fst snd lines] in *. destruct IH as [-> ->]. split; [done|].
    by rewrite <- List.app_assoc.
Qed.

Lemma filter_everything {A} (l : list A) : List.filter (fun _ => true) l = l.
Proof. induction l as [|x l IH]; simpl; by rewrite ?IH. Qed.

Lemma get_all_requests_all f :
  get_all_requests f "all" = sort_newest_first (lines f).
Proof.
  destruct f as [l|]; [|done].
  unfold get_all_requests. cbn [String.eqb Ascii.eqb Bool.eqb orb lines].
  by rewrite filter_everything.
Qed.

Lemma get_all_requests_selects f status_filter :
  get_all_requests f status_filter
  ≡ₚ List.filter
       (fun data => String.eqb status_filter "all"
                    || String.eqb (status data) status_filter) (lines f).
Proof.
  destruct f as [l|]; [|done]. apply sort_newest_first_perm.
Qed.

Lemma get_pending_requests_selects f :
  get_pending_requests f
  ≡ₚ List.filter (fun data => String.eqb (status data) "pending") (lines f).
Proof.
  destruct f as [l|]; [|done]. apply sort_newest_first_perm.
Qed.

Lemma get_all_requests_sorted f status_filter :
  StronglySorted not_older (get_all_requests f status_filter).
Proof.
  destruct f as [l|]; [|constructor].
  apply sort_newest_first_strongly_sorted.
Qed.

Lemma get_pending_requests_sorted f :
  StronglySorted not_older (get_pending_requests f).
Proof.
  destruct f as [l|]; [|constructor].
  apply sort_newest_first_strongly_sorted.
Qed.

(** C6. Write N records with [create_request] into a new ledger. Each
    record returned carries exactly the fields given (pending, nothing
    granted, no approval time, the derived id). Reading the ledger back
    with the filter 'all' yields N records, the written ones up to order,
    and every record of the listing has a timestamp at least as large as
    every record after it (newest first, by the timestamp text). For any
    ledger and any filter, the filtered listing and the pending listing
    hold exactly the records they select, in the same newest-first
    order. *)
Theorem C6_listing_round_trip
        (items : list (string * string * string * Z))
        (f0 : ledger) (status_filter : string) :
  let f := (create_all None items).1 in
  let written := (create_all None items).2 in
  written = map written_record items
  /\ length (get_all_requests f "all") = length items
  /\ get_all_requests f "all" ≡ₚ written
  /\ StronglySorted not_older (get_all_requests f "all")
  /\ get_all_requests f0 status_filter
     ≡ₚ List.filter
          (fun data => String.eqb status_filter "all"
                       || String.eqb (status data) status_filter) (lines f0)
  /\ StronglySorted not_older (get_all_requests f0 status_filter)
  /\ get_pending_requests f0
     ≡ₚ List.filter (fun data => String.eqb (status data) "pending") (lines f0)
  /\ StronglySorted not_older (get_pending_requests f0).
Proof.
  intros f written.
  destruct (create_all_spec items None) as [Hwritten Hlines].
  fold f in Hlines. fold written in Hwritten. simpl in Hlines.
  assert (Hperm : get_all_requests f "all" ≡ₚ written).
  { rewrite get_all_requests_all, Hlines, Hwritten.
    apply sort_newest_first_perm. }
  split; [done|]. split.
  { rewrite Hperm, Hwritten. apply List.length_map. }
  split; [done|].
  split; [apply get_all_requests_sorted|].
  split; [apply get_all_requests_selects|].
  split; [apply get_all_requests_sorted|].
  split; [apply get_pending_requests_selects|].
  apply get_pending_requests_sorted.
Qed.

(** Three requests written out of time order come back newest first. *)
Example listing_three_requests :
  map timestamp
      (get_all_requests
         (create_all None
            [ ("aaaa1111", "a@x.org", "2026-01-05T10:00:00.250000", 1767607200);
              ("bbbb2222", "b@x.org", "2026-01-06T09:30:00", 1767691800);
              ("cccc3333", "c@x.org", "2026-01-05T10:00:00", 1767607200) ]).1
         "all")
  = [ "2026-01-06T09:30:00";
      "2026-01-05T10:00:00.250000";
      "2026-01-05T10:00:00" ].
Proof. vm_compute. reflexivity. Qed.

End ListingFacts.

(** ** The matcher against the meaning of its patterns *)

Module MatchFacts.
Import Text Regex EmailDetector Notions MatchSemantics.
Import TextFacts.

Lemma app_cons c s1 s2 : String c s1 +:+ s2 = String c (s1 +:+ s2).
Proof. reflexivity. Qed.

Lemma app_empty_l s : "" +:+ s = s.
Proof. reflexivity. Qed.

Lemma app_empty_r s : s +:+ "" = s.
Proof. induction s as [|c s IH]; [done|]. by rewrite app_cons, IH. Qed.

Lemma app_assoc s1 s2 s3 : (s1 +:+ s2) +:+ s3 = s1 +:+ (s2 +:+ s3).
Proof. induction s1 as [|c s1 IH]; [done|]. by rewrite !app_cons, IH. Qed.

Lemma length_app s1 s2 :
  String.length (s1 +:+ s2) = (String.length s1 + String.length s2)%nat.
Proof.
  induction s1 as [|c s1 IH]; [done|]. rewrite app_cons. simpl. by rewrite IH.
Qed.

Lemma take_app s1 s2 : take (String.length s1) (s1 +:+ s2) = s1.
Proof.
  unfold take. induction s1 as [|c s1 IH].
  - rewrite app_empty_l. by destruct s2.
  - rewrite app_cons. simpl. by rewrite IH.
Qed.

Lemma last_char_app prev s1 s2 :
  last_char prev (s1 +:+ s2) = last_char (last_char prev s1) s2.
Proof.
  revert prev. induction s1 as [|c s1 IH]; intros prev; [done|].
  rewrite app_cons. simpl. apply IH.
Qed.

Lemma all_chars_app p s1 s2 :
  all_chars p (s1 +:+ s2) = all_chars p s1 && all_chars p s2.
Proof.
  induction s1 as [|c s1 IH]; [done|].
  rewrite app_cons. simpl. rewrite IH. by rewrite andb_assoc.
Qed.

Lemma occurs_app c s1 s2 :
  occurs c (s1 +:+ s2) = occurs c s1 || occurs c s2.
Proof.
  induction s1 as [|x s1 IH]; [done|].
  rewrite app_cons. simpl. rewrite IH. by rewrite orb_assoc.
Qed.

(** *** Whatever the matcher returns is a match *)

Lemma many_sound ci p k rest : forall s least prev,
  many p least k prev s = Some rest ->
  exists pre post,
    s = pre +:+ post
    /\ matches ci (RMany p least) prev pre post
    /\ k (last_char prev pre) post = Some rest.
Proof.
  induction s as [|x s IH]; intros least prev; simpl.
  - destruct least; [|discriminate]. intros Hk.
    exists "", "". repeat split; [|done]. by constructor.
  - assert (Hstop :
      match least with O => k prev (String x s) | S _ => None end = Some rest
      -> exists pre post,
           String x s = pre +:+ post
           /\ matches ci (RMany p least) prev pre post
           /\ k (last_char prev pre) post = Some rest).
    { destruct least; [|discriminate]. intros Hk.
      exists "", (String x s). repeat split; [|done]. by constructor. }
    destruct (p x) eqn:Hp; [|exact Hstop].
    destruct (many p (Nat.pred least) k (Some x) s) as [rest'|] eqn:Hm;
      [|exact Hstop].
    intros [= ->]. apply IH in Hm as (pre & post & -> & Hpre & Hk).
    exists (String x pre), post. repeat split; [|done].
    inversion Hpre; subst. constructor; simpl; [by rewrite Hp|lia].
Qed.

Lemma rx_match_sound ci r : forall prev s k rest,
  rx_match ci r prev s k = Some rest ->
  exists pre post,
    s = pre +:+ post
    /\ matches ci r prev pre post
    /\ k (last_char prev pre) post = Some rest.
Proof.
  induction r as [|c|p| |r1 IH1 r2 IH2|r1 IH1 r2 IH2|r1 IH1|p least];
    intros prev s k rest; simpl.
  - intros Hk. exists "", s. repeat split; [constructor|done].
  - destruct s as [|x s]; [discriminate|].
    destruct (lit_eq ci c x) eqn:Hc; [|discriminate].
    intros Hk. exists (String x ""), s. repeat split; [by constructor|done].
  - destruct s as [|x s]; [discriminate|].
    destruct (p x) eqn:Hp; [|discriminate].
    intros Hk. exists (String x ""), s. repeat split; [by constructor|done].
  - destruct (xorb _ _) eqn:Hb; [|discriminate].
    intros Hk. exists "", s. repeat split; [by constructor|done].
  - intros H1. apply IH1 in H1 as (pre1 & post1 & -> & Hm1 & H2).
    apply IH2 in H2 as (pre2 & post & -> & Hm2 & Hk).
    exists (pre1 +:+ pre2), post. split; [by rewrite app_assoc|].
    split; [by constructor|]. by rewrite last_char_app.
  - destruct (rx_match ci r1 prev s k) as [rest'|] eqn:H1.
    + intros [= ->]. apply IH1 in H1 as (pre & post & -> & Hm & Hk).
      exists pre, post. repeat split; [|done]. by apply matches_alt_left.
    + intros H2. apply IH2 in H2 as (pre & post & -> & Hm & Hk).
      exists pre, post. repeat split; [|done]. by apply matches_alt_right.
  - destruct (rx_match ci r1 prev s k) as [rest'|] eqn:H1.
    + intros [= ->]. apply IH1 in H1 as (pre & post & -> & Hm & Hk).
      exists pre, post. repeat split; [|done]. by apply matches_opt_present.
    + intros Hk. exists "", s. repeat split; [|done].
      apply matches_opt_absent.
  - apply many_sound.
Qed.

Lemma match_here_sound ci r prev s n :
  match_here ci r prev s = Some n ->
  exists pre post,
    s = pre +:+ post /\ matches ci r prev pre post
    /\ n = String.length pre.
Proof.
  unfold match_here.
  destruct (rx_match ci r prev s _) as [rest|] eqn:Hm; [|discriminate].
  intros [= <-].
  apply rx_match_sound in Hm as (pre & post & -> & Hpre & [= ->]).
  exists pre, rest. repeat split; [done|].
  rewrite length_app. lia.
Qed.

Lemma first_match_sound ci r : forall s prev e,
  first_match ci r prev s = Some e ->
  exists before after,
    stands_in s before e after
    /\ matches ci r (last_char prev before) e after.
Proof.
  induction s as [|c s IH]; intros prev e; simpl.
  - destruct (match_here ci r prev "") as [n|] eqn:Hm; [|discriminate].
    intros [= <-].
    apply match_here_sound in Hm as (pre & post & Hs & Hpre & ->).
    destruct pre; [|discriminate]. destruct post; [|discriminate].
    exists "", "". split; [reflexivity|exact Hpre].
  - destruct (match_here ci r prev (String c s)) as [n|] eqn:Hm.
    + intros [= <-].
      apply match_here_sound in Hm as (pre & post & Hs & Hpre & ->).
      exists "", post. rewrite Hs, take_app.
    split; [reflexivity|exact Hpre].
    + intros Hf. apply IH in Hf as (before & after & -> & Hm').
      exists (String c before), after. split; [reflexivity|exact Hm'].
Qed.

(** *** Whatever matches, the matcher finds something *)

Lemma many_complete p k : forall pre least prev post rest,
  all_chars p pre = true ->
  (least <= String.length pre)%nat ->
  k (last_char prev pre) post = Some rest ->
  exists rest', many p least k prev (pre +:+ post) = Some rest'.
Proof.
  induction pre as [|x pre IH]; intros least prev post rest Hall Hlen Hk.
  - rewrite app_empty_l. simpl in *. assert (least = 0%nat) as -> by lia.
    destruct post as [|y post]; simpl; [by eexists|].
    destruct (p y); [|by eexists].
    destruct (many p 0 k (Some y) post); by eexists.
  - rewrite app_cons. simpl in *.
    apply andb_true_iff in Hall as [Hx Hall]. rewrite Hx.
    destruct (IH (Nat.pred least) (Some x) post rest Hall) as [rest' ->];
      [lia|done|]. by eexists.
Qed.

Lemma rx_match_complete ci r prev pre post :
  matches ci r prev pre post ->
  forall k rest,
    k (last_char prev pre) post = Some rest ->
    exists rest', rx_match ci r prev (pre +:+ post) k = Some rest'.
Proof.
  induction 1 as [prev post|c x prev post Hc|p x prev post Hp|prev post Hb
                 |r1 r2 prev pre1 pre2 post _ IH1 _ IH2
                 |r1 r2 prev pre post _ IH|r1 r2 prev pre post _ IH
                 |r prev pre post _ IH|r prev post
                 |p least prev pre post Hall Hlen];
    intros k rest Hk;
    rewrite ?app_cons, ?app_empty_l; cbn [rx_match last_char] in *.
  - by eexists.
  - rewrite Hc. by eexists.
  - rewrite Hp. by eexists.
  - rewrite Hb. by eexists.
  - rewrite last_char_app in Hk. rewrite app_assoc.
    destruct (IH2 k rest Hk) as [rest2 H2].
    exact (IH1 (fun prev' s' => rx_match ci r2 prev' s' k) rest2 H2).
  - destruct (IH k rest Hk) as [rest' ->]. by eexists.
  - destruct (rx_match ci r1 prev (pre +:+ post) k); [by eexists|].
    exact (IH k rest Hk).
  - destruct (IH k rest Hk) as [rest' ->]. by eexists.
  - destruct (rx_match ci r prev post k); by eexists.
  - by apply (many_complete p k pre least prev post rest).
Qed.

Lemma match_here_complete ci r prev pre post :
  matches ci r prev pre post ->
  exists n, match_here ci r prev (pre +:+ post) = Some n.
Proof.
  intros Hm. unfold match_here.
  destruct (rx_match_complete ci r prev pre post Hm
              (fun _ rest => Some rest) post eq_refl) as [rest ->].
  by eexists.
Qed.

Lemma first_match_complete ci r : forall before prev e after,
  matches ci r (last_char prev before) e after ->
  exists e', first_match ci r prev (before +:+ e +:+ after) = Some e'.
Proof.
  induction before as [|c before IH]; intros prev e after Hm.
  - simpl in Hm. apply match_here_complete in Hm as [n Hn].
    rewrite app_empty_l.
    destruct (e +:+ after) as [|x t] eqn:Hs; simpl; rewrite Hn; by eexists.
  - rewrite app_cons. cbn [first_match].
    destruct (match_here ci r prev _); [by eexists|].
    by apply IH.
Qed.

(** *** The match returned is the leftmost one *)

Lemma first_match_leftmost ci r : forall s prev e,
  first_match ci r prev s = Some e ->
  exists before after,
    stands_in s before e after
    /\ matches ci r (last_char prev before) e after
    /\ forall before' e' after',
         stands_in s before' e' after' ->
         matches ci r (last_char prev before') e' after' ->
         (String.length before <= String.length before')%nat.
Proof.
  induction s as [|c s IH]; intros prev e Hf.
  - apply first_match_sound in Hf as (before & after & Hin & Hm).
    unfold stands_in in Hin. destruct before; [|discriminate].
    exists "", after. split; [exact Hin|]. split; [exact Hm|].
    intros before' e' after' _ _. simpl. lia.
  - cbn [first_match] in Hf.
    destruct (match_here ci r prev (String c s)) as [n|] eqn:Hhere.
    + injection Hf as <-.
      apply match_here_sound in Hhere as (pre & post & Hs & Hpre & ->).
      exists "", post. rewrite Hs, take_app.
      split; [reflexivity|]. split; [exact Hpre|].
      intros before' e' after' _ _. simpl. lia.
    + apply IH in Hf as (before & after & Hin & Hm & Hleft).
      exists (String c before), after. unfold stands_in in *.
      split; [by rewrite Hin|]. split; [exact Hm|].
      intros before' e' after' Hin' Hm'.
      destruct before' as [|c' before'].
      * rewrite app_empty_l in Hin'. simpl in Hm'.
        apply match_here_complete in Hm' as [n Hn].
        rewrite <- Hin' in Hn. rewrite Hn in Hhere. discriminate.
      * rewrite app_cons in Hin'. injection Hin' as <- Hin'.
        simpl in Hm'. specialize (Hleft before' e' after' Hin' Hm').
        simpl. lia.
Qed.

End MatchFacts.

(** ** email_detector.py: what is found, and when *)

Module EmailFacts.
Import Text Regex EmailDetector Notions MatchSemantics TextNotions.
Import TextFacts MatchFacts.

Lemma lit_eq_exact c x : lit_eq false c x = true <-> x = c.
Proof.
  unfold lit_eq. rewrite Ascii.eqb_eq. split; by intros ->.
Qed.

(** The pattern [EMAIL_REGEX], read as a condition on a piece of text and
    its surroundings. *)
Lemma email_regex_matches prev e after :
  matches false EMAIL_REGEX prev e after <->
  address_shape e
  /\ word_boundary prev (e +:+ after) = true
  /\ word_boundary (last_char prev e) after = true.
Proof.
  unfold EMAIL_REGEX, address_shape, word_boundary. cbn [rx_cat]. split.
  - intros H. invert_matches.
    repeat match goal with
    | H : lit_eq false _ _ = true |- _ => apply lit_eq_exact in H; subst
    end.
    rewrite ?app_empty_l, ?app_empty_r in *.
    repeat match goal with
    | H : context [last_char _ (_ +:+ _)] |- _ => rewrite last_char_app in H
    end.
    rewrite ?app_assoc in *. cbn [last_char] in *.
    split; [|split].
    + eexists _, _, _. split; [reflexivity|]. by repeat split.
    + rewrite ?app_assoc. done.
    + rewrite !last_char_app. cbn [last_char]. done.
  - intros ((local & domain & tld & -> & Hl & Hln & Hd & Hdn & Ht & Htn)
            & Hb1 & Hb2).
    rewrite !last_char_app in Hb2. cbn [last_char] in Hb2.
    rewrite !app_assoc in Hb1.
    assert (Hm : matches false
      (RSeq RWordBoundary
         (RSeq (RMany local_char 1)
            (RSeq (RLit "@")
               (RSeq (RMany domain_char 1)
                  (RSeq (RLit ".")
                     (RSeq (RMany tld_char 2) (RSeq RWordBoundary REps)))))))
      prev
      ("" +:+ (local +:+ ("@" +:+ (domain +:+ ("." +:+ (tld +:+ ("" +:+ "")))))))
      after).
    { apply matches_seq.
      { constructor. rewrite ?app_assoc, ?app_empty_l. exact Hb1. }
      apply matches_seq; [by constructor|].
      apply matches_seq; [by constructor|].
      apply matches_seq; [by constructor|].
      apply matches_seq; [by constructor|].
      apply matches_seq; [by constructor|].
      apply matches_seq; [|constructor].
      constructor. rewrite !app_empty_l.
      rewrite ?last_char_app. cbn [last_char]. exact Hb2. }
    by rewrite !app_empty_l, app_empty_r in Hm.
Qed.

Lemma address_shape_facts e :
  address_shape e -> occurs "@" e = true /\ (6 <= String.length e)%nat.
Proof.
  intros (local & domain & tld & -> & _ & Hln & _ & Hdn & _ & Htn).
  split.
  - rewrite !occurs_app. cbn [occurs Ascii.eqb Bool.eqb].
    by rewrite !orb_true_r.
  - rewrite !length_app. simpl. lia.
Qed.

Lemma extracted_address_parts text e :
  extract_email text = Some e ->
  exists before after,
    text = before +:+ e +:+ after
    /\ address_shape e
    /\ word_boundary (last_char None before) (e +:+ after) = true
    /\ word_boundary (last_char None (before +:+ e)) after = true.
Proof.
  intros Hfound. unfold extract_email in Hfound.
  apply first_match_sound in Hfound as (before & after & Hin & Hm).
  apply email_regex_matches in Hm as (Hshape & Hb1 & Hb2).
  exists before, after. rewrite last_char_app. by repeat split.
Qed.

(** X1. In an ASCII text, an address that [extract_email] returns is a
    piece of the text; it has the shape local@domain.tld over the three
    character classes, with a top-level part of at least two characters,
    so it holds an at sign and at least six characters; and it lies
    between two word boundaries. The text is taken to be ASCII because
    Python's word boundary also counts the letters beyond ASCII. *)
Theorem extracted_ascii_address_is_well_formed (text e : string) :
  isascii text = true ->
  extract_email text = Some e ->
  exists before after,
    text = before +:+ e +:+ after
    /\ address_shape e
    /\ occurs "@" e = true
    /\ (6 <= String.length e)%nat
    /\ word_boundary (last_char None before) (e +:+ after) = true
    /\ word_boundary (last_char None (before +:+ e)) after = true.
Proof.
  intros _ Hfound.
  apply extracted_address_parts in Hfound
    as (before & after & Hin & Hshape & Hb1 & Hb2).
  destruct (address_shape_facts e Hshape) as [Hat Hlen].
  exists before, after. by repeat split.
Qed.

(** The address in a sentence of the specification. *)
Lemma ascii_address_in_a_sentence :
  exists before after,
    "contact me at a@b.com" = before +:+ "a@b.com" +:+ after
    /\ address_shape "a@b.com"
    /\ occurs "@" "a@b.com" = true
    /\ (6 <= String.length "a@b.com")%nat
    /\ word_boundary (last_char None before) ("a@b.com" +:+ after) = true
    /\ word_boundary (last_char None (before +:+ "a@b.com")) after = true.
Proof.
  apply (extracted_ascii_address_is_well_formed
           "contact me at a@b.com" "a@b.com").
  - vm_compute. reflexivity.
  - vm_compute. reflexivity.
Defined.

Lemma no_at_sign_no_match text :
  occurs "@" text = false ->
  forall before e after,
    text = before +:+ e +:+ after -> ~ address_shape e.
Proof.
  intros Hno before e after -> Hshape.
  apply address_shape_facts in Hshape as [Hat _].
  rewrite !occurs_app, Hat in Hno. by rewrite orb_true_r in Hno.
Qed.

(** X2. In an ASCII text, [extract_email] finds an address exactly when
    the text holds a piece of the shape local@domain.tld between two word
    boundaries; the address it returns starts at the leftmost position at
    which such a piece starts; and it finds nothing in a text without an
    at sign. The text is taken to be ASCII because Python's word boundary
    also counts the letters beyond ASCII. *)
Theorem extract_email_finds_the_leftmost_address (text : string) :
  isascii text = true ->
  ((exists e, extract_email text = Some e) <->
   (exists before e after,
       text = before +:+ e +:+ after
       /\ address_shape e
       /\ word_boundary (last_char None before) (e +:+ after) = true
       /\ word_boundary (last_char None (before +:+ e)) after = true))
  /\ (forall e,
         extract_email text = Some e ->
         exists before after,
           text = before +:+ e +:+ after
           /\ forall before' e' after',
                text = before' +:+ e' +:+ after' ->
                address_shape e' ->
                word_boundary (last_char None before') (e' +:+ after') = true ->
                word_boundary (last_char None (before' +:+ e')) after' = true ->
                (String.length before <= String.length before')%nat)
  /\ (occurs "@" text = false -> extract_email text = None).
Proof.
  intros _.
  assert (Hiff :
    (exists e, extract_email text = Some e) <->
    (exists before e after,
        text = before +:+ e +:+ after
        /\ address_shape e
        /\ word_boundary (last_char None before) (e +:+ after) = true
        /\ word_boundary (last_char None (before +:+ e)) after = true)).
  { split.
    - intros [e He].
      apply extracted_address_parts in He.
      destruct He as (before & after & Hin & Hshape & Hb1 & Hb2).
      by exists before, e, after.
    - intros (before & e & after & -> & Hshape & Hb1 & Hb2).
      rewrite last_char_app in Hb2. unfold extract_email.
      apply first_match_complete. by apply email_regex_matches. }
  split; [exact Hiff|]. split.
  - intros e He. unfold extract_email in He.
    apply first_match_leftmost in He as (before & after & Hin & _ & Hleft).
    exists before, after. split; [exact Hin|].
    intros before' e' after' Hin' Hshape Hb1 Hb2.
    apply (Hleft before' e' after' Hin').
    apply email_regex_matches. rewrite last_char_app in Hb2. by repeat split.
  - intros Hno. destruct (extract_email text) as [e|] eqn:He; [|done].
    destruct (proj1 Hiff (ex_intro _ e eq_refl))
      as (before & e' & after & Hin & Hshape & _).
    by destruct (no_at_sign_no_match text Hno before e' after Hin).
Qed.

(** A question without an at sign holds no address. *)
Lemma no_address_in_a_question :
  extract_email "What did Eric build at his last company?" = None.
Proof.
  refine (proj2 (proj2 (extract_email_finds_the_leftmost_address
                          "What did Eric build at his last company?" _)) _).
  - vm_compute. reflexivity.
  - vm_compute. reflexivity.
Defined.

(** X3. [is_valid_email] accepts an ASCII text exactly when the text
    begins with a piece of the shape local@domain.tld, at a word boundary
    and followed by one; whatever comes after that piece is not looked at.
    Every accepted text is one in which [extract_email] finds an address
    starting at the first character. The text is taken to be ASCII because
    Python's word boundary also counts the letters beyond ASCII. *)
Theorem is_valid_email_checks_an_ascii_prefix (text : string) :
  isascii text = true ->
  (is_valid_email text = true <->
   (exists e after,
       text = e +:+ after
       /\ address_shape e
       /\ word_boundary None text = true
       /\ word_boundary (last_char None e) after = true))
  /\ (is_valid_email text = true ->
      exists e after,
        text = e +:+ after /\ extract_email text = Some e
        /\ address_shape e).
Proof.
  intros _.
  unfold is_valid_email, extract_email. split; [split|].
  - destruct (match_here false EMAIL_REGEX None text) as [n|] eqn:Hm;
      [|discriminate].
    intros _. apply match_here_sound in Hm as (e & after & -> & Hm & _).
    apply email_regex_matches in Hm as (Hshape & Hb1 & Hb2).
    by exists e, after.
  - intros (e & after & -> & Hshape & Hb1 & Hb2).
    destruct (match_here_complete false EMAIL_REGEX None e after) as [n ->];
      [|done].
    by apply email_regex_matches.
  - destruct (match_here false EMAIL_REGEX None text) as [n|] eqn:Hm;
      [|discriminate].
    intros _. pose proof Hm as Hs.
    apply match_here_sound in Hs as (e & after & -> & Hmatch & ->).
    apply email_regex_matches in Hmatch as (Hshape & _).
    exists e, after. split; [done|]. split; [|done].
    destruct (e +:+ after) as [|c t] eqn:Htext;
      cbn [first_match]; rewrite Hm; by rewrite <- Htext, take_app.
Qed.

(** An address followed by more words is accepted, and the address is what
    [extract_email] finds in it. *)
Lemma address_with_a_tail_is_accepted :
  exists e after,
    "a@b.com and more" = e +:+ after
    /\ extract_email "a@b.com and more" = Some e
    /\ address_shape e.
Proof.
  refine (proj2 (is_valid_email_checks_an_ascii_prefix
                   "a@b.com and more" _) _).
  - vm_compute. reflexivity.
  - vm_compute. reflexivity.
Defined.

End EmailFacts.

(** ** Cleaning the message: strip and sanitize_input *)

Module SanitizeFacts.
Import Text Regex App Notions MatchSemantics TextNotions.
Import TextFacts MatchFacts.

Lemma rev_app_rev s1 s2 : String.rev_app s1 s2 = String.rev s1 +:+ s2.
Proof.
  unfold String.rev. revert s2.
  induction s1 as [|c s1 IH]; intros s2; [done|].
  cbn [String.rev_app]. rewrite (IH (String c s2)), (IH (String c "")).
  by rewrite app_assoc.
Qed.

Lemma rev_cons c s : String.rev (String c s) = String.rev s +:+ String c "".
Proof. unfold String.rev at 1. cbn [String.rev_app]. apply rev_app_rev. Qed.

Lemma rev_app s1 s2 :
  String.rev (s1 +:+ s2) = String.rev s2 +:+ String.rev s1.
Proof.
  induction s1 as [|c s1 IH].
  - by rewrite app_empty_l, app_empty_r.
  - by rewrite app_cons, !rev_cons, IH, app_assoc.
Qed.

Lemma rev_rev s : String.rev (String.rev s) = s.
Proof.
  induction s as [|c s IH]; [done|].
  by rewrite rev_cons, rev_app, IH.
Qed.

Lemma all_chars_rev p s : all_chars p (String.rev s) = all_chars p s.
Proof.
  induction s as [|c s IH]; [done|].
  rewrite rev_cons, all_chars_app, IH. simpl.
  rewrite andb_true_r. apply andb_comm.
Qed.

Lemma lstrip_split s :
  exists ws,
    s = ws +:+ lstrip s /\ all_chars py_isspace ws = true
    /\ starts_clean (lstrip s).
Proof.
  induction s as [|c s (ws & Hs & Hws & Hclean)]; simpl.
  - by exists "".
  - destruct (py_isspace c) eqn:Hc.
    + exists (String c ws). rewrite app_cons, <- Hs. simpl.
      by rewrite Hc, Hws.
    + by exists "".
Qed.

Lemma last_char_rev_cons c s : last_char None (String.rev (String c s)) = Some c.
Proof. by rewrite rev_cons, last_char_app. Qed.

Lemma rstrip_split s :
  exists ws,
    s = rstrip s +:+ ws /\ all_chars py_isspace ws = true
    /\ ends_clean (rstrip s).
Proof.
  unfold rstrip.
  destruct (lstrip_split (String.rev s)) as (ws & Hs & Hws & Hclean).
  exists (String.rev ws). split; [|split].
  - rewrite <- rev_app, <- Hs. by rewrite rev_rev.
  - by rewrite all_chars_rev.
  - unfold ends_clean.
    destruct (lstrip (String.rev s)) as [|c t]; [done|].
    by rewrite last_char_rev_cons.
Qed.

(** [strip] takes whitespace, and only whitespace, off both ends. *)
Lemma strip_split s :
  exists ws1 ws2,
    s = ws1 +:+ strip s +:+ ws2
    /\ all_chars py_isspace ws1 = true
    /\ all_chars py_isspace ws2 = true
    /\ starts_clean (strip s) /\ ends_clean (strip s).
Proof.
  unfold strip.
  destruct (lstrip_split s) as (ws1 & Hs & Hws1 & Hclean).
  destruct (rstrip_split (lstrip s)) as (ws2 & Ht & Hws2 & Hend).
  exists ws1, ws2. split; [by rewrite <- Ht|]. repeat split; [done|done| |done].
  destruct (rstrip (lstrip s)) as [|c t] eqn:Hr; [done|].
  rewrite Ht in Hclean. by rewrite app_cons in Hclean.
Qed.

(** *** Nothing is added *)

Lemma length_chars s : length (chars s) = String.length s.
Proof. unfold chars. induction s as [|c s IH]; simpl; congruence. Qed.

Lemma chars_app s1 s2 : chars (s1 +:+ s2) = (chars s1 ++ chars s2)%list.
Proof.
  unfold chars. induction s1 as [|c s1 IH]; [done|].
  rewrite app_cons. simpl. by rewrite IH.
Qed.

Lemma chars_take n s : chars (take n s) `sublist_of` chars s.
Proof.
  unfold take, chars. revert s.
  induction n as [|n IH]; intros [|c s]; simpl;
    first [ done | apply sublist_nil_l | by apply sublist_skip ].
Qed.

Lemma chars_py_slice_to n s : chars (py_slice_to n s) `sublist_of` chars s.
Proof. unfold py_slice_to. destruct (0 <=? n); apply chars_take. Qed.

Lemma chars_strip s : chars (strip s) `sublist_of` chars s.
Proof.
  destruct (strip_split s) as (ws1 & ws2 & Hs & _).
  rewrite Hs at 2. rewrite !chars_app.
  apply sublist_inserts_l, sublist_inserts_r. done.
Qed.

Lemma chars_sub_go ci r s : forall prev skip,
  chars (sub_go ci r prev s skip) `sublist_of` chars s.
Proof.
  induction s as [|c s IH]; intros prev skip; simpl; [done|].
  destruct skip as [|n].
  - destruct (match_here ci r prev (String c s)) as [[|n]|]; simpl;
      first [ by apply sublist_skip | by apply sublist_cons ].
  - by apply sublist_cons.
Qed.

Lemma chars_remove_all ci rs : forall s,
  chars (fold_left (fun s pattern => re_sub_empty ci pattern s) rs s)
  `sublist_of` chars s.
Proof.
  induction rs as [|r rs IH]; intros s; simpl; [done|].
  etransitivity; [apply IH|]. apply chars_sub_go.
Qed.

Lemma sanitize_input_clean cfg m :
  starts_clean (sanitize_input cfg m) /\ ends_clean (sanitize_input cfg m).
Proof.
  unfold sanitize_input. destruct (nonempty m); cbn [negb]; [|done].
  match goal with
  | |- context [strip ?t] =>
      destruct (strip_split t) as (_ & _ & _ & _ & _ & H1 & H2)
  end.
  by split.
Qed.

Lemma sanitize_input_sublist cfg m :
  chars (sanitize_input cfg m) `sublist_of` chars m.
Proof.
  unfold sanitize_input. destruct (nonempty m); cbn [negb].
  - etransitivity; [apply chars_strip|].
    etransitivity; [apply chars_remove_all|]. apply chars_py_slice_to.
  - apply sublist_nil_l.
Qed.

End SanitizeFacts.

(** ** More about the conversational call *)

Module ChatMore.
Import Text Regex EmailDetector ExtensionManager App Notions.
Import MatchSemantics TextNotions MoreNotions.
Import TextFacts LedgerFacts QuotaFacts RequestFacts ChatFacts SanitizeFacts.

(** X4. [sanitize_input] only removes: its result is the input with some
    characters deleted, none added or moved; it neither begins nor ends
    with whitespace; and when MAX_QUERY_LENGTH is not negative it has at
    most that many characters. *)
Theorem sanitize_input_only_removes (cfg : Config) (m : string) :
  chars (sanitize_input cfg m) `sublist_of` chars m
  /\ (String.length (sanitize_input cfg m) <= String.length m)%nat
  /\ starts_clean (sanitize_input cfg m)
  /\ ends_clean (sanitize_input cfg m)
  /\ (0 <= MAX_QUERY_LENGTH cfg ->
      Z.of_nat (String.length (sanitize_input cfg m)) <= MAX_QUERY_LENGTH cfg).
Proof.
  pose proof (sanitize_input_sublist cfg m) as Hsub.
  destruct (sanitize_input_clean cfg m) as [Hstart Hend].
  split; [done|]. split.
  { apply sublist_length in Hsub. by rewrite !length_chars in Hsub. }
  split; [done|]. split; [done|].
  apply sanitize_input_length.
Qed.

(** X5. With a MAX_QUERY_LENGTH that is not negative, [chat] never
    answers 'Message too long': the message it measures has already been
    cut to that length by [sanitize_input]. *)
Theorem chat_never_reports_a_long_message
        (cfg : Config) (env : ChatEnv) (data : option ChatBody)
        (s : Session) (fs : Files) :
  0 <= MAX_QUERY_LENGTH cfg ->
  forall n, response_of (chat cfg env data s fs) <> MessageTooLong n.
Proof. apply message_too_long_is_unreachable. Qed.

(** With the default limit of 500 characters, a message of 600 characters
    is not answered with 'Message too long'. *)
Lemma long_message_is_not_reported :
  response_of (chat Samples.cfg Samples.env
                    (Samples.body (repeat_char "a" 600))
                    Samples.session_fresh Samples.no_files)
  <> MessageTooLong 500.
Proof.
  apply (chat_never_reports_a_long_message
           Samples.cfg Samples.env (Samples.body (repeat_char "a" 600))
           Samples.session_fresh Samples.no_files).
  vm_compute. discriminate.
Defined.

(** *** The session after a call *)

Lemma converse_known cfg fs env msg s sid :
  sess_session_id s = Some sid ->
  converse cfg fs env msg s
  = match env_llm env with
    | PersonaRaises => (FailedToGetResponse, s, fs)
    | CompletionRaises =>
        (FailedToGetResponse, add_to_conversation "user" msg s, fs)
    | Completion reply =>
        (Answer reply (get_query_count s + 1) (max_queries_for cfg fs sid)
                (max_queries_for cfg fs sid - (get_query_count s + 1)),
         set_query_count
           (get_query_count s + 1)
           (add_to_conversation "assistant" reply
              (add_to_conversation "user" msg s)),
         fs)
    end.
Proof.
  intros Hsid. unfold converse.
  destruct (env_llm env) as [| |reply]; [done|done|].
  unfold increment_query_count, get_max_queries_for_session.
  rewrite (get_session_id_known _ _ sid) by done. done.
Qed.

Lemma filtered_known cfg fs uuid s sid :
  sess_session_id s = Some sid ->
  get_max_queries_for_session cfg fs uuid (increment_query_count s).2
  = (max_queries_for cfg fs sid, set_query_count (get_query_count s + 1) s).
Proof.
  intros Hsid. unfold increment_query_count, get_max_queries_for_session.
  by rewrite (get_session_id_known _ _ sid).
Qed.

Lemma session_of_holds_id env s :
  sess_session_id (get_session_id (env_uuid env) s).2
  = Some (session_of env s).
Proof.
  unfold session_of, get_session_id.
  by destruct (sess_session_id s) eqn:Hs.
Qed.

Lemma answer_call_session_id cfg fs env data s sid :
  sess_session_id s = Some sid ->
  sess_session_id (session_after (answer_call cfg fs env data s)) = Some sid.
Proof.
  intros Hsid.
  assert (Hconv : forall msg,
    sess_session_id (session_after (converse cfg fs env msg s)) = Some sid).
  { intros msg. rewrite (converse_known _ _ _ _ _ sid) by done.
    by destruct (env_llm env). }
  validation_cases data; classification_cases env Hconv.
  pose proof (filtered_known cfg fs (env_uuid env) s sid Hsid) as Hf.
  unfold increment_query_count in *. cbn [snd fst] in *.
  by rewrite Hf.
Qed.

Lemma limit_reached_session_id fs env data sid' count limit s sid :
  sess_session_id s = Some sid ->
  sess_session_id
    (session_after (limit_reached fs env data sid' count limit s))
  = Some sid.
Proof.
  intros Hsid. unfold limit_reached.
  by destruct (extension_email fs sid' data).
Qed.

Lemma chat_session_id cfg env data s fs :
  sess_session_id (session_after (chat cfg env data s fs))
  = Some (session_of env s).
Proof.
  pose proof (session_of_holds_id env s) as Hid.
  destruct (Z.le_gt_cases (limit_of cfg env s fs) (get_query_count s)).
  - rewrite chat_at_limit by done. by apply limit_reached_session_id.
  - rewrite chat_under_limit by lia. by apply answer_call_session_id.
Qed.

(** X6. A session is given its id once: after any call of [chat] the
    session holds an id, which is the one it came with, or the fresh one
    when it came with none; and every later call, whatever uuid would be
    drawn then, works with that same id. *)
Theorem session_id_is_assigned_once
        (cfg : Config) (env env' : ChatEnv) (data : option ChatBody)
        (s : Session) (fs : Files) :
  sess_session_id (session_after (chat cfg env data s fs))
  = Some (match sess_session_id s with
          | Some sid => sid
          | None => env_uuid env
          end)
  /\ session_of env' (session_after (chat cfg env data s fs))
     = session_of env s.
Proof.
  pose proof (chat_session_id cfg env data s fs) as Hid. split.
  - rewrite Hid. unfold session_of, get_session_id.
    by destruct (sess_session_id s).
  - unfold session_of at 1.
    by rewrite (get_session_id_known _ _ _ Hid).
Qed.

(** X7. [chat] never writes the approvals file and never rewrites or
    removes a ledger record: it leaves the ledger as it is or adds one
    record at its end, and below the limit it leaves both files alone. *)
Theorem chat_only_appends
        (cfg : Config) (env : ChatEnv) (data : option ChatBody)
        (s : Session) (fs : Files) :
  approvals_file (files_after (chat cfg env data s fs)) = approvals_file fs
  /\ (exists new,
         lines (requests_file (files_after (chat cfg env data s fs)))
         = (lines (requests_file fs) ++ new)%list
         /\ (length new <= 1)%nat
         /\ Forall (fun r => status r = "pending"
                             /\ session_id r = session_of env s) new)
  /\ (is_limit_response (response_of (chat cfg env data s fs)) = false ->
      files_after (chat cfg env data s fs) = fs).
Proof.
  rewrite chat_limit_response, chat_files.
  destruct (admitted _ _); cbn [negb].
  - split; [done|]. split; [|done].
    exists []. rewrite List.app_nil_r.
    split; [done|]. split; [simpl; lia|constructor].
  - destruct (extension_email _ _ _) as [e|].
    + split; [done|]. split; [|done].
      eexists. split; [done|]. split; [simpl; lia|].
      by repeat constructor.
    + split; [done|]. split; [|done].
      exists []. rewrite List.app_nil_r.
      split; [done|]. split; [simpl; lia|constructor].
Qed.

(** X8. The counters in a response are the stored ones. An answer or a
    filtered refusal reports the old count plus one, which is the count
    now in the session, the limit of the session, and their difference as
    the questions remaining, which is never negative; a limit response
    reports the unchanged count and a limit that the count has reached. *)
Theorem chat_reports_the_stored_count
        (cfg : Config) (env : ChatEnv) (data : option ChatBody)
        (s : Session) (fs : Files) :
  match response_of (chat cfg env data s fs) with
  | Filtered _ count limit remaining | Answer _ count limit remaining =>
      count = get_query_count s + 1
      /\ count = get_query_count (session_after (chat cfg env data s fs))
      /\ limit = limit_of cfg env s fs
      /\ remaining = limit - count
      /\ 0 <= remaining
  | ExtensionRequested _ count limit | LimitReached _ count limit =>
      count = get_query_count s
      /\ count = get_query_count (session_after (chat cfg env data s fs))
      /\ limit = limit_of cfg env s fs
      /\ limit <= count
  | _ => True
  end.
Proof.
  destruct (Z.le_gt_cases (limit_of cfg env s fs) (get_query_count s))
    as [Hle|Hgt].
  - rewrite chat_at_limit by done. unfold limit_reached.
    pose proof (get_query_count_session_id (env_uuid env) s) as Hc.
    destruct (extension_email _ _ _); simpl; by rewrite ?Hc.
  - rewrite chat_under_limit by lia.
    pose proof (session_of_holds_id env s) as Hid.
    pose proof (get_query_count_session_id (env_uuid env) s) as Hc.
    rewrite limit_of_eq in *.
    revert Hid Hc. generalize (get_session_id (env_uuid env) s).2.
    intros s1 Hid Hc.
    assert (Hconv : forall msg,
      match response_of (converse cfg fs env msg s1) with
      | Filtered _ count limit remaining | Answer _ count limit remaining =>
          count = get_query_count s + 1
          /\ count = get_query_count (session_after (converse cfg fs env msg s1))
          /\ limit = max_queries_for cfg fs (session_of env s)
          /\ remaining = limit - count
          /\ 0 <= remaining
      | ExtensionRequested _ count limit | LimitReached _ count limit =>
          count = get_query_count s
          /\ count = get_query_count (session_after (converse cfg fs env msg s1))
          /\ limit = max_queries_for cfg fs (session_of env s)
          /\ limit <= count
      | _ => True
      end).
    { intros msg. rewrite (converse_known _ _ _ _ _ _ Hid).
      destruct (env_llm env); simpl; [done|done|].
      rewrite Hc. repeat split; lia. }
    validation_cases data; classification_cases env Hconv.
    pose proof (filtered_known cfg fs (env_uuid env) s1 _ Hid) as Hf.
    unfold increment_query_count in *. cbn [fst snd] in *. rewrite Hf.
    simpl. rewrite Hc. repeat split; lia.
Qed.

Lemma converse_passing cfg fs env msg s :
  converse cfg fs (passing env) msg s = converse cfg fs env msg s.
Proof. done. Qed.

Lemma chat_passing cfg env data s fs :
  not_filtered env ->
  chat cfg env data s fs = chat cfg (passing env) data s fs.
Proof.
  intros Hnot. unfold chat. cbn [passing env_uuid].
  destruct (get_max_queries_for_session _ _ _ _) as [limit s1].
  destruct (limit <=? get_query_count s); [done|].
  assert (Hconv : forall msg,
    converse cfg fs env msg s1 = converse cfg fs (passing env) msg s1)
    by done.
  unfold answer_call.
  destruct data as [[[m|]]|]; [|done|done].
  destruct (nonempty (strip m)); [|done]. cbn [negb].
  destruct (nonempty (sanitize_input cfg (strip m))); [|done]. cbn [negb].
  destruct (MAX_QUERY_LENGTH cfg <? _); [done|].
  cbn [passing env_classify env_refusal String.eqb Ascii.eqb Bool.eqb].
  rewrite converse_passing.
  destruct Hnot as [->|[->|(scope & -> & Hscope)]].
  - by destruct (env_refusal env).
  - by destruct (env_classify env), (env_refusal env).
  - apply String.eqb_neq in Hscope. rewrite Hscope.
    by destruct (env_refusal env).
Qed.

(** X9. When the classifier does not filter the message (it raises, it
    returns any scope other than OUT_OF_SCOPE, or the refusal cannot be
    produced or logged), the call is in every respect the call of a message
    classified IN_SCOPE: same response, same session, same files. *)
Theorem unfiltered_call_is_an_in_scope_call
        (cfg : Config) (env : ChatEnv) (data : option ChatBody)
        (s : Session) (fs : Files) :
  not_filtered env ->
  chat cfg env data s fs = chat cfg (passing env) data s fs.
Proof. apply chat_passing. Qed.

(** A classifier that raises: the message is answered as if in scope. *)
Lemma classifier_error_is_answered :
  chat Samples.cfg
       (mkChatEnv "0f1e2d3c" "2026-01-05T10:00:00.250000" 1767607200
                  ClassifyRaises None (Completion "Eric has led teams."))
       (Samples.body "What has Eric built?")
       Samples.session_fresh Samples.no_files
  = chat Samples.cfg
         (mkChatEnv "0f1e2d3c" "2026-01-05T10:00:00.250000" 1767607200
                    (ClassifyScope "IN_SCOPE") None
                    (Completion "Eric has led teams."))
         (Samples.body "What has Eric built?")
         Samples.session_fresh Samples.no_files.
Proof.
  apply (unfiltered_call_is_an_in_scope_call
           Samples.cfg
           (mkChatEnv "0f1e2d3c" "2026-01-05T10:00:00.250000" 1767607200
                      ClassifyRaises None (Completion "Eric has led teams."))).
  by left.
Defined.

(** *** The transcript *)

Lemma add_to_conversation_history role content s :
  get_conversation_history (add_to_conversation role content s)
  = last_20 (get_conversation_history s ++ [(role, content)])%list.
Proof. done. Qed.

Lemma set_query_count_history v s :
  get_conversation_history (set_query_count v s) = get_conversation_history s.
Proof. done. Qed.

Lemma get_session_id_history uuid s :
  get_conversation_history (get_session_id uuid s).2
  = get_conversation_history s.
Proof. unfold get_session_id. by destruct (sess_session_id s). Qed.

Lemma last_20_length {A} (l : list A) :
  length (last_20 l) = Nat.min 20 (length l).
Proof. unfold last_20. rewrite length_drop. lia. Qed.

Lemma last_20_suffix {A} (l : list A) : last_20 l `suffix_of` l.
Proof. unfold last_20. apply suffix_drop. Qed.

Lemma last_20_last {A} (l : list A) (x : A) :
  last (last_20 (l ++ [x])%list) = Some x.
Proof.
  unfold last_20. rewrite drop_app_le.
  - apply last_snoc.
  - rewrite length_app. simpl. lia.
Qed.

Lemma chat_history_cases cfg env data s fs :
  let h := get_conversation_history s in
  let h' := get_conversation_history (session_after (chat cfg env data s fs)) in
  h' = h
  \/ (exists text, h' = last_20 (h ++ [("user", text)])%list)
  \/ (exists text reply,
        h' = last_20 (last_20 (h ++ [("user", text)])
                      ++ [("assistant", reply)])%list).
Proof.
  intros h h'. subst h h'.
  destruct (Z.le_gt_cases (limit_of cfg env s fs) (get_query_count s)).
  - left. rewrite chat_at_limit by done. unfold limit_reached.
    destruct (extension_email _ _ _); simpl;
      apply (get_session_id_history (env_uuid env) s).
  - rewrite chat_under_limit by lia.
    pose proof (session_of_holds_id env s) as Hid.
    rewrite <- (get_session_id_history (env_uuid env) s).
    revert Hid. generalize (get_session_id (env_uuid env) s).2.
    intros s1 Hid.
    assert (Hconv : forall msg,
      get_conversation_history (session_after (converse cfg fs env msg s1))
      = get_conversation_history s1
      \/ (exists text,
            get_conversation_history
              (session_after (converse cfg fs env msg s1))
            = last_20 (get_conversation_history s1 ++ [("user", text)])%list)
      \/ (exists text reply,
            get_conversation_history
              (session_after (converse cfg fs env msg s1))
            = last_20 (last_20 (get_conversation_history s1
                                ++ [("user", text)])
                       ++ [("assistant", reply)])%list)).
    { intros msg. rewrite (converse_known _ _ _ _ _ _ Hid).
      destruct (env_llm env) as [| |reply].
      - by left.
      - right. left. by exists msg.
      - right. right. by exists msg, reply. }
    unfold answer_call.
    destruct data as [[[m|]]|]; [|by left|by left].
    destruct (nonempty (strip m)); [|by left]. cbn [negb].
    generalize (sanitize_input cfg (strip m)). intros msg.
    destruct (nonempty msg); [|by left]. cbn [negb].
    destruct (MAX_QUERY_LENGTH cfg <? _); [by left|].
    classification_cases env Hconv.
    left.
    pose proof (filtered_known cfg fs (env_uuid env) s1 _ Hid) as Hf.
    unfold increment_query_count in *. cbn [fst snd] in *. by rewrite Hf.
Qed.

(** X10. The transcript is bounded. [add_to_conversation] keeps the end of
    the old transcript followed by the new entry, twenty entries at most,
    the new entry last; and after any call of [chat] the transcript has at
    most twenty entries, or no more than it had. *)
Theorem transcript_is_bounded
        (cfg : Config) (env : ChatEnv) (data : option ChatBody)
        (s : Session) (fs : Files) (role content : string) :
  let h := get_conversation_history s in
  let added := get_conversation_history (add_to_conversation role content s) in
  added `suffix_of` (h ++ [(role, content)])%list
  /\ length added = Nat.min 20 (length h + 1)
  /\ last added = Some (role, content)
  /\ (length (get_conversation_history
                (session_after (chat cfg env data s fs)))
      <= Nat.max 20 (length h))%nat.
Proof.
  intros h added. subst added. rewrite add_to_conversation_history.
  split; [apply last_20_suffix|].
  split; [by rewrite last_20_length, length_app|].
  split; [apply last_20_last|].
  destruct (chat_history_cases cfg env data s fs)
    as [->|[(text & ->)|(text & reply & ->)]].
  - fold h. lia.
  - rewrite last_20_length. lia.
  - rewrite last_20_length. lia.
Qed.

(** X11. A call that fails after the message was accepted (the completion
    or its log raises) is answered with status 500 and is not counted, the
    files are untouched, but the question is already in the transcript, as
    its last entry. *)
Theorem failed_call_keeps_the_question
        (cfg : Config) (env : ChatEnv) (data : option ChatBody)
        (s : Session) (fs : Files) (text : string) :
  get_query_count s < limit_of cfg env s fs ->
  0 <= MAX_QUERY_LENGTH cfg ->
  usable_message cfg data text ->
  not_filtered env ->
  env_llm env = CompletionRaises ->
  response_of (chat cfg env data s fs) = FailedToGetResponse
  /\ http_status (response_of (chat cfg env data s fs)) = 500
  /\ files_after (chat cfg env data s fs) = fs
  /\ get_query_count (session_after (chat cfg env data s fs))
     = get_query_count s
  /\ get_conversation_history (session_after (chat cfg env data s fs))
     = last_20 (get_conversation_history s ++ [("user", text)])%list
  /\ last (get_conversation_history (session_after (chat cfg env data s fs)))
     = Some ("user", text).
Proof.
  intros Hunder Hmax (m & -> & Hm & -> & Htext) Hnot Hllm.
  assert (Hchat :
    chat cfg env (Some (mkChatBody (Some m))) s fs
    = (FailedToGetResponse,
       add_to_conversation "user" (sanitize_input cfg (strip m))
                           (get_session_id (env_uuid env) s).2,
       fs)).
  { rewrite (chat_passing _ _ _ _ _ Hnot).
    rewrite chat_under_limit by done.
    unfold answer_call. rewrite Hm, Htext. cbn [negb].
    rewrite (proj2 (Z.ltb_ge _ _)) by (by apply sanitize_input_length).
    cbn [passing env_classify env_refusal String.eqb Ascii.eqb Bool.eqb].
    assert (Hc : converse cfg fs (passing env)
                   (sanitize_input cfg (strip m))
                   (get_session_id (env_uuid (passing env)) s).2
                 = (FailedToGetResponse,
                    add_to_conversation "user" (sanitize_input cfg (strip m))
                      (get_session_id (env_uuid env) s).2, fs)).
    { unfold converse. cbn [passing env_llm env_uuid]. by rewrite Hllm. }
    by destruct (env_refusal env). }
  rewrite Hchat. unfold response_of, files_after, session_after.
  cbn [fst snd].
  rewrite add_to_conversation_count, get_query_count_session_id.
  rewrite add_to_conversation_history, get_session_id_history.
  repeat split. apply last_20_last.
Qed.

(** The completion fails for a session with three questions asked. *)
Lemma failed_call_example :
  response_of
    (chat Samples.cfg
          (mkChatEnv "0f1e2d3c" "2026-01-05T10:00:00.250000" 1767607200
                     ClassifyRaises None CompletionRaises)
          (Samples.body " What has Eric built? ")
          Samples.session_fresh Samples.no_files)
  = FailedToGetResponse
  /\ get_conversation_history
       (session_after
          (chat Samples.cfg
                (mkChatEnv "0f1e2d3c" "2026-01-05T10:00:00.250000" 1767607200
                           ClassifyRaises None CompletionRaises)
                (Samples.body " What has Eric built? ")
                Samples.session_fresh Samples.no_files))
     = [("user", "What has Eric built?")].
Proof.
  destruct (failed_call_keeps_the_question
              Samples.cfg
              (mkChatEnv "0f1e2d3c" "2026-01-05T10:00:00.250000" 1767607200
                         ClassifyRaises None CompletionRaises)
              (Samples.body " What has Eric built? ")
              Samples.session_fresh Samples.no_files
              "What has Eric built?")
    as (Hr & _ & _ & _ & Hh & _).
  - vm_compute. reflexivity.
  - vm_compute. discriminate.
  - exists " What has Eric built? ". by vm_compute.
  - by left.
  - reflexivity.
  - split; [exact Hr|exact Hh].
Defined.

(** *** Asking twice *)

Lemma extension_email_pending fs sid data :
  has_pending_request (requests_file fs) sid = true ->
  extension_email fs sid data = None.
Proof.
  intros Hp. unfold extension_email.
  destruct data as [[[m|]]|]; [|done|done].
  destruct (extract_email (strip m)); [|done].
  by rewrite Hp, andb_false_r.
Qed.

Lemma has_pending_after_request f sid e now epoch :
  has_pending_request
    (Some (lines f ++ [written_record (sid, e, now, epoch)])%list) sid
  = true.
Proof.
  apply not_false_iff_true. rewrite has_pending_request_count.
  rewrite pending_count_written, String.eqb_refl. lia.
Qed.

(** Once a call has been answered 'extension requested', the next call of
    that session on any decoded body files nothing: it gets the plain
    limit response with the 'pending review' wording and the same
    counters, and the files stay as the first call left them, with the
    session's request pending. *)
Lemma second_request_is_suppressed
        (cfg : Config) (env env' : ChatEnv) (data data' : option ChatBody)
        (s : Session) (fs : Files) (msg : string) (count limit : Z) :
  response_of (chat cfg env data s fs) = ExtensionRequested msg count limit ->
  let s1 := session_after (chat cfg env data s fs) in
  let fs1 := files_after (chat cfg env data s fs) in
  has_pending_request (requests_file fs1) (session_of env s) = true
  /\ response_of (chat cfg env' data' s1 fs1)
     = LimitReached PENDING_REVIEW count limit
  /\ files_after (chat cfg env' data' s1 fs1) = fs1.
Proof.
  intros Hresp s1 fs1.
  assert (Hle : limit_of cfg env s fs <= get_query_count s).
  { pose proof (chat_limit_response cfg env data s fs) as Hr.
    rewrite Hresp in Hr. unfold admitted in Hr. simpl in Hr.
    symmetry in Hr. apply negb_true_iff, negb_false_iff in Hr.
    by apply Z.leb_le. }
  pose proof (session_of_holds_id env s) as Hid.
  pose proof (get_query_count_session_id (env_uuid env) s) as Hc.
  subst s1 fs1. revert Hresp.
  rewrite chat_at_limit by done. unfold limit_reached.
  destruct (extension_email fs (session_of env s) data) as [e|];
    [|discriminate].
  revert Hid Hc. generalize (get_session_id (env_uuid env) s).2.
  intros s0 Hid Hc. unfold response_of, session_after, files_after.
  cbn [create_request fst snd]. intros [= _ <- <-].
  set (s1 := set_extension_request_id _ (set_extension_requested true s0)).
  set (fs1 := mkFiles _ (approvals_file fs)).
  assert (Hid1 : sess_session_id s1 = Some (session_of env s)) by done.
  assert (Hpending :
    has_pending_request (requests_file fs1) (session_of env s) = true)
    by apply has_pending_after_request.
  assert (Hsid1 : session_of env' s1 = session_of env s).
  { unfold session_of at 1. by rewrite (get_session_id_known _ _ _ Hid1). }
  assert (Hlimit1 : limit_of cfg env' s1 fs1 = limit_of cfg env s fs).
  { by rewrite !limit_of_eq, Hsid1. }
  assert (Hc1 : get_query_count s1 = get_query_count s) by done.
  split; [done|].
  assert (Hchat :
    chat cfg env' data' s1 fs1
    = (LimitReached PENDING_REVIEW (get_query_count s)
                    (limit_of cfg env s fs), s1, fs1)).
  { rewrite chat_at_limit by (rewrite Hlimit1, Hc1; done).
    rewrite Hsid1, Hlimit1, Hc1.
    rewrite limit_reached_without_request
      by (by apply extension_email_pending).
    by rewrite (get_session_id_known _ _ _ Hid1). }
  by rewrite Hchat.
Qed.

(** The session that has just filed its request sends its address again. *)
Lemma second_request_example :
  response_of (chat Samples.cfg Samples.env
                    (Samples.body "again: a@b.com")
                    Samples.session_requested Samples.files_requested)
  = LimitReached PENDING_REVIEW 20 20
  /\ files_after (chat Samples.cfg Samples.env
                       (Samples.body "again: a@b.com")
                       Samples.session_requested Samples.files_requested)
     = Samples.files_requested.
Proof.
  refine (proj2 (second_request_is_suppressed
                   Samples.cfg Samples.env Samples.env
                   (Samples.body "contact me at a@b.com")
                   (Samples.body "again: a@b.com")
                   Samples.session_at_limit Samples.no_files
                   EXTENSION_RECEIVED 20 20 _)).
  vm_compute. reflexivity.
Defined.

End ChatMore.

(** ** More about the ledgers *)

Module LedgerMore.
Import Text ExtensionManager App Notions MoreNotions.
Import LedgerFacts QuotaFacts RequestFacts AdminFacts ChatMore.

(** *** Rewriting the first record with an id *)

Lemma update_first_identity test upd l :
  (forall r, identity (upd r) = identity r) ->
  map identity (update_first test upd l) = map identity l.
Proof.
  intros Hupd. induction l as [|x l IH]; simpl; [done|].
  destruct (test x); simpl; by rewrite ?Hupd, ?IH.
Qed.

Lemma update_first_none test upd l :
  List.find test l = None -> update_first test upd l = l.
Proof.
  induction l as [|x l IH]; simpl; [done|].
  destruct (test x); [discriminate|]. intros Hf. by rewrite IH.
Qed.

(** A lookup by id after the first record with id [rid] was rewritten. *)
Lemma find_update_first rid rid0 upd l :
  (forall r, request_id (upd r) = request_id r) ->
  List.find (has_id rid0) (update_first (has_id rid) upd l)
  = if String.eqb rid0 rid
    then option_map upd (List.find (has_id rid0) l)
    else List.find (has_id rid0) l.
Proof.
  intros Hupd. unfold has_id.
  destruct (String.eqb_spec rid0 rid) as [->|Hne].
  - induction l as [|x l IH]; simpl; [done|].
    destruct (String.eqb (request_id x) rid) eqn:Hx; simpl.
    + by rewrite Hupd, Hx.
    + by rewrite Hx, IH.
  - induction l as [|x l IH]; simpl; [done|].
    destruct (String.eqb (request_id x) rid) eqn:Hx; simpl.
    + rewrite Hupd. apply String.eqb_eq in Hx. subst rid.
      apply String.eqb_neq in Hne. rewrite String.eqb_sym in Hne.
      by rewrite Hne.
    + destruct (String.eqb (request_id x) rid0); [done|apply IH].
Qed.

Lemma get_request_by_id_approve f rid g now rid0 :
  get_request_by_id (approve_request f rid g now) rid0
  = if String.eqb rid0 rid
    then option_map (mark_approved g now) (get_request_by_id f rid0)
    else get_request_by_id f rid0.
Proof.
  destruct f as [l|]; simpl; [|by destruct (String.eqb rid0 rid)].
  by apply (find_update_first rid rid0 (mark_approved g now) l).
Qed.

Lemma get_request_by_id_deny f rid now rid0 :
  get_request_by_id (deny_request f rid now) rid0
  = if String.eqb rid0 rid
    then option_map (mark_denied now) (get_request_by_id f rid0)
    else get_request_by_id f rid0.
Proof.
  destruct f as [l|]; simpl; [|by destruct (String.eqb rid0 rid)].
  by apply (find_update_first rid rid0 (mark_denied now) l).
Qed.

Lemma find_app_found {A} (test : A -> bool) l k x :
  List.find test l = Some x -> List.find test (l ++ k) = Some x.
Proof.
  induction l as [|y l IH]; simpl; [done|].
  by destruct (test y).
Qed.

Lemma find_app_missing {A} (test : A -> bool) l k :
  List.find test l = None -> List.find test (l ++ k) = List.find test k.
Proof.
  induction l as [|y l IH]; simpl; [done|].
  by destruct (test y).
Qed.

(** X13. A denial that follows an approval of the same request does not
    take the grant back: the ledger record ends up denied, still carrying
    the granted number, the approval entry stays, and the session's limit
    stays the base limit plus the grant. *)
Theorem denial_after_approval_keeps_the_grant
        (cfg : Config) (d1 d2 : AdminBody) (n1 n2 n3 : string) (fs : Files)
        (rid : string) (r : ExtensionRequest) :
  key_configured cfg = true ->
  ADMIN_RESET_KEY cfg = Some (sent_key d1) ->
  ADMIN_RESET_KEY cfg = Some (sent_key d2) ->
  body_request_id d1 = Some rid ->
  body_request_id d2 = Some rid ->
  get_request_by_id (requests_file fs) rid = Some r ->
  let fs1 := (approve_extension cfg (Some d1) n1 n2 fs).2 in
  let fs2 := (deny_extension cfg (Some d2) n3 fs1).2 in
  (deny_extension cfg (Some d2) n3 fs1).1
  = AdminSuccess "Extension request denied" (session_id r)
  /\ (exists r',
         get_request_by_id (requests_file fs2) rid = Some r'
         /\ status r' = "denied"
         /\ queries_granted r' = sent_grant d1
         /\ approved_at r' = Some n3)
  /\ get_grant fs2 (session_id r)
     = Some (mkApprovalGrant (sent_grant d1) n2 rid (email r))
  /\ effective_limit cfg fs2 (session_id r)
     = MAX_QUERIES_PER_SESSION cfg + sent_grant d1.
Proof.
  intros Hcfg Hk1 Hk2 Hr1 Hr2 Hfound fs1 fs2.
  assert (Hfs1 :
    fs1 = mkFiles
            (approve_request (requests_file fs) rid (sent_grant d1) n1)
            (Some (Approvals
                     (<[ session_id r :=
                           mkApprovalGrant (sent_grant d1) n2 rid (email r) ]>
                        (current_approvals fs))))).
  { unfold fs1. by rewrite (approve_extension_ok cfg d1 n1 n2 fs rid r). }
  assert (Hfound1 :
    get_request_by_id (requests_file fs1) rid
    = Some (mark_approved (sent_grant d1) n1 r)).
  { rewrite Hfs1. by apply approve_request_found. }
  assert (Hdeny :
    deny_extension cfg (Some d2) n3 fs1
    = (AdminSuccess "Extension request denied" (session_id r),
       mkFiles (deny_request (requests_file fs1) rid n3)
               (approvals_file fs1))).
  { by rewrite (deny_extension_ok cfg d2 n3 fs1 rid _ Hcfg Hk2 Hr2 Hfound1). }
  subst fs2. rewrite Hdeny. cbn [fst snd requests_file].
  split; [done|]. split.
  { eexists. split.
    - rewrite get_request_by_id_deny, String.eqb_refl, Hfound1. reflexivity.
    - done. }
  assert (Hgrant :
    get_grant (mkFiles (deny_request (requests_file fs1) rid n3)
                       (approvals_file fs1)) (session_id r)
    = Some (mkApprovalGrant (sent_grant d1) n2 rid (email r))).
  { rewrite Hfs1. unfold get_grant. simpl. apply lookup_insert_eq. }
  split; [done|]. unfold effective_limit. by rewrite Hgrant.
Qed.

(** The request of the sample session is approved with five questions and
    then denied: its limit is still 25. *)
Lemma denial_after_approval_example :
  effective_limit
    Samples.cfg
    (deny_extension
       Samples.cfg (Samples.admin_body "abc12345_1767607200" None)
       "2026-01-05T13:00:00.000000"
       (approve_extension
          Samples.cfg (Samples.admin_body "abc12345_1767607200" (Some 5))
          "2026-01-05T11:00:00.000000" "2026-01-05T11:00:00.000050"
          Samples.files_requested).2).2
    "abc12345"
  = 25.
Proof.
  refine (proj2 (proj2 (proj2
    (denial_after_approval_keeps_the_grant
       Samples.cfg
       (mkAdminBody (Some "s3cret") (Some "abc12345_1767607200") (Some 5))
       (mkAdminBody (Some "s3cret") (Some "abc12345_1767607200") None)
       "2026-01-05T11:00:00.000000" "2026-01-05T11:00:00.000050"
       "2026-01-05T13:00:00.000000"
       Samples.files_requested "abc12345_1767607200"
       (written_record
          ("abc12345", "a@b.com", "2026-01-05T10:00:00.250000", 1767607200))
       _ _ _ _ _ _)))).
  all: reflexivity.
Defined.

(** X14. [approve_request] and [deny_request] keep every record in its
    place with its session id, address, timestamp and request id; they
    do not create the ledger file when it is missing; and for an id that
    no record carries they write the ledger back as it was. *)
Theorem status_updates_keep_the_records
        (f : ledger) (rid : string) (g : Z) (now : string) :
  map identity (lines (approve_request f rid g now)) = map identity (lines f)
  /\ map identity (lines (deny_request f rid now)) = map identity (lines f)
  /\ approve_request None rid g now = None
  /\ deny_request None rid now = None
  /\ (get_request_by_id f rid = None ->
      approve_request f rid g now = f /\ deny_request f rid now = f).
Proof.
  split; [|split; [|split; [done|split; [done|]]]].
  - destruct f as [l|]; [|done]. by apply update_first_identity.
  - destruct f as [l|]; [|done]. by apply update_first_identity.
  - destruct f as [l|]; [|done]. simpl. intros Hnone.
    by rewrite !update_first_none.
Qed.

(** *** What one step does to the files *)

Lemma step_cases cfg fs fs' :
  step cfg fs fs' ->
  fs' = fs
  \/ (exists sid e now epoch,
         has_pending_request (requests_file fs) sid = false
         /\ fs' = mkFiles
                    (Some (lines (requests_file fs)
                           ++ [written_record (sid, e, now, epoch)])%list)
                    (approvals_file fs))
  \/ (exists rid r g n1 n2,
         get_request_by_id (requests_file fs) rid = Some r
         /\ fs' = mkFiles
                    (approve_request (requests_file fs) rid g n1)
                    (Some (Approvals
                             (<[ session_id r :=
                                   mkApprovalGrant g n2 rid (email r) ]>
                                (current_approvals fs)))))
  \/ (exists rid r now,
         get_request_by_id (requests_file fs) rid = Some r
         /\ fs' = mkFiles (deny_request (requests_file fs) rid now)
                          (approvals_file fs)).
Proof.
  intros [env data s fs0|data n1 n2 fs0|data now fs0].
  - rewrite chat_files. destruct (admitted _ _); [by left|].
    destruct (extension_email _ _ _) as [e|] eqn:He; [|by left].
    right. left. apply extension_email_some in He. by eexists _, _, _, _.
  - unfold approve_extension.
    destruct (key_configured cfg); [|by left]. cbn [negb].
    destruct data as [d|]; [|by left].
    destruct (key_matches cfg _); [|by left]. cbn [negb].
    destruct (body_request_id d) as [rid|]; [|by left].
    cbn [lookup_request].
    destruct (get_request_by_id (requests_file fs0) rid) as [r|] eqn:Hr;
      [|by left].
    right. right. left. exists rid, r. eexists _, _, _. split; [done|].
    unfold current_approvals. cbn [snd].
    by destruct (approvals_file fs0) as [[|m]|].
  - unfold deny_extension.
    destruct (key_configured cfg); [|by left]. cbn [negb].
    destruct data as [d|]; [|by left].
    destruct (key_matches cfg _); [|by left]. cbn [negb].
    destruct (body_request_id d) as [rid|]; [|by left].
    cbn [lookup_request].
    destruct (get_request_by_id (requests_file fs0) rid) as [r|] eqn:Hr;
      [|by left].
    right. right. right. by exists rid, r, now.
Qed.

Lemma mark_approved_identity g now r :
  identity (mark_approved g now r) = identity r.
Proof. done. Qed.

Lemma mark_denied_identity now r : identity (mark_denied now r) = identity r.
Proof. done. Qed.

Lemma step_history cfg fs fs' :
  step cfg fs fs' ->
  map identity (lines (requests_file fs))
  `prefix_of` map identity (lines (requests_file fs')).
Proof.
  intros Hstep.
  destruct (step_cases cfg fs fs' Hstep)
    as [->|[(sid & e & now & epoch & _ & ->)
           |[(rid & r & g & n1 & n2 & _ & ->)|(rid & r & now & _ & ->)]]];
    cbn [requests_file lines].
  - done.
  - rewrite map_app. by apply prefix_app_r.
  - destruct (requests_file fs) as [l|]; [|done]. simpl.
    rewrite update_first_identity; [done|apply mark_approved_identity].
  - destruct (requests_file fs) as [l|]; [|done]. simpl.
    rewrite update_first_identity; [done|apply mark_denied_identity].
Qed.

(** X15. No sequence of chat, approval and denial calls deletes, moves or
    re-identifies a request: across any such sequence the session ids,
    addresses, timestamps and request ids of the old ledger, in order, are
    the beginning of those of the new ledger. *)
Theorem ledger_history_only_grows (cfg : Config) (fs fs' : Files) :
  rtc (step cfg) fs fs' ->
  map identity (lines (requests_file fs))
  `prefix_of` map identity (lines (requests_file fs'))
  /\ (length (lines (requests_file fs))
      <= length (lines (requests_file fs')))%nat.
Proof.
  intros Hsteps.
  assert (Hprefix :
    map identity (lines (requests_file fs))
    `prefix_of` map identity (lines (requests_file fs'))).
  { induction Hsteps as [fs|fs fs1 fs2 Hstep _ IH]; [done|].
    etransitivity; [by apply (step_history cfg fs fs1)|exact IH]. }
  split; [done|].
  apply prefix_length in Hprefix. by rewrite !length_map in Hprefix.
Qed.

(** After a request and its denial, the first request is still the first
    record of the ledger. *)
Lemma ledger_history_example :
  map identity (lines (requests_file Samples.files_requested))
  `prefix_of` map identity (lines (requests_file Samples.files_denied))
  /\ (length (lines (requests_file Samples.files_requested))
      <= length (lines (requests_file Samples.files_denied)))%nat.
Proof.
  apply (ledger_history_only_grows Samples.cfg).
  eapply rtc_l; [|apply rtc_refl].
  apply (step_deny Samples.cfg
           (Samples.admin_body "abc12345_1767607200" None)
           "2026-01-05T11:00:00.000000" Samples.files_requested).
Defined.

(** *** Records are well formed *)

Lemma written_record_well_formed item :
  well_formed (written_record item) /\ derived_id (written_record item).
Proof.
  destruct item as [[[sid e] now] epoch]. split.
  - by left.
  - by exists epoch.
Qed.

Lemma Forall_update_first (P : ExtensionRequest -> Prop) test upd l :
  (forall r, P r -> P (upd r)) ->
  Forall P l -> Forall P (update_first test upd l).
Proof.
  intros Hupd Hl. induction Hl as [|x l Hx Hl IH]; simpl; [done|].
  destruct (test x); constructor; auto.
Qed.

Lemma step_well_formed cfg fs fs' :
  step cfg fs fs' ->
  Forall (fun r => well_formed r /\ derived_id r) (lines (requests_file fs)) ->
  Forall (fun r => well_formed r /\ derived_id r) (lines (requests_file fs')).
Proof.
  intros Hstep Hinv.
  destruct (step_cases cfg fs fs' Hstep)
    as [->|[(sid & e & now & epoch & _ & ->)
           |[(rid & r & g & n1 & n2 & _ & ->)|(rid & r & now & _ & ->)]]];
    cbn [requests_file lines].
  - done.
  - apply Forall_app. split; [done|].
    constructor; [apply written_record_well_formed|constructor].
  - destruct (requests_file fs) as [l|]; [|done]. simpl in *.
    apply Forall_update_first; [|done].
    intros x [_ Hid]. split; [right; split; [by left|done]|exact Hid].
  - destruct (requests_file fs) as [l|]; [|done]. simpl in *.
    apply Forall_update_first; [|done].
    intros x [_ Hid]. split; [right; split; [by right|done]|exact Hid].
Qed.

(** X16. In every state reached from an empty log directory each ledger
    record is in one of the states the code writes: pending with nothing
    granted and no approval time, or approved or denied with an approval
    time; and its request id is its session id, an underscore and a
    number. *)
Theorem reachable_records_are_well_formed (cfg : Config) (fs : Files) :
  reachable cfg fs ->
  forall r, In r (lines (requests_file fs)) ->
            well_formed r /\ derived_id r.
Proof.
  intros Hreach.
  assert (Hall :
    Forall (fun r => well_formed r /\ derived_id r) (lines (requests_file fs))).
  { induction Hreach as [|fs fs' _ IH Hstep]; [constructor|].
    by apply (step_well_formed cfg fs fs'). }
  intros r Hin. rewrite Forall_forall in Hall. apply Hall.
  by apply list_elem_of_In.
Qed.

Lemma requested_is_reachable : reachable Samples.cfg Samples.files_requested.
Proof.
  eapply reachable_step; [apply reachable_start|].
  apply (step_chat Samples.cfg Samples.env
           (Samples.body "contact me at a@b.com")
           Samples.session_at_limit Samples.no_files).
Qed.

Lemma denied_is_reachable : reachable Samples.cfg Samples.files_denied.
Proof.
  eapply reachable_step; [apply requested_is_reachable|].
  apply (step_deny Samples.cfg
           (Samples.admin_body "abc12345_1767607200" None)
           "2026-01-05T11:00:00.000000" Samples.files_requested).
Qed.

(** The denied request of the sample session is well formed. *)
Lemma denied_record_is_well_formed :
  well_formed
    {| session_id := "abc12345"; email := "a@b.com";
       timestamp := "2026-01-05T10:00:00.250000"; status := "denied";
       queries_granted := 0;
       approved_at := Some "2026-01-05T11:00:00.000000";
       request_id := "abc12345_1767607200" |}
  /\ derived_id
       {| session_id := "abc12345"; email := "a@b.com";
          timestamp := "2026-01-05T10:00:00.250000"; status := "denied";
          queries_granted := 0;
          approved_at := Some "2026-01-05T11:00:00.000000";
          request_id := "abc12345_1767607200" |}.
Proof.
  apply (reachable_records_are_well_formed
           Samples.cfg Samples.files_denied denied_is_reachable).
  vm_compute. by left.
Defined.

(** *** Grants are backed by the ledger *)

Lemma backed_by_append f sid grant new :
  backed_by f sid grant ->
  backed_by (Some (lines f ++ [new])%list) sid grant.
Proof.
  intros (r & Hfound & Hr). exists r. split; [|done].
  destruct f as [l|]; [|done]. simpl in *. by apply find_app_found.
Qed.

Lemma backed_by_approve f rid g now sid grant :
  backed_by f sid grant ->
  backed_by (approve_request f rid g now) sid grant.
Proof.
  intros (r & Hfound & Hsid & Hmail & Hst). unfold backed_by.
  rewrite get_request_by_id_approve, Hfound.
  destruct (String.eqb _ rid); simpl; eexists;
    (split; [reflexivity|]); by repeat split.
Qed.

Lemma backed_by_deny f rid now sid grant :
  backed_by f sid grant ->
  backed_by (deny_request f rid now) sid grant.
Proof.
  intros (r & Hfound & Hsid & Hmail & Hst). unfold backed_by.
  rewrite get_request_by_id_deny, Hfound.
  destruct (String.eqb _ rid); simpl; eexists;
    (split; [reflexivity|]); by repeat split.
Qed.

Lemma current_approvals_backed fs sid grant :
  approvals_backed fs ->
  current_approvals fs !! sid = Some grant ->
  backed_by (requests_file fs) sid grant.
Proof.
  unfold approvals_backed, current_approvals.
  destruct (approvals_file fs) as [[|m]|]; [done|by auto|].
  intros _. by rewrite lookup_empty.
Qed.

Lemma step_approvals_backed cfg fs fs' :
  step cfg fs fs' -> approvals_backed fs -> approvals_backed fs'.
Proof.
  intros Hstep Hinv.
  destruct (step_cases cfg fs fs' Hstep)
    as [->|[(sid & e & now & epoch & _ & ->)
           |[(rid & r & g & n1 & n2 & Hfound & ->)
            |(rid & r & now & _ & ->)]]].
  - done.
  - unfold approvals_backed in *. cbn [approvals_file requests_file].
    destruct (approvals_file fs) as [[|m]|]; [done| |done].
    intros sid' grant Hm. by apply backed_by_append, Hinv.
  - unfold approvals_backed. cbn [approvals_file requests_file].
    intros sid' grant.
    destruct (decide (session_id r = sid')) as [<-|Hne].
    + rewrite lookup_insert_eq. intros [= <-].
      exists (mark_approved g n1 r). split; [|done].
      by apply approve_request_found.
    + rewrite lookup_insert_ne by done. intros Hm.
      by apply backed_by_approve, current_approvals_backed.
  - unfold approvals_backed in *. cbn [approvals_file requests_file].
    destruct (approvals_file fs) as [[|m]|]; [done| |done].
    intros sid' grant Hm. by apply backed_by_deny, Hinv.
Qed.

(** X17. In every state reached from an empty log directory the approvals
    file, when there is one, is a readable object, and each of its entries
    is backed by the ledger: the record found under the entry's request id
    belongs to the session the entry is stored for, carries the entry's
    address, and is not pending. *)
Theorem reachable_grants_are_backed (cfg : Config) (fs : Files) :
  reachable cfg fs ->
  approvals_file fs <> Some Unreadable
  /\ (forall sid grant,
         get_grant fs sid = Some grant ->
         exists r,
           get_request_by_id (requests_file fs) (grant_request_id grant)
           = Some r
           /\ session_id r = sid
           /\ email r = grant_email grant
           /\ status r <> "pending").
Proof.
  intros Hreach.
  assert (Hinv : approvals_backed fs).
  { induction Hreach as [|fs fs' _ IH Hstep]; [done|].
    by apply (step_approvals_backed cfg fs fs'). }
  unfold approvals_backed, get_grant in *.
  destruct (approvals_file fs) as [[|m]|]; [done| |done].
  split; [done|]. intros sid grant Hm. by apply Hinv.
Qed.

Lemma approved_is_reachable :
  reachable Samples.cfg
    (approve_extension
       Samples.cfg (Samples.admin_body "abc12345_1767607200" (Some 5))
       "2026-01-05T11:00:00.000000" "2026-01-05T11:00:00.000050"
       Samples.files_requested).2.
Proof.
  eapply reachable_step; [apply requested_is_reachable|].
  apply step_approve.
Qed.

(** After the approval of the sample request, the approvals file is
    readable and its entries are backed. *)
Lemma approved_grant_is_backed :
  approvals_file
    (approve_extension
       Samples.cfg (Samples.admin_body "abc12345_1767607200" (Some 5))
       "2026-01-05T11:00:00.000000" "2026-01-05T11:00:00.000050"
       Samples.files_requested).2
  <> Some Unreadable
  /\ (forall sid grant,
         get_grant
           (approve_extension
              Samples.cfg (Samples.admin_body "abc12345_1767607200" (Some 5))
              "2026-01-05T11:00:00.000000" "2026-01-05T11:00:00.000050"
              Samples.files_requested).2 sid
         = Some grant ->
         exists r,
           get_request_by_id
             (requests_file
                (approve_extension
                   Samples.cfg
                   (Samples.admin_body "abc12345_1767607200" (Some 5))
                   "2026-01-05T11:00:00.000000" "2026-01-05T11:00:00.000050"
                   Samples.files_requested).2)
             (grant_request_id grant)
           = Some r
           /\ session_id r = sid
           /\ email r = grant_email grant
           /\ status r <> "pending").
Proof.
  exact (reachable_grants_are_backed Samples.cfg _ approved_is_reachable).
Defined.

(** *** A record behind another with the same id *)

Lemma update_first_lookup_other test upd (l : list ExtensionRequest) i r :
  l !! i = Some r -> test r = false ->
  update_first test upd l !! i = Some r.
Proof.
  revert i. induction l as [|x l IH]; intros [|i]; simpl; try done.
  - intros [= ->] Hr. by rewrite Hr.
  - intros Hi Hr. destruct (test x); simpl; [done|by apply IH].
Qed.

Lemma update_first_lookup_behind test upd (l : list ExtensionRequest) j i r0 :
  l !! j = Some r0 -> test r0 = true -> (j < i)%nat ->
  update_first test upd l !! i = l !! i.
Proof.
  revert j i. induction l as [|x l IH]; intros j i; [done|].
  destruct i as [|i]; [lia|]. simpl.
  destruct (test x) eqn:Hx; [done|].
  destruct j as [|j]; simpl.
  - intros [= ->] Hr0. congruence.
  - intros Hj Hr0 Hlt. apply (IH j i); [done|done|lia].
Qed.

Lemma update_first_lookup_id test upd (l : list ExtensionRequest) j :
  (forall x, request_id (upd x) = request_id x) ->
  request_id <$> (update_first test upd l !! j) = request_id <$> (l !! j).
Proof.
  intros Hupd. revert j. induction l as [|x l IH]; intros j; [done|].
  simpl. destruct (test x); destruct j as [|j]; simpl;
    by rewrite ?Hupd, ?IH.
Qed.

Lemma update_first_shadowed rid upd (l : list ExtensionRequest) i r :
  (forall x, request_id (upd x) = request_id x) ->
  l !! i = Some r -> shadowed l i ->
  update_first (has_id rid) upd l !! i = Some r
  /\ shadowed (update_first (has_id rid) upd l) i.
Proof.
  intros Hupd Hi (j & r0 & r' & Hlt & Hj & Hi' & Hsame).
  assert (r' = r) as -> by congruence.
  assert (Hkept : update_first (has_id rid) upd l !! i = Some r).
  { destruct (has_id rid r) eqn:Hr.
    - rewrite <- Hi. apply (update_first_lookup_behind _ _ _ j i r0);
        [done| |done].
      unfold has_id in *. by rewrite Hsame.
    - by apply update_first_lookup_other. }
  split; [done|].
  pose proof (update_first_lookup_id (has_id rid) upd l j Hupd) as Hid.
  rewrite Hj in Hid. simpl in Hid.
  destruct (update_first (has_id rid) upd l !! j) as [r0'|] eqn:Hj';
    [|discriminate].
  injection Hid as Hid. exists j, r0', r.
  split; [done|]. split; [done|]. split; [done|]. congruence.
Qed.

Lemma step_shadowed cfg fs fs' i r :
  step cfg fs fs' ->
  lines (requests_file fs) !! i = Some r ->
  shadowed (lines (requests_file fs)) i ->
  lines (requests_file fs') !! i = Some r
  /\ shadowed (lines (requests_file fs')) i.
Proof.
  intros Hstep Hi Hsh.
  destruct (step_cases cfg fs fs' Hstep)
    as [->|[(sid & e & now & epoch & _ & ->)
           |[(rid & r1 & g & n1 & n2 & _ & ->)|(rid & r1 & now & _ & ->)]]];
    cbn [requests_file lines].
  - done.
  - split; [by apply lookup_app_l_Some|].
    destruct Hsh as (j & r0 & r' & Hlt & Hj & Hi' & Hsame).
    exists j, r0, r'.
    split; [done|]. split; [by apply lookup_app_l_Some|].
    split; [by apply lookup_app_l_Some|done].
  - destruct (requests_file fs) as [l|]; [|done]. simpl in *.
    by apply (update_first_shadowed rid).
  - destruct (requests_file fs) as [l|]; [|done]. simpl in *.
    by apply (update_first_shadowed rid).
Qed.

(** X18. Approval and denial reach only the first record with a given
    request id. A record that stands behind an earlier record with the
    same id is never changed by any sequence of chat, approval and denial
    calls; if it is pending it stays pending, so its session is refused
    every further request. *)
Theorem shadowed_request_is_out_of_reach
        (cfg : Config) (fs fs' : Files) (i : nat) (r : ExtensionRequest) :
  rtc (step cfg) fs fs' ->
  lines (requests_file fs) !! i = Some r ->
  shadowed (lines (requests_file fs)) i ->
  lines (requests_file fs') !! i = Some r
  /\ shadowed (lines (requests_file fs')) i
  /\ (status r = "pending" ->
      has_pending_request (requests_file fs') (session_id r) = true).
Proof.
  intros Hsteps Hi Hsh.
  assert (Hkept :
    lines (requests_file fs') !! i = Some r
    /\ shadowed (lines (requests_file fs')) i).
  { induction Hsteps as [fs|fs fs1 fs2 Hstep _ IH]; [done|].
    destruct (step_shadowed cfg fs fs1 i r Hstep Hi Hsh) as [Hi1 Hsh1].
    by apply IH. }
  destruct Hkept as [Hi' Hsh']. split; [done|]. split; [done|].
  intros Hpending. apply has_pending_request_true.
  exists r. split; [|done].
  apply list_elem_of_In. by apply list_elem_of_lookup_2 with i.
Qed.

(** The session whose request was denied asks again within the same
    second, and the administrator approves the shared id: the approval
    lands on the denied record, the new request stays pending. *)
Lemma shadowed_request_example :
  lines (requests_file MoreSamples.files_collision_approved) !! 1%nat
  = Some {| session_id := "abc12345"; email := "a@b.com";
            timestamp := "2026-01-05T10:00:00.250000"; status := "pending";
            queries_granted := 0; approved_at := None;
            request_id := "abc12345_1767607200" |}
  /\ has_pending_request
       (requests_file MoreSamples.files_collision_approved) "abc12345"
     = true.
Proof.
  destruct (shadowed_request_is_out_of_reach
              Samples.cfg MoreSamples.files_collision
              MoreSamples.files_collision_approved 1
              {| session_id := "abc12345"; email := "a@b.com";
                 timestamp := "2026-01-05T10:00:00.250000";
                 status := "pending";
                 queries_granted := 0; approved_at := None;
                 request_id := "abc12345_1767607200" |})
    as (Hkept & _ & Hpending).
  - eapply rtc_l; [|apply rtc_refl]. apply step_approve.
  - vm_compute. reflexivity.
  - eexists 0%nat, _, _. split; [lia|].
    split; [vm_compute; reflexivity|].
    split; [vm_compute; reflexivity|reflexivity].
  - split; [exact Hkept|by apply Hpending].
Defined.

(** X19. After [create_request] the ledger is the old one followed by the
    new record, which is pending and so blocks a further request of the
    session and shows in the pending listing; a lookup by the new record's
    id returns it, unless an older record already carries that id, in which
    case the older record is returned. *)
Theorem created_request_can_be_looked_up
        (f : ledger) (sid e now : string) (epoch : Z) :
  let f' := (create_request f sid e now epoch).1 in
  let new := (create_request f sid e now epoch).2 in
  lines f' = (lines f ++ [new])%list
  /\ has_pending_request f' sid = true
  /\ In new (get_pending_requests f')
  /\ get_request_by_id f' (request_id new)
     = match get_request_by_id f (request_id new) with
       | Some old => Some old
       | None => Some new
       end.
Proof.
  intros f' new. subst f' new. unfold create_request. cbn [fst snd lines].
  split; [done|]. split; [apply has_pending_after_request|]. split.
  - apply list_elem_of_In. unfold get_pending_requests.
    rewrite sort_newest_first_perm.
    apply list_elem_of_In, List.filter_In. split; [|done].
    apply List.in_app_iff. right. by left.
  - cbn [get_request_by_id request_id].
    destruct f as [l|]; cbn [lines get_request_by_id].
    + destruct (List.find _ l) as [old|] eqn:Hold.
      * by apply find_app_found.
      * rewrite find_app_missing by done. simpl.
        by rewrite String.eqb_refl.
    + simpl. by rewrite String.eqb_refl.
Qed.

End LedgerMore.

(** ** The listing, status and reset routes *)

Module RoutesFacts.
Import Text ExtensionManager App Notions MoreNotions.
Import LedgerFacts QuotaFacts RequestFacts ChatFacts AdminFacts.

Lemma get_pending_is_filtered_all f :
  get_pending_requests f = get_all_requests f "pending".
Proof. by destruct f. Qed.

(** X20. For an administrator with the right key the listing route hands
    its template the records selected by the status parameter, newest
    first, 'pending' being the default; its two code paths (the pending
    listing and the filtered listing) agree, so the page is always the
    filtered listing for the parameter. *)
Theorem listing_route_filters_by_status
        (cfg : Config) (fs : Files) (key status_arg : option string) :
  key_configured cfg = true ->
  ADMIN_RESET_KEY cfg = Some (default "" key) ->
  Routes.extension_requests cfg fs key status_arg
  = Routes.ListingPage
      (get_all_requests (requests_file fs) (default "pending" status_arg))
      (default "" key) (default "pending" status_arg)
  /\ Routes.extension_requests cfg fs key None
     = Routes.ListingPage (get_pending_requests (requests_file fs))
                          (default "" key) "pending"
  /\ get_pending_requests (requests_file fs)
     = get_all_requests (requests_file fs) "pending".
Proof.
  intros Hcfg Hkey. apply key_matches_iff in Hkey.
  unfold Routes.extension_requests. rewrite Hcfg, Hkey. cbn [negb].
  split; [|split; [done|apply get_pending_is_filtered_all]].
  destruct (String.eqb_spec (default "pending" status_arg) "pending")
    as [->|_]; [|done].
  by rewrite get_pending_is_filtered_all.
Qed.

(** The administrator lists the denied requests. *)
Lemma listing_route_example :
  Routes.extension_requests Samples.cfg Samples.files_denied
                            (Some "s3cret") (Some "denied")
  = Routes.ListingPage
      (get_all_requests (requests_file Samples.files_denied) "denied")
      "s3cret" "denied".
Proof.
  refine (proj1 (listing_route_filters_by_status
                   Samples.cfg Samples.files_denied
                   (Some "s3cret") (Some "denied") _ _)); reflexivity.
Defined.

Lemma In_sort_newest_first r l : In r (sort_newest_first l) <-> In r l.
Proof.
  rewrite <- !list_elem_of_In. by rewrite sort_newest_first_perm.
Qed.

(** X21. What the listings hold: a filtered listing holds exactly the
    ledger records whose status is the filter, all of them for the filter
    'all'; the pending listing holds exactly the pending records; a
    session has a pending request, in the sense of the duplicate check,
    exactly when the pending listing shows one of its records; and the
    'all' listing has as many records as the ledger. *)
Theorem listings_select_by_status
        (f : ledger) (status_filter sid : string) (r : ExtensionRequest) :
  (In r (get_all_requests f status_filter)
   <-> In r (lines f) /\ (status_filter = "all" \/ status r = status_filter))
  /\ (In r (get_pending_requests f)
      <-> In r (lines f) /\ status r = "pending")
  /\ (has_pending_request f sid = true
      <-> exists r', In r' (get_pending_requests f) /\ session_id r' = sid)
  /\ length (get_all_requests f "all") = length (lines f).
Proof.
  assert (Hpending : forall x,
    In x (get_pending_requests f) <-> In x (lines f) /\ status x = "pending").
  { intros x. destruct f as [l|]; simpl; [|tauto].
    rewrite In_sort_newest_first, List.filter_In.
    by rewrite String.eqb_eq. }
  split; [|split; [apply Hpending|split]].
  - destruct f as [l|]; simpl; [|tauto].
    rewrite In_sort_newest_first, List.filter_In.
    rewrite orb_true_iff, !String.eqb_eq. done.
  - rewrite has_pending_request_true. split.
    + intros (x & Hin & Hsid & Hst). exists x. split; [|done].
      by apply Hpending.
    + intros (x & Hin & Hsid). apply Hpending in Hin as [Hin Hst].
      by exists x.
  - destruct f as [l|]; [|done]. simpl.
    rewrite (Permutation_length (sort_newest_first_perm _)).
    by rewrite ListingFacts.filter_everything.
Qed.

(** X22. The listings are stable: among records with the same timestamp
    the order of the ledger file is kept. *)
Theorem listings_keep_file_order_on_ties
        (f : ledger) (status_filter ts : string) :
  List.filter (fun r => String.eqb (timestamp r) ts)
              (get_all_requests f status_filter)
  = List.filter (fun r => String.eqb (timestamp r) ts)
      (List.filter (fun data => String.eqb status_filter "all"
                                || String.eqb (status data) status_filter)
                   (lines f))
  /\ List.filter (fun r => String.eqb (timestamp r) ts)
                 (get_pending_requests f)
     = List.filter (fun r => String.eqb (timestamp r) ts)
         (List.filter (fun data => String.eqb (status data) "pending")
                      (lines f)).
Proof.
  destruct f as [l|]; [|done]. simpl.
  by rewrite !sort_newest_first_stable.
Qed.

(** X23. The reset route. Without a configured secret, or with a key that
    is not the secret, it refuses and leaves the session as it is. With
    the secret it reports the old count and empties the session: the next
    call starts at zero under a fresh id, so its limit is that of the fresh
    id, and a grant stored for the old id no longer counts unless the ids
    coincide. *)
Theorem reset_empties_the_session
        (cfg : Config) (key : option string) (s : Session) :
  (key_configured cfg = false ->
   Routes.reset cfg key s
   = (Routes.ResetError 403 "Reset endpoint not configured", s))
  /\ (key_configured cfg = true ->
      ADMIN_RESET_KEY cfg <> Some (default "" key) ->
      Routes.reset cfg key s = (Routes.ResetError 403 "Invalid key", s))
  /\ (key_configured cfg = true ->
      ADMIN_RESET_KEY cfg = Some (default "" key) ->
      Routes.reset cfg key s
      = (Routes.ResetSuccess (get_query_count s), empty_session)
      /\ forall env fs,
           get_query_count (Routes.reset cfg key s).2 = 0
           /\ session_of env (Routes.reset cfg key s).2 = env_uuid env
           /\ limit_of cfg env (Routes.reset cfg key s).2 fs
              = effective_limit cfg fs (env_uuid env)
           /\ truthy (sess_extension_requested (Routes.reset cfg key s).2)
              = false).
Proof.
  unfold Routes.reset. split; [|split].
  - by intros ->.
  - intros -> Hkey. apply key_mismatch in Hkey. by rewrite Hkey.
  - intros -> Hkey. apply key_matches_iff in Hkey. rewrite Hkey.
    cbn [negb snd]. split; [done|]. intros env fs.
    split; [done|]. split; [done|]. split; [|done].
    rewrite limit_of_eq. apply max_queries_for_spec.
Qed.

(** The session that was granted five questions is reset: under the fresh
    id its limit is 20 again. *)
Lemma reset_example :
  limit_of Samples.cfg Samples.env
           (Routes.reset Samples.cfg (Some "s3cret")
                         Samples.session_requested).2
           (approve_extension
              Samples.cfg (Samples.admin_body "abc12345_1767607200" (Some 5))
              "2026-01-05T11:00:00.000000" "2026-01-05T11:00:00.000050"
              Samples.files_requested).2
  = 20.
Proof.
  destruct (proj2 (proj2 (reset_empties_the_session
                            Samples.cfg (Some "s3cret")
                            Samples.session_requested))
                  eq_refl eq_refl) as [_ Hafter].
  destruct (Hafter Samples.env
              (approve_extension
                 Samples.cfg
                 (Samples.admin_body "abc12345_1767607200" (Some 5))
                 "2026-01-05T11:00:00.000000" "2026-01-05T11:00:00.000050"
                 Samples.files_requested).2) as (_ & _ & Hlimit & _).
  rewrite Hlimit. vm_compute. reflexivity.
Defined.

(** X24. The status route agrees with the quota check of [chat]: it
    reports the session's count, the limit that [chat] would compute, and
    their difference, which is positive exactly when the next chat call
    passes the quota check; it changes nothing but to give a session
    without id its id. *)
Theorem status_agrees_with_chat
        (cfg : Config) (fs : Files) (env : ChatEnv) (s : Session)
        (data : option ChatBody) :
  Routes.status cfg fs (env_uuid env) s
  = (Routes.mkStatusResponse
       (get_query_count s) (limit_of cfg env s fs)
       (limit_of cfg env s fs - get_query_count s),
     (get_session_id (env_uuid env) s).2)
  /\ (0 < Routes.status_queries_remaining
            (Routes.status cfg fs (env_uuid env) s).1
      <-> is_limit_response (response_of (chat cfg env data s fs)) = false).
Proof.
  assert (Hstatus :
    Routes.status cfg fs (env_uuid env) s
    = (Routes.mkStatusResponse
         (get_query_count s) (limit_of cfg env s fs)
         (limit_of cfg env s fs - get_query_count s),
       (get_session_id (env_uuid env) s).2)).
  { unfold Routes.status, limit_of, get_max_queries_for_session.
    pose proof (get_query_count_session_id (env_uuid env) s) as Hc.
    destruct (get_session_id (env_uuid env) s) as [sid s1]. simpl in *.
    by rewrite Hc. }
  split; [done|]. rewrite Hstatus. cbn [fst Routes.status_queries_remaining].
  rewrite chat_limit_response. unfold admitted.
  rewrite negb_involutive, Z.leb_gt. lia.
Qed.

End RoutesFacts.

(** ** The count against the limit *)

Module QuotaMore.
Import Text ExtensionManager App Notions.
Import QuotaFacts.

(** X25. A call of [chat] never lowers the query count and raises it by
    at most one; it never takes the count past the session's limit: a
    count at or below the limit stays at or below it, and a count already
    above it (after a smaller grant replaced a larger one) does not
    move. *)
Theorem chat_keeps_the_count_within_the_limit
        (cfg : Config) (env : ChatEnv) (data : option ChatBody)
        (s : Session) (fs : Files) :
  get_query_count s <= get_query_count (session_after (chat cfg env data s fs))
  /\ get_query_count (session_after (chat cfg env data s fs))
     <= get_query_count s + 1
  /\ get_query_count (session_after (chat cfg env data s fs))
     <= Z.max (get_query_count s) (limit_of cfg env s fs)
  /\ (limit_of cfg env s fs <= get_query_count s ->
      get_query_count (session_after (chat cfg env data s fs))
      = get_query_count s).
Proof.
  pose proof (chat_query_count cfg env data s fs) as Hcount.
  pose proof (chat_limit_response cfg env data s fs) as Hgate.
  unfold admitted in Hgate. rewrite negb_involutive in Hgate.
  destruct (Z.leb_spec (limit_of cfg env s fs) (get_query_count s));
    destruct (response_of (chat cfg env data s fs));
    simpl in Hgate; try discriminate; rewrite Hcount;
    repeat split; lia.
Qed.

End QuotaMore.

(** ** The request body: what the chat call does before it has a message *)

Module BodyFacts.
Import Text Regex EmailDetector ExtensionManager App Notions Request.
Import TextFacts LedgerFacts QuotaFacts RequestFacts ChatFacts ChatMore.

Lemma read_body_null : read_body JNull = Ok None.
Proof. reflexivity. Qed.

(** Reading an object: only the [message] entry matters, and it has to be
    text. *)
Lemma read_body_dict d :
  read_body (JDict d)
  = match d !! "message" with
    | None =>
        Ok (if Nat.eqb (size d) 0 then None else Some (mkChatBody None))
    | Some (JStr m) => Ok (Some (mkChatBody (Some m)))
    | Some _ => Raise AttributeError
    end.
Proof.
  unfold read_body. cbn [py_bool].
  destruct (Nat.eqb (size d) 0) eqn:Hsize; cbn [negb].
  - apply Nat.eqb_eq, map_size_empty_iff in Hsize. subst d.
    by rewrite lookup_empty.
  - cbn [contains_message mbind Result_bind].
    destruct (d !! "message") as [v|] eqn:Hv; cbn [negb]; [|done].
    cbn [get_message mbind Result_bind]. rewrite Hv. cbn [default].
    by destruct v.
Qed.

(** A body without a question is read without an exception, and gives
    one of the three decoded bodies that validation rejects. *)
Lemma no_question_read data :
  no_question data ->
  exists decoded,
    read_body data = Ok decoded
    /\ (decoded = None \/ decoded = Some (mkChatBody None)
        \/ exists m, decoded = Some (mkChatBody (Some m)) /\ strip m = "").
Proof.
  intros [|d Hd|d m Hd Hm].
  - exists None. by split; [|left].
  - rewrite read_body_dict, Hd. eexists. split; [reflexivity|].
    destruct (Nat.eqb (size d) 0); [by left|by right; left].
  - rewrite read_body_dict, Hd. eexists. split; [reflexivity|].
    right; right. by exists m.
Qed.

(** *** The call on a body that can be read is the call on the decoded body *)

Lemma chat_request_decoded cfg env data decoded s fs :
  read_body data = Ok decoded ->
  chat_request cfg env (Returns data) s fs
  = returned (chat cfg env decoded s fs).
Proof.
  intros Hread. unfold chat_request, chat. rewrite Hread.
  destruct (get_max_queries_for_session _ _ _ _) as [limit s1].
  destruct (limit <=? get_query_count s); [|done].
  by destruct (get_session_id (env_uuid env) s1).
Qed.

Lemma chat_request_aborts cfg env code s fs :
  chat_request cfg env (Aborts code) s fs
  = (Aborted code, (get_session_id (env_uuid env) s).2, fs).
Proof.
  unfold chat_request, get_max_queries_for_session.
  destruct (get_session_id (env_uuid env) s) as [sid s1].
  by destruct (_ <=? _).
Qed.

Lemma chat_request_raises cfg env data e s fs :
  read_body data = Raise e ->
  chat_request cfg env (Returns data) s fs
  = (Unhandled e, (get_session_id (env_uuid env) s).2, fs).
Proof.
  intros Hread. unfold chat_request, get_max_queries_for_session.
  rewrite Hread.
  destruct (get_session_id (env_uuid env) s) as [sid s1].
  by destruct (_ <=? _).
Qed.

Lemma returned_response r :
  route_response (returned r) = Returned (response_of r).
Proof. by destruct r as [[resp s] fs]. Qed.

Lemma returned_files r : route_files (returned r) = files_after r.
Proof. by destruct r as [[resp s] fs]. Qed.

Lemma returned_session r : route_session (returned r) = session_after r.
Proof. by destruct r as [[resp s] fs]. Qed.

(** A call that returns a response of the handler had a body that could
    be read. *)
Lemma chat_request_returned cfg env body s fs r :
  route_response (chat_request cfg env body s fs) = Returned r ->
  exists data decoded,
    body = Returns data
    /\ read_body data = Ok decoded
    /\ chat_request cfg env body s fs
       = returned (chat cfg env decoded s fs).
Proof.
  destruct body as [code|data].
  - by rewrite chat_request_aborts.
  - destruct (read_body data) as [decoded|e] eqn:Hread.
    + intros _. exists data, decoded.
      by rewrite (chat_request_decoded _ _ _ _ _ _ Hread).
    + by rewrite (chat_request_raises _ _ _ _ _ _ Hread).
Qed.

(** Whatever arrives, the ledgers are written only by the handler proper. *)
Lemma chat_request_files cfg env body s fs :
  route_files (chat_request cfg env body s fs) = fs
  \/ exists data decoded,
       body = Returns data /\ read_body data = Ok decoded
       /\ route_files (chat_request cfg env body s fs)
          = files_after (chat cfg env decoded s fs).
Proof.
  destruct body as [code|data].
  - left. by rewrite chat_request_aborts.
  - destruct (read_body data) as [decoded|e] eqn:Hread.
    + right. exists data, decoded.
      by rewrite (chat_request_decoded _ _ _ _ _ _ Hread), returned_files.
    + left. by rewrite (chat_request_raises _ _ _ _ _ _ Hread).
Qed.

(** C10, as the code has it. The quota check comes before validation: for
    a session whose query count has reached its limit no chat call gets a
    validation error; the call is answered with status 429 whenever
    [request.get_json()] returns a value that the handler can read, and
    with the plain limit-reached response when that value is [None], an
    object without a message entry, or an object with a blank message;
    when [get_json()] aborts the call, Flask's error is the answer, and
    when reading the value raises (a message that is no text, a value that
    is no object) the exception escapes the handler. The three bodies
    without a question sent by a session below its limit get the
    validation errors 'No message provided' and 'Empty message'. *)
Theorem C10_limit_reply_for_every_readable_body
        (cfg : Config) (env : ChatEnv) (s : Session) (fs : Files) :
  (limit_of cfg env s fs <= get_query_count s ->
   (forall body error,
       route_response (chat_request cfg env body s fs)
       <> Returned (BadRequest error))
   /\ (forall data decoded,
          read_body data = Ok decoded ->
          route_status
            (route_response (chat_request cfg env (Returns data) s fs))
          = 429)
   /\ (forall data,
          no_question data ->
          route_response (chat_request cfg env (Returns data) s fs)
          = Returned
              (LimitReached
                 (if truthy (sess_extension_requested s) then PENDING_REVIEW
                  else SEND_EMAIL (limit_of cfg env s fs))
                 (get_query_count s) (limit_of cfg env s fs)))
   /\ (forall code,
          route_response (chat_request cfg env (Aborts code) s fs)
          = Aborted code)
   /\ (forall data e,
          read_body data = Raise e ->
          route_response (chat_request cfg env (Returns data) s fs)
          = Unhandled e))
  /\ (get_query_count s < limit_of cfg env s fs ->
      route_response (chat_request cfg env (Returns JNull) s fs)
      = Returned (BadRequest "No message provided")
      /\ (forall d,
             d !! "message" = None ->
             route_response (chat_request cfg env (Returns (JDict d)) s fs)
             = Returned (BadRequest "No message provided"))
      /\ (forall d m,
             d !! "message" = Some (JStr m) ->
             strip m = "" ->
             route_response (chat_request cfg env (Returns (JDict d)) s fs)
             = Returned (BadRequest "Empty message"))).
Proof.
  split.
  - intros Hlimit.
    destruct (proj1 (decoded_body_at_the_limit cfg env s fs) Hlimit)
      as [Hstatus Hplain].
    split; [|split; [|split; [|split]]].
    + intros body error Hr.
      apply chat_request_returned in Hr as Hbody.
      destruct Hbody as (data & decoded & -> & Hread & Heq).
      rewrite Heq, returned_response in Hr. injection Hr as Hr.
      specialize (Hstatus decoded). by rewrite Hr in Hstatus.
    + intros data decoded Hread.
      rewrite (chat_request_decoded _ _ _ _ _ _ Hread), returned_response.
      apply Hstatus.
    + intros data Hq.
      apply no_question_read in Hq as (decoded & Hread & Hcases).
      rewrite (chat_request_decoded _ _ _ _ _ _ Hread), returned_response.
      by rewrite Hplain.
    + intros code. by rewrite chat_request_aborts.
    + intros data e Hread.
      by rewrite (chat_request_raises _ _ _ _ _ _ Hread).
  - intros Hunder.
    destruct (proj2 (decoded_body_at_the_limit cfg env s fs) Hunder)
      as (Hnone & Hnomsg & Hblank).
    split; [|split].
    + rewrite (chat_request_decoded _ _ _ _ _ _ read_body_null).
      by rewrite returned_response, Hnone.
    + intros d Hd.
      assert (Hread : exists decoded,
        read_body (JDict d) = Ok decoded
        /\ (decoded = None \/ decoded = Some (mkChatBody None))).
      { rewrite read_body_dict, Hd. eexists. split; [reflexivity|].
        destruct (Nat.eqb (size d) 0); [by left|by right]. }
      destruct Hread as (decoded & Hread & [->| ->]);
        rewrite (chat_request_decoded _ _ _ _ _ _ Hread), returned_response;
        [by rewrite Hnone|by rewrite Hnomsg].
    + intros d m Hd Hm.
      assert (Hread : read_body (JDict d) = Ok (Some (mkChatBody (Some m))))
        by (by rewrite read_body_dict, Hd).
      rewrite (chat_request_decoded _ _ _ _ _ _ Hread), returned_response.
      by rewrite Hblank.
Qed.

(** A session at its limit posts a body that [get_json()] gives as
    [None]: the answer is the limit-reached response, not a validation
    error. *)
Lemma C10_null_body_at_the_limit :
  route_response (chat_request Samples.cfg Samples.env (Returns JNull)
                               Samples.session_at_limit Samples.no_files)
  = Returned (LimitReached (SEND_EMAIL 20) 20 20).
Proof.
  refine (proj1 (proj2 (proj2 (proj1
            (C10_limit_reply_for_every_readable_body
               Samples.cfg Samples.env
               Samples.session_at_limit Samples.no_files) _)))
            JNull no_question_null).
  vm_compute. discriminate.
Defined.

(** C10 as stated fails. The session has reached its limit of 20. Its
    call with the body [{"message": 5}] is not answered with the
    limit-reached response: [.strip()] on the number raises, and the call
    ends with status 500. Its call without a JSON body, which Flask aborts
    with status 415 inside [get_json()], ends with that status. *)
Lemma C10_unreadable_body_at_the_limit :
  get_query_count Samples.session_at_limit = 20
  /\ limit_of Samples.cfg Samples.env Samples.session_at_limit
              Samples.no_files = 20
  /\ route_response
       (chat_request Samples.cfg Samples.env
                     (Returns (message_object (JInt 5)))
                     Samples.session_at_limit Samples.no_files)
     = Unhandled AttributeError
  /\ route_status
       (route_response
          (chat_request Samples.cfg Samples.env
                        (Returns (message_object (JInt 5)))
                        Samples.session_at_limit Samples.no_files))
     = 500
  /\ route_response
       (chat_request Samples.cfg Samples.env (Aborts 415)
                     Samples.session_at_limit Samples.no_files)
     = Aborted 415
  /\ route_status
       (route_response
          (chat_request Samples.cfg Samples.env (Aborts 415)
                        Samples.session_at_limit Samples.no_files))
     = 415.
Proof. vm_compute. repeat split. Qed.

(** X12. Once a call has been answered 'extension requested', the next
    call of that session, whatever arrives as its body and whenever, files
    nothing: the files stay as the first call left them, with the
    session's request pending. When the body can be read the answer is the
    plain limit response with the 'pending review' wording and the same
    counters; when [get_json()] aborts the call or reading the body
    raises, that error is the answer. *)
Theorem second_call_files_nothing
        (cfg : Config) (env env' : ChatEnv) (body body' : GetJson)
        (s : Session) (fs : Files) (msg : string) (count limit : Z) :
  route_response (chat_request cfg env body s fs)
  = Returned (ExtensionRequested msg count limit) ->
  has_pending_request
    (requests_file (route_files (chat_request cfg env body s fs)))
    (session_of env s) = true
  /\ route_files
       (chat_request cfg env' body'
          (route_session (chat_request cfg env body s fs))
          (route_files (chat_request cfg env body s fs)))
     = route_files (chat_request cfg env body s fs)
  /\ route_response
       (chat_request cfg env' body'
          (route_session (chat_request cfg env body s fs))
          (route_files (chat_request cfg env body s fs)))
     = match body' with
       | Aborts code => Aborted code
       | Returns data' =>
           match read_body data' with
           | Raise e => Unhandled e
           | Ok _ => Returned (LimitReached PENDING_REVIEW count limit)
           end
       end.
Proof.
  intros Hr. apply chat_request_returned in Hr as Hbody.
  destruct Hbody as (data & decoded & -> & Hread & Heq).
  rewrite Heq, returned_response in Hr. injection Hr as Hr.
  rewrite Heq, returned_files, returned_session.
  split; [|split].
  - exact (proj1 (second_request_is_suppressed
                    cfg env env decoded None s fs msg count limit Hr)).
  - destruct body' as [code|data'].
    + by rewrite chat_request_aborts.
    + destruct (read_body data') as [decoded'|e] eqn:Hread'.
      * rewrite (chat_request_decoded _ _ _ _ _ _ Hread'), returned_files.
        exact (proj2 (proj2 (second_request_is_suppressed
                 cfg env env' decoded decoded' s fs msg count limit Hr))).
      * by rewrite (chat_request_raises _ _ _ _ _ _ Hread').
  - destruct body' as [code|data'].
    + by rewrite chat_request_aborts.
    + destruct (read_body data') as [decoded'|e] eqn:Hread'.
      * rewrite (chat_request_decoded _ _ _ _ _ _ Hread'), returned_response.
        f_equal.
        exact (proj1 (proj2 (second_request_is_suppressed
                 cfg env env' decoded decoded' s fs msg count limit Hr))).
      * by rewrite (chat_request_raises _ _ _ _ _ _ Hread').
Qed.

(** The session that has just filed its request sends its address again,
    and then a message that is a number. *)
Lemma second_call_example :
  route_files
    (chat_request Samples.cfg Samples.env
       (Returns (message_object (JInt 5)))
       (route_session RequestSamples.first_call)
       (route_files RequestSamples.first_call))
  = route_files RequestSamples.first_call
  /\ route_response
       (chat_request Samples.cfg Samples.env
          (Returns (message_object (JInt 5)))
          (route_session RequestSamples.first_call)
          (route_files RequestSamples.first_call))
     = Unhandled AttributeError.
Proof.
  refine (proj2 (second_call_files_nothing
                   Samples.cfg Samples.env Samples.env
                   (Returns (message_object (JStr "contact me at a@b.com")))
                   (Returns (message_object (JInt 5)))
                   Samples.session_at_limit Samples.no_files
                   EXTENSION_RECEIVED 20 20 _)).
  vm_compute. reflexivity.
Defined.

End BodyFacts.
